(** * Advanced-Solar: the geometric design engine of [DesignEditor.tsx]

    A shallow embedding of the wall builder, the shadow projector, the
    drawing snap latch, the module layout packer and the segment delete
    handler, with the properties the specification states about them.

    Numbers.  A JavaScript number is modelled as a real number extended with
    the three non-finite values [NaN], [+Infinity] and [-Infinity].  Finite
    arithmetic is exact (no rounding, one zero); the special values follow
    IEEE 754 as JavaScript exposes it.  [Math.tan], [Math.cos] and [Math.PI]
    are the real functions and constant.

    Libraries.  [turf], [SunCalc], [maptalks] and the [supabase] client are
    not code of the repository: they are Section variables (oracles), so
    every theorem holds for whatever those libraries compute. *)

From Stdlib Require Import Reals Lra Lia ZArith Bool String Ascii List.
From Stdlib Require DecimalString.
Import ListNotations.

Open Scope R_scope.

(* ===================================================================== *)
(** ** JavaScript numbers *)
(* ===================================================================== *)

Module JS.

Inductive num : Type :=
| NaN
| PInf
| NInf
| Num (r : R).

Definition Rltb (a b : R) : bool := if Rlt_dec a b then true else false.
Definition Rleb (a b : R) : bool := if Rle_dec a b then true else false.
Definition Reqb (a b : R) : bool := if Req_dec_T a b then true else false.

(** [isFinite(x)] / [Number.isFinite(x)] on a number. *)
Definition isFinite (x : num) : bool :=
  match x with Num _ => true | _ => false end.

Definition isNaN (x : num) : bool :=
  match x with NaN => true | _ => false end.

(** [x < y] *)
Definition lt (x y : num) : bool :=
  match x, y with
  | NaN, _ | _, NaN => false
  | Num a, Num b => Rltb a b
  | NInf, NInf => false
  | NInf, _ => true
  | PInf, _ => false
  | Num _, PInf => true
  | Num _, NInf => false
  end.

(** [x <= y] *)
Definition le (x y : num) : bool :=
  match x, y with
  | NaN, _ | _, NaN => false
  | Num a, Num b => Rleb a b
  | NInf, _ => true
  | PInf, PInf => true
  | PInf, _ => false
  | Num _, PInf => true
  | Num _, NInf => false
  end.

(** [x > y] and [x >= y] *)
Definition gt (x y : num) : bool := lt y x.
Definition ge (x y : num) : bool := le y x.

(** [x === y] and [x !== y] on numbers: [NaN] differs from itself. *)
Definition seq (x y : num) : bool :=
  match x, y with
  | Num a, Num b => Reqb a b
  | PInf, PInf | NInf, NInf => true
  | _, _ => false
  end.
Definition sne (x y : num) : bool := negb (seq x y).

(** Unary minus. *)
Definition neg (x : num) : num :=
  match x with
  | NaN => NaN | PInf => NInf | NInf => PInf | Num a => Num (- a)
  end.

(** [x + y] *)
Definition add (x y : num) : num :=
  match x, y with
  | NaN, _ | _, NaN => NaN
  | PInf, NInf | NInf, PInf => NaN
  | PInf, _ | _, PInf => PInf
  | NInf, _ | _, NInf => NInf
  | Num a, Num b => Num (a + b)
  end.

(** [x - y] *)
Definition sub (x y : num) : num := add x (neg y).

(** An infinity times (or divided by) a finite factor [a]: the sign of [a]
    picks the infinity; a zero factor gives [NaN] in a product. *)
Definition inf_signed (positive : bool) (a : R) (zero : num) : num :=
  if Reqb a 0 then zero
  else if Rltb 0 a then (if positive then PInf else NInf)
  else (if positive then NInf else PInf).

(** [x * y] *)
Definition mul (x y : num) : num :=
  match x, y with
  | NaN, _ | _, NaN => NaN
  | Num a, Num b => Num (a * b)
  | PInf, PInf | NInf, NInf => PInf
  | PInf, NInf | NInf, PInf => NInf
  | PInf, Num a | Num a, PInf => inf_signed true a NaN
  | NInf, Num a | Num a, NInf => inf_signed false a NaN
  end.

(** [x / y].  A finite non-zero value over zero is an infinity of the sign
    of the dividend (the divisor is taken as [+0]); [0 / 0] is [NaN]. *)
Definition div (x y : num) : num :=
  match x, y with
  | NaN, _ | _, NaN => NaN
  | Num a, Num b =>
      if Reqb b 0 then inf_signed true a NaN else Num (a / b)
  | Num _, PInf | Num _, NInf => Num 0
  | PInf, Num b => inf_signed true b PInf
  | NInf, Num b => inf_signed false b NInf
  | _, _ => NaN
  end.

(** Rounding towards zero, as the quotient of [%] is. *)
Definition Rtrunc (a : R) : R :=
  if Rle_dec 0 a then IZR (Int_part a) else - IZR (Int_part (- a)).

(** [x % y]: the remainder has the sign of the dividend. *)
Definition rem (x y : num) : num :=
  match x, y with
  | NaN, _ | _, NaN => NaN
  | PInf, _ | NInf, _ => NaN
  | Num a, PInf | Num a, NInf => Num a
  | Num a, Num b =>
      if Reqb b 0 then NaN else Num (a - b * Rtrunc (a / b))
  end.

(** [Math.max(x, y)] and [Math.min(x, y)]: [NaN] is contagious. *)
Definition max (x y : num) : num :=
  match x, y with
  | NaN, _ | _, NaN => NaN
  | _, _ => if lt x y then y else x
  end.
Definition min (x y : num) : num :=
  match x, y with
  | NaN, _ | _, NaN => NaN
  | _, _ => if lt y x then y else x
  end.

(** [Math.floor(x)] and [Math.abs(x)] *)
Definition floor (x : num) : num :=
  match x with Num a => Num (IZR (Int_part a)) | _ => x end.
Definition abs (x : num) : num :=
  match x with
  | NaN => NaN | PInf | NInf => PInf | Num a => Num (Rabs a)
  end.

(** [Math.tan(x)] and [Math.cos(x)]: [NaN] outside the finite numbers. *)
Definition tan (x : num) : num :=
  match x with Num a => Num (Rtrigo1.tan a) | _ => NaN end.
Definition cos (x : num) : num :=
  match x with Num a => Num (Rtrigo_def.cos a) | _ => NaN end.

Definition PI : num := Num Rtrigo1.PI.

(** Truthiness of a number: [0] and [NaN] are falsy. *)
Definition truthy (x : num) : bool :=
  match x with
  | NaN => false
  | Num a => negb (Reqb a 0)
  | _ => true
  end.

(** [x || d] on numbers. *)
Definition or_else (x d : num) : num := if truthy x then x else d.

(** [a ?? b ?? d] on a possibly missing property ([None] is [undefined] or
    [null]). *)
Definition nullish {A : Type} (a : option A) (d : A) : A :=
  match a with Some v => v | None => d end.

(** [s || d] on a possibly missing string: the empty string is falsy. *)
Definition str_or (s : option string) (d : string) : string :=
  match s with
  | Some EmptyString | None => d
  | Some v => v
  end.

(** ** Facts about the comparisons *)

Lemma Rltb_true (a b : R) : Rltb a b = true <-> a < b.
Proof. unfold Rltb; destruct (Rlt_dec a b); split; intros; try easy. Qed.

Lemma Rltb_false (a b : R) : Rltb a b = false <-> b <= a.
Proof.
  unfold Rltb; destruct (Rlt_dec a b); split; intros; try easy; lra.
Qed.

Lemma Rleb_true (a b : R) : Rleb a b = true <-> a <= b.
Proof. unfold Rleb; destruct (Rle_dec a b); split; intros; try easy. Qed.

Lemma Rleb_false (a b : R) : Rleb a b = false <-> b < a.
Proof.
  unfold Rleb; destruct (Rle_dec a b); split; intros; try easy; lra.
Qed.

Lemma Reqb_true (a b : R) : Reqb a b = true <-> a = b.
Proof. unfold Reqb; destruct (Req_dec_T a b); split; intros; try easy. Qed.

Lemma Reqb_false (a b : R) : Reqb a b = false <-> a <> b.
Proof. unfold Reqb; destruct (Req_dec_T a b); split; intros; try easy. Qed.

End JS.

Declare Scope js_scope.
Delimit Scope js_scope with js.
Bind Scope js_scope with JS.num.
Infix "+" := JS.add : js_scope.
Infix "-" := JS.sub : js_scope.
Infix "*" := JS.mul : js_scope.
Infix "/" := JS.div : js_scope.
Infix "%%" := JS.rem (at level 40, left associativity) : js_scope.
Infix "<?" := JS.lt (at level 70) : js_scope.
Infix "<=?" := JS.le (at level 70) : js_scope.
Infix ">?" := JS.gt (at level 70) : js_scope.
Infix ">=?" := JS.ge (at level 70) : js_scope.
Infix "===" := JS.seq (at level 70) : js_scope.
Infix "!==" := JS.sne (at level 70) : js_scope.
Notation "# r" := (JS.Num r) (at level 5, r at level 1, format "# r") : js_scope.

(** Decide the real comparisons of a goal: each [Rltb]/[Rleb]/[Reqb] on
    concrete reals is replaced by its truth value. *)
Ltac js_decide :=
  repeat first
    [ match goal with
      | |- context [JS.Rltb ?a ?b] =>
          first [ replace (JS.Rltb a b) with true
                    by (symmetry; apply JS.Rltb_true; lra)
                | replace (JS.Rltb a b) with false
                    by (symmetry; apply JS.Rltb_false; lra) ]
      | |- context [JS.Rleb ?a ?b] =>
          first [ replace (JS.Rleb a b) with true
                    by (symmetry; apply JS.Rleb_true; lra)
                | replace (JS.Rleb a b) with false
                    by (symmetry; apply JS.Rleb_false; lra) ]
      | |- context [JS.Reqb ?a ?b] =>
          first [ replace (JS.Reqb a b) with true
                    by (symmetry; apply JS.Reqb_true; lra)
                | replace (JS.Reqb a b) with false
                    by (symmetry; apply JS.Reqb_false; lra) ]
      end
    | progress cbn [JS.lt JS.le JS.gt JS.ge JS.seq JS.sne JS.add JS.sub
                    JS.mul JS.div JS.neg JS.max JS.min JS.isFinite
                    JS.truthy JS.or_else JS.nullish JS.inf_signed negb
                    andb orb] ].

(* ===================================================================== *)
(** ** Map geometry and field segments *)
(* ===================================================================== *)

(** [maptalks.Coordinate]: [z] is absent unless the constructor got one. *)
Module Coord.
Record t : Type := mk { x : JS.num; y : JS.num; z : option JS.num }.
Definition xy (cx cy : JS.num) : t := mk cx cy None.
Definition xyz (cx cy cz : JS.num) : t := mk cx cy (Some cz).
End Coord.

(** A GeoJSON position [[x, y]] as turf handles it. *)
Definition Position : Type := (JS.num * JS.num)%type.

(** The symbols the editor paints its layers with. *)
Inductive Symbol : Type :=
| wallSymbol
| baseShadowSymbol
| roofShadowSymbol
| wallShadowSymbol
| aggShadowSymbol
| setbackSymbol
| moduleSymbol.

(** [maptalks.Polygon]: its rings, its symbol and the [altitude] property
    (absent until [setProperties] gives one). *)
Record Polygon : Type := mkPolygon {
  rings : list (list Coord.t);
  symbol : Symbol;
  altitude : option JS.num
}.

(** A turf feature: a polygon (its rings) or a multi-polygon. *)
Inductive Feature : Type :=
| TPolygon (coordinates : list (list Position))
| TMultiPolygon (coordinates : list (list (list Position))).

(** [FieldSegment] as the editor reads it.  [None] is a property that is
    [undefined] or [null]; the snake-case twins are the raw database columns
    the code falls back to.  [geometry] is what
    [maptalks.Geometry.fromJSON] makes of the stored JSON: the shell of the
    polygon, or [None] when there is no polygon with a [getShell]. *)
Module FieldSegment.
Record t : Type := mk {
  id : string;
  geometry : option (list Coord.t);
  surfaceHeight : option JS.num;
  surface_height : option JS.num;
  rackingHeight : option JS.num;
  racking_height : option JS.num;
  parapetHeight : option JS.num;
  parapet_height : option JS.num;
  analysisDate : option string;
  startTime : option string;
  timeOfDay : option string;
  endTime : option string;
  module : option string;
  defaultOrientation : option string;
  moduleSpacing : option JS.num;
  frameSpacing : option JS.num;
  rowSpacing : option JS.num;
  frameSizeWide : option JS.num;
  frameSizeUp : option JS.num;
  moduleAzimuth : option JS.num;
  setback : option JS.num;
  alignment : option string
}.
End FieldSegment.

(** [a ?? b ?? 0] *)
Definition nullish2 (a b : option JS.num) : JS.num :=
  JS.nullish a (JS.nullish b (JS.Num 0)).

(** The literal [0.3048]: meters per foot. *)
Definition FT : JS.num := JS.Num 0.3048.

(* ===================================================================== *)
(** ** The wall builder (the "altitude walls" effect) *)
(* ===================================================================== *)

Module Walls.

(** [a.x === b.x && a.y === b.y] *)
Definition samePoint (a b : Coord.t) : bool :=
  JS.seq (Coord.x a) (Coord.x b) && JS.seq (Coord.y a) (Coord.y b).

(** The wall over edge [(a, b)], from altitude [lo] up to [hi]: the ring
    [(a,hi) (b,hi) (b,lo) (a,lo) (a,hi)]. *)
Definition quad (a b : Coord.t) (hi lo : JS.num) : Polygon :=
  mkPolygon
    [[ Coord.xyz (Coord.x a) (Coord.y a) hi;
       Coord.xyz (Coord.x b) (Coord.y b) hi;
       Coord.xyz (Coord.x b) (Coord.y b) lo;
       Coord.xyz (Coord.x a) (Coord.y a) lo;
       Coord.xyz (Coord.x a) (Coord.y a) hi ]]
    wallSymbol None.

(** [z = feet * 0.3048] *)
Definition roofZ (segment : FieldSegment.t) : JS.num :=
  (nullish2 (FieldSegment.surfaceHeight segment)
            (FieldSegment.surface_height segment) * FT)%js.

(** [paraZ = Math.max(0, parapetFeet * 0.3048)] *)
Definition paraZ (segment : FieldSegment.t) : JS.num :=
  JS.max (JS.Num 0)
    (nullish2 (FieldSegment.parapetHeight segment)
              (FieldSegment.parapet_height segment) * FT)%js.

(** One turn of the loop [for (let i = 0; i < shell.length; i++)]: the
    geometries added to the walls layer at index [i]. *)
Definition wallsAt (shell : list Coord.t) (z pz : JS.num) (i : nat)
  : list Polygon :=
  match nth_error shell i, nth_error shell ((i + 1) mod length shell) with
  | Some a, Some b =>
      if samePoint a b then []
      else quad a b z (JS.Num 0)
           :: (if (pz >? JS.Num 0)%js then [quad a b (z + pz)%js z] else [])
  | _, _ => []
  end.

(** The callback of [fieldSegments.forEach] in the walls effect. *)
Definition segmentWalls (segment : FieldSegment.t) : list Polygon :=
  match FieldSegment.geometry segment with
  | None => []
  | Some shell =>
      if (length shell <? 2)%nat then []
      else flat_map (wallsAt shell (roofZ segment) (paraZ segment))
                    (seq 0 (length shell))
  end.

(** The walls layer after the effect ran: cleared, then filled segment by
    segment. *)
Definition wallsLayer (fieldSegments : list FieldSegment.t) : list Polygon :=
  flat_map segmentWalls fieldSegments.

(** *** What the specification says *)

(** The edges of a ring: consecutive vertices, and the closing edge from
    the last vertex back to the first. *)
Definition ringEdges {A : Type} (shell : list A) : list (A * A) :=
  match shell with
  | [] => []
  | v :: rest => combine shell (rest ++ [v])
  end.

(** The quads of one edge: none for coincident endpoints, else the wall
    from the ground to [z], and the parapet strip above it when
    [pz > 0]. *)
Definition edgeQuads (z pz : JS.num) (e : Coord.t * Coord.t) : list Polygon :=
  let (a, b) := e in
  if samePoint a b then []
  else quad a b z (JS.Num 0)
       :: (if (pz >? JS.Num 0)%js then [quad a b (z + pz)%js z] else []).

End Walls.

(** *** The index loop walks the ring edges *)

Section WallsFacts.
Import Walls.

Lemma ringEdges_length {A : Type} (shell : list A) :
  length (ringEdges shell) = length shell.
Proof.
  destruct shell as [|v rest]; [reflexivity|].
  unfold ringEdges. rewrite length_combine, length_app.
  cbn [length]. lia.
Qed.

Lemma closing_index {A : Type} (v : A) (rest : list A) (d : A) (i : nat) :
  (i < S (length rest))%nat ->
  nth i (rest ++ [v]) d = nth ((i + 1) mod S (length rest)) (v :: rest) d.
Proof.
  intros Hi.
  destruct (Nat.eq_dec i (length rest)) as [->|Hne].
  - replace (length rest + 1)%nat with (S (length rest)) by lia.
    rewrite Nat.Div0.mod_same. rewrite app_nth2 by lia.
    rewrite Nat.sub_diag. reflexivity.
  - rewrite Nat.mod_small by lia. rewrite app_nth1 by lia.
    replace (i + 1)%nat with (S i) by lia. reflexivity.
Qed.

Lemma ringEdges_by_index {A : Type} (shell : list A) (d : A) :
  ringEdges shell =
  map (fun i => (nth i shell d, nth ((i + 1) mod length shell) shell d))
      (seq 0 (length shell)).
Proof.
  destruct shell as [|v rest]; [reflexivity|].
  set (f := fun i : nat =>
              (nth i (v :: rest) d,
               nth ((i + 1) mod length (v :: rest)) (v :: rest) d)).
  apply (nth_ext _ _ (d, d) (f 0%nat)).
  - rewrite ringEdges_length, length_map, length_seq. reflexivity.
  - intros i Hi. rewrite ringEdges_length in Hi.
    rewrite map_nth, seq_nth by exact Hi. simpl Nat.add at 1.
    unfold ringEdges, f.
    rewrite combine_nth by (rewrite length_app; cbn [length]; lia).
    f_equal. apply closing_index. exact Hi.
Qed.

Lemma wallsAt_edge (shell : list Coord.t) (z pz : JS.num) (d : Coord.t)
      (i : nat) :
  (i < length shell)%nat ->
  wallsAt shell z pz i =
  edgeQuads z pz (nth i shell d, nth ((i + 1) mod length shell) shell d).
Proof.
  intros Hi. unfold wallsAt, edgeQuads.
  rewrite (nth_error_nth' shell d Hi).
  rewrite (nth_error_nth' shell d)
    by (apply Nat.mod_upper_bound; lia).
  reflexivity.
Qed.

Lemma walls_loop_edges (shell : list Coord.t) (z pz : JS.num) :
  flat_map (wallsAt shell z pz) (seq 0 (length shell)) =
  flat_map (edgeQuads z pz) (ringEdges shell).
Proof.
  destruct shell as [|v rest]; [reflexivity|].
  rewrite (ringEdges_by_index (v :: rest) v).
  rewrite !flat_map_concat_map, map_map. f_equal.
  apply map_ext_in. intros i Hi. apply in_seq in Hi.
  apply wallsAt_edge. lia.
Qed.

(** C5.  The walls of a segment are, edge by edge of its ring (the closing
    edge included): nothing for an edge (a, b) whose endpoints have the
    same x and y; else one quad with the corners (a,z) (b,z) (b,0) (a,0),
    closed by (a,z), where z is the surface height in feet times 0.3048,
    followed by one quad (a,z+p) (b,z+p) (b,z) (a,z) exactly when
    p > 0, where p is the parapet height in feet times 0.3048, or 0 when
    that is negative.  A segment without a polygon, or whose ring has
    fewer than two vertices, has no walls. *)
Theorem walls_one_quad_per_edge (segment : FieldSegment.t) :
  let z :=
    (JS.nullish (FieldSegment.surfaceHeight segment)
                (JS.nullish (FieldSegment.surface_height segment) (JS.Num 0))
     * JS.Num 0.3048)%js in
  let p :=
    JS.max (JS.Num 0)
      (JS.nullish (FieldSegment.parapetHeight segment)
                  (JS.nullish (FieldSegment.parapet_height segment)
                              (JS.Num 0))
       * JS.Num 0.3048)%js in
  let wall (a b : Coord.t) (hi lo : JS.num) :=
    mkPolygon
      [[ Coord.mk (Coord.x a) (Coord.y a) (Some hi);
         Coord.mk (Coord.x b) (Coord.y b) (Some hi);
         Coord.mk (Coord.x b) (Coord.y b) (Some lo);
         Coord.mk (Coord.x a) (Coord.y a) (Some lo);
         Coord.mk (Coord.x a) (Coord.y a) (Some hi) ]]
      wallSymbol None in
  let ofEdge (e : Coord.t * Coord.t) :=
    if JS.seq (Coord.x (fst e)) (Coord.x (snd e))
       && JS.seq (Coord.y (fst e)) (Coord.y (snd e))
    then []
    else wall (fst e) (snd e) z (JS.Num 0)
         :: (if (p >? JS.Num 0)%js then [wall (fst e) (snd e) (z + p)%js z]
             else []) in
  segmentWalls segment =
  match FieldSegment.geometry segment with
  | None => []
  | Some shell =>
      if (length shell <? 2)%nat then []
      else flat_map ofEdge (ringEdges shell)
  end
  /\ (forall (v : Coord.t) (rest : list Coord.t),
        ringEdges (v :: rest) = combine (v :: rest) (rest ++ [v])
        /\ length (ringEdges (v :: rest)) = length (v :: rest))
  /\ (forall e,
        length (ofEdge e) =
        if JS.seq (Coord.x (fst e)) (Coord.x (snd e))
           && JS.seq (Coord.y (fst e)) (Coord.y (snd e))
        then 0%nat
        else if (p >? JS.Num 0)%js then 2%nat else 1%nat).
Proof.
  intros z p wall ofEdge.
  assert (E : forall e, edgeQuads (roofZ segment) (paraZ segment) e
                        = ofEdge e).
  { intros [a b]. reflexivity. }
  split; [|split].
  - unfold segmentWalls.
    destruct (FieldSegment.geometry segment) as [shell|]; [|reflexivity].
    destruct (length shell <? 2)%nat; [reflexivity|].
    rewrite walls_loop_edges. apply flat_map_ext. exact E.
  - intros v rest. split; [reflexivity|apply ringEdges_length].
  - intros e. subst ofEdge. cbn beta.
    destruct (JS.seq _ _ && JS.seq _ _); [reflexivity|].
    destruct (p >? JS.Num 0)%js; reflexivity.
Qed.

(** The parapet height is never negative, and is [NaN] only when the
    stored height is. *)
Lemma paraZ_clamped (segment : FieldSegment.t) (r : R) :
  paraZ segment = JS.Num r -> 0 <= r.
Proof.
  unfold paraZ, JS.max.
  destruct (nullish2 _ _ * FT)%js as [| | |a]; cbn; intros H.
  - discriminate H.
  - discriminate H.
  - injection H as <-. lra.
  - destruct (JS.Rltb 0 a) eqn:E; injection H as <-.
    + apply JS.Rltb_true in E. lra.
    + lra.
Qed.

(** A ring of a single vertex with finite coordinates has only the
    degenerate edge from the vertex to itself: the early return of the
    builder on short rings agrees with the rule for the edges. *)
Lemma short_ring_no_quads (v : Coord.t) (z pz : JS.num) :
  JS.isFinite (Coord.x v) = true -> JS.isFinite (Coord.y v) = true ->
  flat_map (edgeQuads z pz) (ringEdges [v]) = [].
Proof.
  intros Hx Hy. cbn. unfold samePoint.
  destruct (Coord.x v); try discriminate.
  destruct (Coord.y v); try discriminate.
  cbn. unfold JS.Reqb.
  destruct (Req_dec_T r r); [|contradiction].
  destruct (Req_dec_T r0 r0); [|contradiction]. reflexivity.
Qed.

End WallsFacts.

(* ===================================================================== *)
(** ** Clock times: [parseInt], ["HH:mm"] strings and minutes of the day *)
(* ===================================================================== *)

Module Clock.
Local Open Scope string_scope.
Local Open Scope Z_scope.

Definition isWhite (c : ascii) : bool :=
  match nat_of_ascii c with
  | 9%nat | 10%nat | 11%nat | 12%nat | 13%nat | 32%nat => true
  | _ => false
  end.

Fixpoint trimStart (s : string) : string :=
  match s with
  | String c r => if isWhite c then trimStart r else s
  | EmptyString => s
  end.

(** The value of a digit in a radix up to 36. *)
Definition digitVal (c : ascii) : option Z :=
  let n := Z.of_nat (nat_of_ascii c) in
  if (48 <=? n) && (n <=? 57) then Some (n - 48)
  else if (97 <=? n) && (n <=? 122) then Some (n - 87)
  else if (65 <=? n) && (n <=? 90) then Some (n - 55)
  else None.

(** The longest prefix of digits of the radix; [None] when there is no
    digit at all. *)
Fixpoint digits (radix : Z) (s : string) (acc : option Z) : option Z :=
  match s with
  | String c r =>
      match digitVal c with
      | Some d =>
          if d <? radix
          then digits radix r (Some (JS.nullish acc 0 * radix + d))
          else acc
      | None => acc
      end
  | EmptyString => acc
  end.

(** [parseInt(s)]: leading white space, a sign, an optional [0x] prefix,
    then digits; [None] is [NaN].  The integer is exact. *)
Definition parseInt (s : string) : option Z :=
  let s := trimStart s in
  let '(sign, s) :=
    match s with
    | String "-" r => (-1, r)
    | String "+" r => (1, r)
    | _ => (1, s)
    end in
  let '(radix, s) :=
    match s with
    | String "0" (String "x" r) | String "0" (String "X" r) => (16, r)
    | _ => (10, s)
    end in
  option_map (Z.mul sign) (digits radix s None).

(** [s.split(sep)] for a one-character separator. *)
Fixpoint split (sep : ascii) (s : string) : list string :=
  match s with
  | EmptyString => [EmptyString]
  | String c r =>
      if Ascii.eqb c sep then EmptyString :: split sep r
      else match split sep r with
           | h :: t => String c h :: t
           | [] => [String c EmptyString]
           end
  end.

(** [parseHHmmToMinutes] *)
Definition parseHHmmToMinutes (t : string) : Z :=
  let parts := map parseInt (split ":" t) in
  match nth 0 parts None with
  | None => 0
  | Some h => h * 60 + JS.nullish (nth 1 parts None) 0
  end.

(** [String(n)] for an integer and [padStart(2, '0')]. *)
Definition String_ (n : Z) : string :=
  DecimalString.NilZero.string_of_int (Z.to_int n).

Definition padStart2 (s : string) : string :=
  match s with
  | EmptyString => "00"
  | String c EmptyString => String "0" s
  | _ => s
  end.

(** The time string of the sample at minute [m]:
    [`${hh}:${mm}`] with [hh = Math.floor(m / 60)] and [mm = m % 60]. *)
Definition timeString (m : Z) : string :=
  padStart2 (String_ (m / 60)) ++ ":" ++ padStart2 (String_ (Z.rem m 60)).

(** The [Date] built by [toDateAtTime]: the calendar day of
    [new Date(dateStr)] (of today when there is no date string) with the
    parsed hours and minutes ([None] is [NaN]). *)
Record JSDate : Type := mkDate {
  day : option string;
  hours : option Z;
  minutes : option Z
}.

Definition toDateAtTime (dateStr : option string) (timeStr : option string)
  : JSDate :=
  let parts := split ":" (JS.str_or timeStr "12:00") in
  mkDate (match dateStr with Some EmptyString => None | d => d end)
         (parseInt (nth 0 parts "12"))
         (parseInt (nth 1 parts "00")).

End Clock.

(* ===================================================================== *)
(** ** The shadow projector (the "time-based ground shadows" effect) *)
(* ===================================================================== *)

(** What [SunCalc.getPosition] does: it throws, or returns a position
    (azimuth and altitude in radians; a missing or non-numeric component
    reads as [NaN], which is falsy like [undefined]). *)
Inductive SunLookup : Type :=
| SunThrows
| SunPos (azimuth altitude : JS.num).

(** What [turf.union] does: it throws, returns [null], or a feature. *)
Inductive UnionResult : Type :=
| UThrows
| UNull
| UFeature (f : Feature).

(** What one call of a drawing routine leaves behind: the geometries it
    added to the layer, and whether it returned or threw. *)
Record Run : Type := mkRun { added : list Polygon; returned : bool }.

(** Running a drawing routine over a list: a throw ends the whole run. *)
Fixpoint forEachRun {A : Type} (f : A -> Run) (xs : list A) : Run :=
  match xs with
  | [] => mkRun [] true
  | a :: rest =>
      let r := f a in
      if returned r
      then let r' := forEachRun f rest in
           mkRun (added r ++ added r') (returned r')
      else r
  end.

Module Shadows.

(** [turf.polygon(rings)]: throws ([None]) when a ring has fewer than four
    positions or does not end where it starts. *)
Definition samePosition (p q : Position) : bool :=
  JS.seq (fst p) (fst q) && JS.seq (snd p) (snd q).

Definition validRing (ring : list Position) : bool :=
  (4 <=? length ring)%nat
  && match ring with
     | [] => false
     | p :: _ => samePosition (last ring p) p
     end.

Definition turf_polygon (rs : list (list Position)) : option Feature :=
  if forallb validRing rs then Some (TPolygon rs) else None.

(** The height that casts the shadow, in meters:
    [(feet + rackingFeet + parapetFeet) * 0.3048]. *)
Definition segHeightM (segment : FieldSegment.t) : JS.num :=
  ((nullish2 (FieldSegment.surfaceHeight segment)
             (FieldSegment.surface_height segment)
    + nullish2 (FieldSegment.rackingHeight segment)
               (FieldSegment.racking_height segment)
    + nullish2 (FieldSegment.parapetHeight segment)
               (FieldSegment.parapet_height segment)) * FT)%js.

(** [rawLen] and [segShadowLen] *)
Definition rawLen (h sunAlt : JS.num) : JS.num := (h / JS.tan sunAlt)%js.
Definition segShadowLen (h sunAlt : JS.num) : JS.num :=
  JS.max (JS.Num 0) (JS.min (JS.Num 500) (rawLen h sunAlt)).

(** [sunBearingFromNorth] and [shadowBearing] *)
Definition sunBearingFromNorth (sunAz : JS.num) : JS.num :=
  ((sunAz * JS.Num 180 / JS.PI + JS.Num 180 + JS.Num 360) %% JS.Num 360)%js.
Definition shadowBearing (sunAz : JS.num) : JS.num :=
  ((sunBearingFromNorth sunAz + JS.Num 180) %% JS.Num 360)%js.

(** [getStartTime] and [getEndTime] *)
Definition getStartTime (seg : FieldSegment.t) : string :=
  JS.str_or (FieldSegment.startTime seg)
            (JS.str_or (FieldSegment.timeOfDay seg) "10:00").
Definition getEndTime (seg : FieldSegment.t) : string :=
  JS.str_or (FieldSegment.endTime seg) "16:00".

(** A ring closed the way the projector closes it: the first position is
    repeated at the end unless the last one already equals it.  Reading
    [ring[0][0]] of an empty ring throws. *)
Definition closeRing (ring : list Position) : option (list Position) :=
  match ring with
  | [] => None
  | p :: _ =>
      let q := last ring p in
      if JS.sne (fst p) (fst q) || JS.sne (snd p) (snd q)
      then Some (ring ++ [p]) else Some ring
  end.

(** [xs.map(f)] for an [f] that may throw. *)
Fixpoint mapThrow {A B : Type} (f : A -> option B) (xs : list A)
  : option (list B) :=
  match xs with
  | [] => Some []
  | a :: rest =>
      match f a with
      | None => None
      | Some b =>
          match mapThrow f rest with
          | None => None
          | Some bs => Some (b :: bs)
          end
      end
  end.

Definition toPosition (c : Coord.t) : Position := (Coord.x c, Coord.y c).
Definition toCoord (p : Position) : Coord.t := Coord.xy (fst p) (snd p).

(** The wall shadow over edge [i]: the quadrilateral from the edge to its
    shifted copy.  An index outside the array reads [undefined], and
    reading a component of it throws. *)
Definition shadowQuadRing (shell : list Coord.t) (shifted : list Position)
           (i : nat) : option (list Position) :=
  let ni := ((i + 1) mod length shell)%nat in
  match nth_error shell i, nth_error shell ni,
        nth_error shifted i, nth_error shifted ni with
  | Some a, Some b, Some ap, Some bp =>
      Some [toPosition a; toPosition b; bp; ap; toPosition a]
  | _, _, _, _ => None
  end.

(** *** What the specification says of the length and the bearing *)

(** A value clamped to the interval from [lo] to [hi]. *)
Definition clampTo (lo hi x : JS.num) : JS.num :=
  match x with
  | JS.NaN => JS.NaN
  | _ => if (x <? lo)%js then lo else if (hi <? x)%js then hi else x
  end.

(** The azimuth of the sun as a compass bearing from north, in degrees:
    SunCalc measures it in radians from south. *)
Definition compassBearing (sunAz : JS.num) : JS.num :=
  ((sunAz * JS.Num 180 / JS.PI + JS.Num 180 + JS.Num 360) %% JS.Num 360)%js.

(** A bearing rotated by half a turn, modulo 360. *)
Definition rotate180 (bearing : JS.num) : JS.num :=
  ((bearing + JS.Num 180) %% JS.Num 360)%js.

Section Projector.

(** The libraries and the host. *)
Variable getPosition : Clock.JSDate -> JS.num -> JS.num -> SunLookup.
Variable destination : Position -> JS.num -> JS.num -> option Position.
Variable union : Feature -> Feature -> UnionResult.
Variable dec22ThisYear : string.

(** The project's latitude and longitude. *)
Variables lat lng : JS.num.

(** The sun at [timeStr] on the analysis day of the segment:
    [sunAz = pos.azimuth || 0; sunAlt = pos.altitude || 0], both [0] when
    the lookup throws. *)
Definition dateAt (segment : FieldSegment.t) (timeStr : string)
  : Clock.JSDate :=
  let dateStr := JS.str_or (FieldSegment.analysisDate segment) dec22ThisYear in
  Clock.toDateAtTime (Some dateStr) (Some timeStr).

Definition sunAt (segment : FieldSegment.t) (timeStr : string)
  : JS.num * JS.num :=
  match getPosition (dateAt segment timeStr) lat lng with
  | SunThrows => (JS.Num 0, JS.Num 0)
  | SunPos az alt => (JS.or_else az (JS.Num 0), JS.or_else alt (JS.Num 0))
  end.

(** The ring moved by the shadow: every vertex goes through
    [turf.destination(., segShadowLen, shadowBearing)]. *)
Definition shiftedRing (shell : list Coord.t) (len bearing : JS.num)
  : option (list Position) :=
  mapThrow (fun c => destination (toPosition c) len bearing) shell.

(** [buildTurfPolysAtTime]: the turf polygons of the shadow at one time;
    [None] when it throws. *)
Definition buildTurfPolysAtTime (segment : FieldSegment.t)
           (shell : list Coord.t) (timeStr : string) : option (list Feature) :=
  let '(sunAz, sunAlt) := sunAt segment timeStr in
  if (sunAlt <=? JS.Num 0)%js then Some []
  else
    let h := segHeightM segment in
    if negb (JS.isFinite h) || (h <=? JS.Num 0)%js then Some []
    else
      let len := segShadowLen h sunAlt in
      let bearing := shadowBearing sunAz in
      match closeRing (map toPosition shell) with
      | None => None
      | Some baseRing =>
      match turf_polygon [baseRing] with
      | None => None
      | Some basePoly =>
      match shiftedRing shell len bearing with
      | None => None
      | Some shifted =>
      match closeRing shifted with
      | None => None
      | Some roofRing =>
      match turf_polygon [roofRing] with
      | None => None
      | Some roofPoly =>
      match mapThrow
              (fun i => match shadowQuadRing shell shifted i with
                        | None => None
                        | Some ring => turf_polygon [ring]
                        end)
              (seq 0 (length shell)) with
      | None => None
      | Some quads => Some (basePoly :: roofPoly :: quads)
      end end end end end end.

(** A shadow polygon on the layer: at ground level. *)
Definition groundPolygon (ring : list Coord.t) (s : Symbol) : Polygon :=
  mkPolygon [ring] s (Some (JS.Num 0)).

(** [drawAtTime]: the shadow at one time, drawn on the shadows layer. *)
Definition drawAtTime (segment : FieldSegment.t) (shell : list Coord.t)
           (timeStr : string) : Run :=
  let '(sunAz, sunAlt) := sunAt segment timeStr in
  if (sunAlt <=? JS.Num 0)%js then mkRun [] true
  else
    let h := segHeightM segment in
    if negb (JS.isFinite h) || (h <=? JS.Num 0)%js then mkRun [] true
    else
      let len := segShadowLen h sunAlt in
      let bearing := shadowBearing sunAz in
      let basePoly :=
        groundPolygon (map (fun c => Coord.xy (Coord.x c) (Coord.y c)) shell)
                      baseShadowSymbol in
      match shiftedRing shell len bearing with
      | None => mkRun [basePoly] false
      | Some shifted =>
          let roofShadowPoly :=
            groundPolygon (map toCoord shifted) roofShadowSymbol in
          match mapThrow (shadowQuadRing shell shifted)
                         (seq 0 (length shell)) with
          | None => mkRun [basePoly; roofShadowPoly] false
          | Some quadRings =>
              mkRun (basePoly :: roofShadowPoly
                     :: map (fun ring =>
                               groundPolygon (map toCoord ring)
                                             wallShadowSymbol)
                            quadRings)
                    true
          end
      end.

(** *** The aggregate over the time window *)

(** [STEP]: minutes per step. *)
Definition STEP : Z := 1.

(** [minutesStart] and [minutesEnd], swapped when the window is inverted.
    (The end time string is never empty, so its other branch, which reuses
    the start, is dead.) *)
Definition window (segment : FieldSegment.t) : Z * Z :=
  let startTs := getStartTime segment in
  let endTs := getEndTime segment in
  let minutesStart :=
    Clock.parseHHmmToMinutes (JS.str_or (Some startTs) "10:00") in
  let minutesEnd :=
    match endTs with
    | EmptyString => minutesStart
    | _ => Clock.parseHHmmToMinutes endTs
    end in
  if (minutesEnd <? minutesStart)%Z then (minutesEnd, minutesStart)
  else (minutesStart, minutesEnd).

(** [for (let m = minutesStart; m <= minutesEnd; m += STEP)]: the values
    [m] takes, followed for at most [fuel] turns. *)
Fixpoint minutesLoop (fuel : nat) (m minutesEnd : Z) : list Z :=
  match fuel with
  | O => []
  | S k =>
      if (m <=? minutesEnd)%Z
      then m :: minutesLoop k (m + STEP)%Z minutesEnd
      else []
  end.

(** The samples of the segment.  The loop ends by its own test after
    [minutesEnd - minutesStart + 1] turns (see [minutesLoop_enough]), which
    is the fuel it gets here. *)
Definition sampleMinutes (segment : FieldSegment.t) : list Z :=
  let '(minutesStart, minutesEnd) := window segment in
  minutesLoop (Z.to_nat (minutesEnd - minutesStart + 1))
              minutesStart minutesEnd.

(** [try { agg = agg ? turf.union(agg, p) : p } catch {}] *)
Definition unionStep (agg : option Feature) (p : Feature) : option Feature :=
  match agg with
  | None => Some p
  | Some a =>
      match union a p with
      | UThrows => agg
      | UNull => None
      | UFeature f => Some f
      end
  end.

(** The aggregation loop over the samples; [None] when building the
    polygons of a sample throws. *)
Fixpoint aggregate (segment : FieldSegment.t) (shell : list Coord.t)
         (ms : list Z) (agg : option Feature) : option (option Feature) :=
  match ms with
  | [] => Some agg
  | m :: rest =>
      match buildTurfPolysAtTime segment shell (Clock.timeString m) with
      | None => None
      | Some polys =>
          aggregate segment shell rest (fold_left unionStep polys agg)
      end
  end.

(** [addMp] and the drawing of the aggregate. *)
Definition addMp (coords : list (list Position)) : Polygon :=
  mkPolygon (map (map toCoord) coords) aggShadowSymbol (Some (JS.Num 0)).

Definition drawAggregate (agg : option Feature) : list Polygon :=
  match agg with
  | None => []
  | Some (TPolygon coords) => [addMp coords]
  | Some (TMultiPolygon parts) => map addMp parts
  end.

(** The callback of [fieldSegments.forEach] in the shadows effect: the
    aggregate first, then the shadow of every sample. *)
Definition segmentShadows (segment : FieldSegment.t) : Run :=
  match FieldSegment.geometry segment with
  | None => mkRun [] true
  | Some shell =>
      let ms := sampleMinutes segment in
      match aggregate segment shell ms None with
      | None => mkRun [] false
      | Some agg =>
          let r := forEachRun
                     (fun m => drawAtTime segment shell (Clock.timeString m))
                     ms in
          mkRun (drawAggregate agg ++ added r) (returned r)
      end
  end.

(** The shadows layer after the effect ran (for a project with numeric
    coordinates): cleared, and left empty when shadows are switched off. *)
Definition shadowsLayer (showShadows : bool)
           (fieldSegments : list FieldSegment.t) : Run :=
  if showShadows then forEachRun segmentShadows fieldSegments
  else mkRun [] true.

(** *** What the specification says *)

(** The polygons whose union step did not throw, given the aggregate the
    loop starts from. *)
Fixpoint kept (agg : option Feature) (ps : list Feature) : list Feature :=
  match ps with
  | [] => []
  | p :: rest =>
      match agg with
      | None => p :: kept (Some p) rest
      | Some a =>
          match union a p with
          | UThrows => kept agg rest
          | UNull => p :: kept None rest
          | UFeature f => p :: kept (Some f) rest
          end
      end
  end.



(** *** Facts about numbers used by the projector *)

Lemma clamp_max_min (x : JS.num) :
  JS.max (JS.Num 0) (JS.min (JS.Num 500) x) =
  clampTo (JS.Num 0) (JS.Num 500) x.
Proof.
  destruct x as [| | |a]; cbn; js_decide; try reflexivity.
  unfold JS.Rltb.
  destruct (Rlt_dec a 500), (Rlt_dec a 0), (Rlt_dec 500 a); cbn;
    unfold JS.Rltb;
    repeat match goal with
           | |- context [Rlt_dec ?u ?v] => destruct (Rlt_dec u v)
           end; try reflexivity; try lra; f_equal; lra.
Qed.

(** A clamped value lies in the interval. *)
Lemma clampTo_range (x : JS.num) :
  x <> JS.NaN ->
  exists c, clampTo (JS.Num 0) (JS.Num 500) x = JS.Num c
            /\ 0 <= c <= 500.
Proof.
  intros Hx. destruct x as [| | |a]; [contradiction| | |]; cbn; js_decide.
  - exists 500. split; [reflexivity|lra].
  - exists 0. split; [reflexivity|lra].
  - unfold JS.Rltb. destruct (Rlt_dec a 0).
    + exists 0. split; [reflexivity|lra].
    + destruct (Rlt_dec 500 a).
      * exists 500. split; [reflexivity|lra].
      * exists a. split; [reflexivity|lra].
Qed.

(** The remainder of a non-negative dividend by a positive divisor. *)
Lemma rem_nonneg (a b : R) :
  0 <= a -> 0 < b ->
  exists k : Z,
    (JS.Num a %% JS.Num b)%js = JS.Num (a - b * IZR k)
    /\ 0 <= a - b * IZR k < b.
Proof.
  intros Ha Hb. exists (Int_part (a / b)). cbn.
  replace (JS.Reqb b 0) with false by (symmetry; apply JS.Reqb_false; lra).
  assert (Hq : 0 <= a / b).
  { apply Rmult_le_pos; [exact Ha|]. left. apply Rinv_0_lt_compat, Hb. }
  unfold JS.Rtrunc. destruct (Rle_dec 0 (a / b)); [|contradiction].
  split; [reflexivity|].
  destruct (base_Int_part (a / b)) as [Hlo Hhi].
  assert (Hab : a = a / b * b) by (field; lra).
  set (k := IZR (Int_part (a / b))) in *.
  assert (H1 : b * k <= a / b * b) by nra.
  assert (H2 : a / b * b < b * k + b) by nra.
  lra.
Qed.

(** *** Properties of the projector *)

Lemma mapThrow_length {A B : Type} (f : A -> option B) (xs : list A)
      (ys : list B) :
  mapThrow f xs = Some ys -> length ys = length xs.
Proof.
  revert ys. induction xs as [|a rest IH]; intros ys H; cbn in H.
  - injection H as <-. reflexivity.
  - destruct (f a); [|discriminate].
    destruct (mapThrow f rest) as [bs|]; [|discriminate].
    injection H as <-. cbn. f_equal. apply IH. reflexivity.
Qed.

Lemma mapThrow_total {A B : Type} (f : A -> option B) (xs : list A) :
  (forall a, In a xs -> f a <> None) ->
  exists ys, mapThrow f xs = Some ys.
Proof.
  induction xs as [|a rest IH]; intros H; cbn.
  - eexists; reflexivity.
  - destruct (f a) eqn:E; [|exfalso; exact (H a (or_introl eq_refl) E)].
    destruct IH as [bs Hbs]; [intros; apply H; right; assumption|].
    rewrite Hbs. eexists; reflexivity.
Qed.

(** With as many shifted positions as vertices, every wall shadow of the
    ring can be formed. *)
Lemma quadRings_total (shell : list Coord.t) (shifted : list Position) :
  length shifted = length shell ->
  exists quadRings,
    mapThrow (shadowQuadRing shell shifted) (seq 0 (length shell))
    = Some quadRings
    /\ length quadRings = length shell.
Proof.
  intros Hlen.
  destruct (mapThrow_total (shadowQuadRing shell shifted)
                           (seq 0 (length shell))) as [qs Hqs].
  - intros i Hi. apply in_seq in Hi. unfold shadowQuadRing.
    assert (Hn : ((i + 1) mod length shell < length shell)%nat)
      by (apply Nat.mod_upper_bound; lia).
    set (ni := ((i + 1) mod length shell)%nat) in *.
    destruct (nth_error shell i) eqn:E1;
      [|apply nth_error_None in E1; lia].
    destruct (nth_error shell ni) eqn:E2;
      [|apply nth_error_None in E2; lia].
    destruct (nth_error shifted i) eqn:E3;
      [|apply nth_error_None in E3; lia].
    destruct (nth_error shifted ni) eqn:E4;
      [|apply nth_error_None in E4; lia].
    intros Habs; discriminate Habs.
  - exists qs. split; [exact Hqs|].
    apply mapThrow_length in Hqs. rewrite Hqs, length_seq. reflexivity.
Qed.


(** The sun is up and the segment has a positive finite height: the two
    early returns of the projector are not taken. *)
Lemma guards_pass (a r : R) :
  0 < a -> 0 < r ->
  (JS.Num a <=? JS.Num 0)%js = false
  /\ (negb (JS.isFinite (JS.Num r)) || (JS.Num r <=? JS.Num 0)%js) = false.
Proof.
  intros Ha Hr. cbn. split.
  - apply JS.Rleb_false. exact Ha.
  - apply JS.Rleb_false. exact Hr.
Qed.

(** The quotient [h / tan(altitude)] of a positive height is a number or
    [+Infinity], never [NaN]. *)
Lemma rawLen_not_NaN (a r : R) :
  0 < r -> rawLen (JS.Num r) (JS.Num a) <> JS.NaN.
Proof.
  intros Hr. unfold rawLen. cbn.
  destruct (JS.Reqb (tan a) 0); [|discriminate].
  unfold JS.inf_signed.
  replace (JS.Reqb r 0) with false by (symmetry; apply JS.Reqb_false; lra).
  replace (JS.Rltb 0 r) with true by (symmetry; apply JS.Rltb_true; lra).
  discriminate.
Qed.

(** At an altitude of 45 degrees the quotient is the height itself. *)
Lemma rawLen_45 (r : R) :
  rawLen (JS.Num r) (JS.Num (PI / 4)) = JS.Num r.
Proof.
  unfold rawLen. cbn. rewrite tan_PI4.
  replace (JS.Reqb 1 0) with false by (symmetry; apply JS.Reqb_false; lra).
  f_equal. field.
Qed.

Lemma clampTo_Rmin (r : R) :
  0 < r -> clampTo (JS.Num 0) (JS.Num 500) (JS.Num r) = JS.Num (Rmin r 500).
Proof.
  intros Hr. cbn.
  replace (JS.Rltb r 0) with false by (symmetry; apply JS.Rltb_false; lra).
  unfold JS.Rltb, Rmin.
  destruct (Rlt_dec 500 r), (Rle_dec r 500); try reflexivity; lra.
Qed.

(** The bearing of the shadow is a number of degrees in [0, 360) that
    differs from the azimuth SunCalc reports (radians from south, turned
    into degrees) by whole turns. *)
Lemma shadowBearing_range (t : R) :
  0 <= t * 180 / PI + 180 + 360 ->
  exists (b : R) (k : Z),
    shadowBearing (JS.Num t) = JS.Num b
    /\ 0 <= b < 360
    /\ b = t * 180 / PI + 360 * IZR k.
Proof.
  intros Ht. pose proof PI_RGT_0 as Hpi.
  unfold shadowBearing, sunBearingFromNorth.
  assert (E : (JS.Num t * JS.Num 180 / JS.PI + JS.Num 180 + JS.Num 360)%js
              = JS.Num (t * 180 / PI + 180 + 360)).
  { cbn.
    replace (JS.Reqb PI 0) with false by (symmetry; apply JS.Reqb_false; lra).
    reflexivity. }
  rewrite E.
  destruct (rem_nonneg (t * 180 / PI + 180 + 360) 360 Ht) as [k1 [E1 B1]];
    [lra|].
  rewrite E1.
  remember (t * 180 / PI + 180 + 360 - 360 * IZR k1) as c eqn:Hc.
  change (JS.Num c + JS.Num 180)%js with (JS.Num (c + 180)).
  destruct (rem_nonneg (c + 180) 360) as [k2 [E2 B2]]; [lra|lra|].
  rewrite E2.
  exists (c + 180 - 360 * IZR k2), (2 - k1 - k2)%Z.
  split; [reflexivity|]. split; [exact B2|].
  rewrite Hc, !minus_IZR. lra.
Qed.

(** C1 (as amended).  When the sun is above the horizon and the height h
    of the segment is positive and finite, the ring is moved by
    [turf.destination] over the distance h / tan(altitude) clamped to
    [0, 500] meters, along the azimuth of the sun taken as a compass
    bearing from north and turned by 180 degrees modulo 360 (a number of
    degrees in [0, 360) for every azimuth SunCalc can report).  At an
    altitude of 45 degrees the quotient is h, so the distance is h when
    h <= 500 and 500 otherwise. *)
Theorem shadow_length_and_bearing
        (segment : FieldSegment.t) (shell : list Coord.t) (timeStr : string)
        (sunAz : JS.num) (a r : R) :
  sunAt segment timeStr = (sunAz, JS.Num a) -> 0 < a ->
  segHeightM segment = JS.Num r -> 0 < r ->
  let len :=
    clampTo (JS.Num 0) (JS.Num 500) (JS.Num r / JS.tan (JS.Num a))%js in
  let bearing := rotate180 (compassBearing sunAz) in
  let basePoly :=
    groundPolygon (map (fun c => Coord.xy (Coord.x c) (Coord.y c)) shell)
                  baseShadowSymbol in
  (exists c, len = JS.Num c /\ 0 <= c <= 500)
  /\ (a = PI / 4 ->
      (JS.Num r / JS.tan (JS.Num a))%js = JS.Num r
      /\ len = JS.Num (Rmin r 500))
  /\ (forall t,
        sunAz = JS.Num t -> 0 <= t * 180 / PI + 180 + 360 ->
        exists (b : R) (k : Z),
          bearing = JS.Num b /\ 0 <= b < 360
          /\ b = (t * 180 / PI + 180) + 180 + 360 * IZR k)
  /\ match shiftedRing shell len bearing with
     | None => drawAtTime segment shell timeStr = mkRun [basePoly] false
     | Some shifted =>
         exists quads,
           drawAtTime segment shell timeStr =
           mkRun (basePoly
                  :: groundPolygon (map toCoord shifted) roofShadowSymbol
                  :: quads) true
           /\ length quads = length shell
     end.
Proof.
  intros Hsun Ha Hh Hr len bearing basePoly.
  split; [|split; [|split]].
  - apply clampTo_range. apply (rawLen_not_NaN a r Hr).
  - intros ->. unfold len.
    change (JS.Num r / JS.tan (JS.Num (PI / 4)))%js
      with (rawLen (JS.Num r) (JS.Num (PI / 4))).
    rewrite rawLen_45. split; [reflexivity|]. apply clampTo_Rmin, Hr.
  - intros t -> Ht.
    destruct (shadowBearing_range t Ht) as [b [k [Hb [Hrange Hk]]]].
    exists b, (k - 1)%Z. split; [exact Hb|]. split; [exact Hrange|].
    rewrite Hk, minus_IZR. lra.
  - destruct (guards_pass a r Ha Hr) as [G1 G2].
    unfold drawAtTime. rewrite Hsun, G1, Hh, G2.
    unfold segShadowLen. rewrite clamp_max_min.
    change (clampTo (JS.Num 0) (JS.Num 500) (rawLen (JS.Num r) (JS.Num a)))
      with len.
    change (shadowBearing sunAz) with bearing.
    destruct (shiftedRing shell len bearing) as [shifted|] eqn:Hs;
      [|reflexivity].
    destruct (quadRings_total shell shifted) as [qs [Hqs Hlen]].
    { apply mapThrow_length in Hs. exact Hs. }
    rewrite Hqs. eexists. split; [reflexivity|].
    rewrite length_map. exact Hlen.
Qed.

(** The same distance and bearing move the ring in the polygons built
    for the aggregate. *)
Lemma build_length_and_bearing
      (segment : FieldSegment.t) (shell : list Coord.t) (timeStr : string)
      (sunAz : JS.num) (a r : R) (polys : list Feature) :
  sunAt segment timeStr = (sunAz, JS.Num a) -> 0 < a ->
  segHeightM segment = JS.Num r -> 0 < r ->
  buildTurfPolysAtTime segment shell timeStr = Some polys ->
  exists baseRing shifted roofRing quads,
    closeRing (map toPosition shell) = Some baseRing
    /\ shiftedRing shell
         (clampTo (JS.Num 0) (JS.Num 500) (JS.Num r / JS.tan (JS.Num a))%js)
         (rotate180 (compassBearing sunAz)) = Some shifted
    /\ closeRing shifted = Some roofRing
    /\ polys = TPolygon [baseRing] :: TPolygon [roofRing] :: quads
    /\ length quads = length shell.
Proof.
  intros Hsun Ha Hh Hr.
  destruct (guards_pass a r Ha Hr) as [G1 G2].
  unfold buildTurfPolysAtTime. rewrite Hsun, G1, Hh, G2.
  unfold segShadowLen. rewrite clamp_max_min.
  change (shadowBearing sunAz) with (rotate180 (compassBearing sunAz)).
  unfold rawLen.
  destruct (closeRing (map toPosition shell)) as [baseRing|] eqn:Hb;
    [|discriminate].
  unfold turf_polygon at 1.
  destruct (forallb validRing [baseRing]); [|discriminate].
  destruct (shiftedRing shell _ _) as [shifted|] eqn:Hs; [|discriminate].
  destruct (closeRing shifted) as [roofRing|] eqn:Hroof; [|discriminate].
  unfold turf_polygon at 1.
  destruct (forallb validRing [roofRing]); [|discriminate].
  destruct (mapThrow _ (seq 0 (length shell))) as [quads|] eqn:Hq;
    [|discriminate].
  intros [= <-]. exists baseRing, shifted, roofRing, quads.
  split; [reflexivity|]. split; [reflexivity|]. split; [exact Hroof|].
  split; [reflexivity|].
  apply mapThrow_length in Hq. rewrite Hq, length_seq. reflexivity.
Qed.

(** *** No shadow: the sun is down, or the segment has no height *)

(** An altitude that is at most zero, or [NaN], still is at most zero
    after [pos.altitude || 0]. *)
Lemma altitude_or_zero (alt : JS.num) :
  (alt <=? JS.Num 0)%js = true \/ alt = JS.NaN ->
  (JS.or_else alt (JS.Num 0) <=? JS.Num 0)%js = true.
Proof.
  intros [H | ->].
  - unfold JS.or_else. destruct (JS.truthy alt); [exact H|].
    cbn. apply JS.Rleb_true. lra.
  - cbn. apply JS.Rleb_true. lra.
Qed.

Lemma sun_down_at (segment : FieldSegment.t) (timeStr : string) :
  getPosition (dateAt segment timeStr) lat lng = SunThrows
  \/ (exists az alt,
        getPosition (dateAt segment timeStr) lat lng = SunPos az alt
        /\ ((alt <=? JS.Num 0)%js = true \/ alt = JS.NaN)) ->
  (snd (sunAt segment timeStr) <=? JS.Num 0)%js = true.
Proof.
  unfold sunAt. intros [-> | [az [alt [-> H]]]].
  - cbn. apply JS.Rleb_true. lra.
  - cbn [snd]. apply altitude_or_zero, H.
Qed.

(** C6.  When the lookup of the sun position throws (azimuth and
    altitude then read as 0) or gives an altitude that is at most 0, the
    segment gets no shadow polygon for that time: nothing is drawn, the
    polygon set built for the aggregate is empty so the aggregate is left
    as it was, and nothing throws. *)
Theorem no_shadow_when_sun_is_down
        (segment : FieldSegment.t) (shell : list Coord.t) (timeStr : string) :
  getPosition (dateAt segment timeStr) lat lng = SunThrows
  \/ (exists az alt,
        getPosition (dateAt segment timeStr) lat lng = SunPos az alt
        /\ ((alt <=? JS.Num 0)%js = true \/ alt = JS.NaN)) ->
  (getPosition (dateAt segment timeStr) lat lng = SunThrows ->
   sunAt segment timeStr = (JS.Num 0, JS.Num 0))
  /\ drawAtTime segment shell timeStr = mkRun [] true
  /\ buildTurfPolysAtTime segment shell timeStr = Some []
  /\ (forall m rest agg,
        timeStr = Clock.timeString m ->
        aggregate segment shell (m :: rest) agg =
        aggregate segment shell rest agg).
Proof.
  intros H. apply sun_down_at in H.
  assert (Hb : buildTurfPolysAtTime segment shell timeStr = Some []).
  { unfold buildTurfPolysAtTime.
    destruct (sunAt segment timeStr) as [az alt]. cbn [snd] in H.
    rewrite H. reflexivity. }
  split; [|split; [|split]].
  - intros E. unfold sunAt. rewrite E. reflexivity.
  - unfold drawAtTime.
    destruct (sunAt segment timeStr) as [az alt]. cbn [snd] in H.
    rewrite H. reflexivity.
  - exact Hb.
  - intros m rest agg ->. cbn [aggregate]. rewrite Hb. reflexivity.
Qed.

Lemma aggregate_nothing (segment : FieldSegment.t) (shell : list Coord.t)
      (ms : list Z) (agg : option Feature) :
  (forall m, In m ms ->
     buildTurfPolysAtTime segment shell (Clock.timeString m) = Some []) ->
  aggregate segment shell ms agg = Some agg.
Proof.
  induction ms as [|m rest IH]; intros H; cbn [aggregate].
  - reflexivity.
  - rewrite (H m (or_introl eq_refl)). cbn [fold_left].
    apply IH. intros k Hk. apply H. right. exact Hk.
Qed.

Lemma forEachRun_nothing {A : Type} (f : A -> Run) (xs : list A) :
  (forall a, In a xs -> f a = mkRun [] true) ->
  forEachRun f xs = mkRun [] true.
Proof.
  induction xs as [|a rest IH]; intros H; cbn [forEachRun].
  - reflexivity.
  - rewrite (H a (or_introl eq_refl)). cbn.
    rewrite IH by (intros; apply H; right; assumption). reflexivity.
Qed.

(** C10.  A segment whose height (surface, racking and parapet together,
    in meters) is not finite or is at most 0 gets no shadow polygon at any
    time, wherever the sun is: nothing is drawn for any sample, nothing
    is built for the aggregate, and the whole pass over the segment adds
    nothing to the layer. *)
Theorem no_shadow_without_height (segment : FieldSegment.t) :
  JS.isFinite (segHeightM segment) = false
  \/ (segHeightM segment <=? JS.Num 0)%js = true ->
  (forall shell timeStr,
     drawAtTime segment shell timeStr = mkRun [] true
     /\ buildTurfPolysAtTime segment shell timeStr = Some [])
  /\ segmentShadows segment = mkRun [] true.
Proof.
  intros H.
  assert (G : negb (JS.isFinite (segHeightM segment))
              || (segHeightM segment <=? JS.Num 0)%js = true).
  { destruct H as [-> | ->]; [reflexivity|apply orb_true_r]. }
  assert (Hall : forall shell timeStr,
             drawAtTime segment shell timeStr = mkRun [] true
             /\ buildTurfPolysAtTime segment shell timeStr = Some []).
  { intros shell timeStr. unfold drawAtTime, buildTurfPolysAtTime.
    destruct (sunAt segment timeStr) as [az alt].
    destruct (alt <=? JS.Num 0)%js; [split; reflexivity|].
    rewrite G. split; reflexivity. }
  split; [exact Hall|].
  unfold segmentShadows.
  destruct (FieldSegment.geometry segment) as [shell|]; [|reflexivity].
  rewrite aggregate_nothing by (intros; apply Hall).
  rewrite forEachRun_nothing by (intros; apply Hall).
  reflexivity.
Qed.

(** *** The aggregate over the window *)

(** The loop stops by its own test: any fuel from
    [minutesEnd - m + 1] on gives the minutes from [m] to [minutesEnd]. *)
Lemma minutesLoop_enough (fuel : nat) (m minutesEnd : Z) :
  (Z.to_nat (minutesEnd - m + 1) <= fuel)%nat ->
  minutesLoop fuel m minutesEnd =
  map (fun k => (m + Z.of_nat k)%Z) (seq 0 (Z.to_nat (minutesEnd - m + 1))).
Proof.
  revert m. induction fuel as [|fuel IH]; intros m Hfuel.
  - replace (Z.to_nat (minutesEnd - m + 1)) with 0%nat by lia. reflexivity.
  - cbn [minutesLoop]. destruct (Z.leb_spec m minutesEnd) as [Hle|Hgt].
    + replace (Z.to_nat (minutesEnd - m + 1))
        with (S (Z.to_nat (minutesEnd - (m + STEP) + 1)))
        by (unfold STEP; lia).
      cbn [seq map]. f_equal; [lia|].
      rewrite IH by (unfold STEP in *; lia).
      rewrite <- seq_shift, map_map. apply map_ext. intros k.
      unfold STEP. lia.
    + replace (Z.to_nat (minutesEnd - m + 1)) with 0%nat by lia.
      reflexivity.
Qed.


Lemma str_or_nonempty (s : option string) (d : string) :
  d <> EmptyString -> JS.str_or s d <> EmptyString.
Proof. intros Hd. destruct s as [[|c r]|]; cbn; congruence. Qed.

Lemma getStartTime_nonempty (segment : FieldSegment.t) :
  getStartTime segment <> EmptyString.
Proof.
  unfold getStartTime. apply str_or_nonempty, str_or_nonempty. discriminate.
Qed.

Lemma getEndTime_nonempty (segment : FieldSegment.t) :
  getEndTime segment <> EmptyString.
Proof. unfold getEndTime. apply str_or_nonempty. discriminate. Qed.

(** The window runs from the earlier to the later of the two times. *)
Lemma window_min_max (segment : FieldSegment.t) :
  window segment =
  (Z.min (Clock.parseHHmmToMinutes (getStartTime segment))
         (Clock.parseHHmmToMinutes (getEndTime segment)),
   Z.max (Clock.parseHHmmToMinutes (getStartTime segment))
         (Clock.parseHHmmToMinutes (getEndTime segment))).
Proof.
  unfold window.
  pose proof (getStartTime_nonempty segment) as Hs.
  pose proof (getEndTime_nonempty segment) as He.
  destruct (getStartTime segment) as [|c1 r1]; [contradiction|].
  destruct (getEndTime segment) as [|c2 r2]; [contradiction|].
  cbn [JS.str_or].
  destruct (Z.ltb_spec (Clock.parseHHmmToMinutes (String c2 r2))
                       (Clock.parseHHmmToMinutes (String c1 r1)));
    f_equal; lia.
Qed.







End Projector.
End Shadows.

(* ===================================================================== *)
(** ** Drawing: the magnetic snap onto the first vertex *)
(* ===================================================================== *)

Module Draw.

Inductive EditorTool : Type := tool_none | tool_draw | tool_edit | tool_delete.

Definition SNAP_DISTANCE_PX : JS.num := JS.Num 15.

Inductive ToolSymbol : Type := defaultSymbol | closingSymbol.
Inductive GhostSymbol : Type := defaultGhostSymbol | snapGhostSymbol.

(** The ghost marker under the cursor. *)
Record Ghost : Type := mkGhost {
  ghostAt : Coord.t;
  ghostSymbol : GhostSymbol;
  ghostShown : bool
}.

(** The refs of the editor that the handlers of the draw tool share. *)
Record Editor : Type := mkEditor {
  ghostMarker : option Ghost;
  tempLabel : bool;
  startMarker : option Coord.t;
  closingSnapActive : bool;
  closeHintLabel : option Coord.t;
  autoClosing : bool;
  toolSymbol : ToolSymbol
}.

(** One [mousemove] of the map: the active tool, whether the map and the
    draw tool exist, the coordinate under the cursor ([None] when the
    event has none), the coordinates of the geometry being drawn ([None]
    when the draw tool has no current geometry), the resolution of the
    map in meters per pixel, and the center maptalks gives for the line
    from the last clicked vertex to the cursor ([None] when it gives
    none). *)
Record MouseMove : Type := mkMove {
  activeTool : EditorTool;
  mapReady : bool;
  coordinate : option Coord.t;
  currentGeom : option (list Coord.t);
  resolution : JS.num;
  segmentCenter : option Coord.t
}.

(** What a handler asks of the draw tool. *)
Inductive Action : Type :=
| SetCoordinates (updated : list Coord.t)
| EndDraw.

Definition isDraw (t : EditorTool) : bool :=
  match t with tool_draw => true | _ => false end.

(** [updated[updated.length - 1] = c] on a copy of a non-empty array. *)
Definition setLast (coords : list Coord.t) (c : Coord.t) : list Coord.t :=
  removelast coords ++ [c].

(** The synchronous part of the [drawend] listener, which the draw tool
    runs from within [endDraw]: the temporary label, the ghost, the hint
    and the closing symbol go away.  (The start marker leaves the layer,
    but the ref keeps it.) *)
Definition onDrawEnd (st : Editor) : Editor :=
  mkEditor
    (option_map (fun g => mkGhost (ghostAt g) (ghostSymbol g) false)
                (ghostMarker st))
    false
    (startMarker st)
    (closingSnapActive st)
    None
    (autoClosing st)
    defaultSymbol.

(** The [drawstart] listener: the start marker is put on the first
    vertex. *)
Definition onDrawStart (st : Editor) (first : Coord.t) : Editor :=
  mkEditor (ghostMarker st) (tempLabel st) (Some first)
           (closingSnapActive st) (closeHintLabel st) (autoClosing st)
           (toolSymbol st).

(** Setting the last coordinate keeps the length and every coordinate
    but the last. *)
Lemma removelast_app_one {A : Type} (l : list A) (a : A) :
  removelast (l ++ [a]) = l.
Proof. rewrite removelast_app by discriminate. cbn. apply app_nil_r. Qed.

Lemma setLast_spec (coords : list Coord.t) (c d : Coord.t) :
  coords <> [] ->
  length (setLast coords c) = length coords
  /\ removelast (setLast coords c) = removelast coords
  /\ last (setLast coords c) d = c.
Proof.
  intros Hne. unfold setLast. split; [|split].
  - rewrite length_app. cbn [length].
    rewrite (app_removelast_last d Hne) at 2.
    rewrite length_app. reflexivity.
  - apply removelast_app_one.
  - apply last_last.
Qed.

Section Handlers.

(** [turf.distance(p, q, { units: 'meters' })]; [None] when it throws. *)
Variable distance : Position -> Position -> option JS.num.

(** [isClosingSnap]: at least three coordinates, and the cursor strictly
    within the snap distance of the first one.  [None] when measuring the
    distance throws. *)
Definition closingSnap (mouseCoord : Coord.t) (coords : list Coord.t)
           (res : JS.num) : option bool :=
  let snapDistanceMeters := (SNAP_DISTANCE_PX * res)%js in
  match coords with
  | first :: _ =>
      if (2 <? length coords)%nat then
        match distance (Coord.x mouseCoord, Coord.y mouseCoord)
                       (Coord.x first, Coord.y first) with
        | None => None
        | Some distToStart => Some (distToStart <? snapDistanceMeters)%js
        end
      else Some false
  | [] => Some false
  end.

(** [handleMouseMove].  The result is the new state of the refs and the
    calls made on the draw tool. *)
Definition handleMouseMove (st : Editor) (e : MouseMove)
  : Editor * list Action :=
  if negb (isDraw (activeTool e)) || negb (mapReady e) then (st, [])
  else
  match coordinate e with
  | None => (st, [])
  | Some mouseCoord =>
  if JS.isNaN (Coord.x mouseCoord) || JS.isNaN (Coord.y mouseCoord)
  then (st, [])
  else
    (* the ghost follows the cursor; the temporary label goes *)
    let ghost :=
      match ghostMarker st with
      | None => mkGhost mouseCoord defaultGhostSymbol true
      | Some g => mkGhost mouseCoord (ghostSymbol g) true
      end in
    let st1 :=
      mkEditor (Some ghost) false (startMarker st) (closingSnapActive st)
               (closeHintLabel st) (autoClosing st) (toolSymbol st) in
    match currentGeom e with
    | None => (st1, [])
    | Some [] => (st1, [])
    | Some ((first :: _) as coords) =>
    match closingSnap mouseCoord coords (resolution e) with
    | None => (st1, [])
    | Some isClosingSnap =>
      let symbol := if isClosingSnap then closingSymbol else defaultSymbol in
      let ghost1 :=
        mkGhost (ghostAt ghost)
                (if isClosingSnap then snapGhostSymbol
                 else defaultGhostSymbol)
                true in
      (* magnetic snap and auto-close *)
      let '(st2, actions) :=
        if isClosingSnap && (2 <? length coords)%nat then
          let startCoord :=
            match startMarker st with
            | Some c => c
            | None => Coord.xy (Coord.x first) (Coord.y first)
            end in
          let ghost2 := mkGhost startCoord (ghostSymbol ghost1) true in
          let snap :=
            SetCoordinates
              (setLast coords
                       (Coord.xy (Coord.x startCoord) (Coord.y startCoord))) in
          let st' :=
            mkEditor (Some ghost2) false (startMarker st) isClosingSnap
                     (closeHintLabel st) true symbol in
          if negb (autoClosing st)
          then (onDrawEnd st', [snap; EndDraw])
          else (st', [snap])
        else
          (mkEditor (Some ghost1) false (startMarker st) isClosingSnap
                    (closeHintLabel st)
                    (if negb isClosingSnap then false else autoClosing st)
                    symbol,
           []) in
      (* the "Click to close" hint *)
      let hint :=
        match isClosingSnap, startMarker st2 with
        | true, Some startCoord =>
            match closeHintLabel st2 with
            | None => Some startCoord
            | Some h => Some h
            end
        | _, _ => None
        end in
      (* the distance label of the segment under the cursor *)
      let label :=
        (2 <=? length coords)%nat
        && match segmentCenter e with
           | Some center =>
               negb (JS.isNaN (Coord.x center) || JS.isNaN (Coord.y center))
           | None => false
           end in
      (mkEditor (ghostMarker st2) label (startMarker st2)
                (closingSnapActive st2) hint (autoClosing st2)
                (toolSymbol st2),
       actions)
    end
    end
  end.



(** *** What the specification says *)

(** The cursor of the event is inside the snap radius of the first vertex
    of a ring of at least three vertices being drawn (and the handler is
    live: the draw tool is active and the cursor has a position). *)
Definition insideSnap (e : MouseMove) : Prop :=
  activeTool e = tool_draw /\ mapReady e = true
  /\ exists mouseCoord first rest d,
       coordinate e = Some mouseCoord
       /\ JS.isNaN (Coord.x mouseCoord) = false
       /\ JS.isNaN (Coord.y mouseCoord) = false
       /\ currentGeom e = Some (first :: rest)
       /\ (3 <= length (first :: rest))%nat
       /\ distance (Coord.x mouseCoord, Coord.y mouseCoord)
                   (Coord.x first, Coord.y first) = Some d
       /\ (d <? SNAP_DISTANCE_PX * resolution e)%js = true.



(** *** The latch of the auto-close *)

Lemma closingSnap_inside (e : MouseMove) :
  insideSnap e ->
  exists mouseCoord first rest,
    coordinate e = Some mouseCoord
    /\ JS.isNaN (Coord.x mouseCoord) || JS.isNaN (Coord.y mouseCoord) = false
    /\ currentGeom e = Some (first :: rest)
    /\ (2 <? length (first :: rest))%nat = true
    /\ closingSnap mouseCoord (first :: rest) (resolution e) = Some true.
Proof.
  intros [_ [_ [mouseCoord [first [rest [d H]]]]]].
  destruct H as [Hc [Hx [Hy [Hg [Hlen [Hd Hlt]]]]]].
  exists mouseCoord, first, rest.
  assert (L : (2 <? length (first :: rest))%nat = true)
    by (apply Nat.ltb_lt; lia).
  repeat split; try assumption.
  - rewrite Hx, Hy. reflexivity.
  - unfold closingSnap. rewrite L, Hd, Hlt. reflexivity.
Qed.

(** One move inside the snap radius: the last coordinate of the geometry
    is set onto the start (the start marker, or else the first vertex),
    the latch is set, and [endDraw] is called unless the latch was set
    already. *)
Lemma move_inside (st : Editor) (e : MouseMove) :
  insideSnap e ->
  exists first rest,
    currentGeom e = Some (first :: rest)
    /\ let startCoord :=
         match startMarker st with
         | Some c => c
         | None => Coord.xy (Coord.x first) (Coord.y first)
         end in
       snd (handleMouseMove st e) =
         SetCoordinates
           (setLast (first :: rest)
                    (Coord.xy (Coord.x startCoord) (Coord.y startCoord)))
         :: (if autoClosing st then [] else [EndDraw])
    /\ autoClosing (fst (handleMouseMove st e)) = true
    /\ closingSnapActive (fst (handleMouseMove st e)) = true.
Proof.
  intros H. pose proof H as [Ht [Hr _]].
  destruct (closingSnap_inside e H)
    as [mouseCoord [first [rest [Hc [Hnan [Hg [Hlen Hsnap]]]]]]].
  exists first, rest. split; [exact Hg|].
  unfold handleMouseMove.
  rewrite Ht, Hr, Hc, Hnan, Hg, Hsnap, Hlen. cbn [isDraw negb orb andb].
  destruct (autoClosing st); cbn; repeat split; reflexivity.
Qed.




End Handlers.
End Draw.

(* ===================================================================== *)
(** ** The module layout packer (the "setback overlay and auto-layout"
       effect) *)
(* ===================================================================== *)

(** What [turf.buffer] does: it throws, returns [undefined], or a
    feature. *)
Inductive BufferResult : Type :=
| BThrows
| BUndefined
| BFeature (f : Feature).

(** An entry of the module dimension cache, in meters. *)
Record Dims : Type := mkDims { width : JS.num; height : JS.num }.

Module Packer.

(** [meters]: feet to meters; what is not finite counts as 0. *)
Definition meters (ft : JS.num) : JS.num :=
  if JS.isFinite ft then (ft * FT)%js else JS.Num 0.

(** [Number(v)] of a numeric property: [undefined] gives [NaN]. *)
Definition Number_ (v : option JS.num) : JS.num := JS.nullish v JS.NaN.

(** [(b + 180) % 360] *)
Definition opposite (b : JS.num) : JS.num :=
  ((b + JS.Num 180) %% JS.Num 360)%js.

(** [toTurfPolygon]: the shell as a closed turf ring; [None] when
    [turf.polygon] throws. *)
Definition toTurfPolygon (shell : list Coord.t) : option Feature :=
  let ring := map Shadows.toPosition shell in
  let closed :=
    match ring with
    | [] => ring
    | p :: _ =>
        let q := last ring p in
        if JS.sne (fst p) (fst q) || JS.sne (snd p) (snd q)
        then ring ++ [p] else ring
    end in
  Shadows.turf_polygon [closed].

(** The loop [for (let x = start; cond(x); x = next(x))]: the values [x]
    takes, followed for at most [fuel] turns. *)
Fixpoint loopValues (fuel : nat) (x : JS.num) (cond : JS.num -> bool)
         (next : JS.num -> JS.num) : list JS.num :=
  match fuel with
  | O => []
  | S k => if cond x then x :: loopValues k (next x) cond next else []
  end.

(** The oriented extents of the buildable region, as the loop over its
    boundary accumulates them. *)
Record Extents : Type := mkExtents {
  minProjX : JS.num; maxProjX : JS.num;
  minProjY : JS.num; maxProjY : JS.num
}.

Notation "'try?' x ':=' e 'in' k" :=
  (match e with Some x => k | None => None end)
  (at level 10, x name, e at level 100, k at level 200,
   only parsing).

Section Layout.

(** The libraries ([None] is a throw), the dimension cache, and the number
    of turns each loop is followed for. *)
Variable destination : Position -> JS.num -> JS.num -> option Position.
Variable buffer : Feature -> JS.num -> BufferResult.
Variable area : Feature -> JS.num.
Variable centroid : Feature -> option Position.
Variable distance : Position -> Position -> option JS.num.
Variable bearing : Position -> Position -> option JS.num.
Variable booleanWithin : Feature -> Feature -> option bool.
Variable moduleDims : string -> option Dims.
Variable fuel : nat.

(** [sb = meters(segment.setback || 0)] *)
Definition setbackMeters (segment : FieldSegment.t) : JS.num :=
  meters (match FieldSegment.setback segment with
          | Some v => JS.or_else v (JS.Num 0)
          | None => JS.Num 0
          end).

(** The loop over the pieces of a multi-polygon: the piece of the
    largest area seen so far.  The outer [None] is a throw of
    [turf.polygon]. *)
Fixpoint largestPiece (parts : list (list (list Position)))
         (maxA : JS.num) (best : option Feature) : option (option Feature) :=
  match parts with
  | [] => Some best
  | coords :: rest =>
      match Shadows.turf_polygon coords with
      | None => None
      | Some p =>
          let a := area p in
          if (a >? maxA)%js then largestPiece rest a (Some p)
          else largestPiece rest maxA best
      end
  end.

(** [inset]: the buildable region of the segment. *)
Definition inset (segment : FieldSegment.t) (turfPoly : Feature) : Feature :=
  let sb := setbackMeters segment in
  if negb (JS.isFinite sb) || (sb <=? JS.Num 0)%js then turfPoly
  else
    match buffer turfPoly (JS.neg sb) with
    | BThrows => turfPoly
    | BUndefined => turfPoly
    | BFeature (TMultiPolygon parts) =>
        match largestPiece parts JS.NInf None with
        | Some (Some best) => best
        | Some None => turfPoly
        | None => turfPoly
        end
    | BFeature buff => buff
    end.

(** The setback overlay drawn from the buildable region; nothing when
    drawing it throws. *)
Definition setbackOverlay (segment : FieldSegment.t) (region : Feature)
  : list Polygon :=
  match region with
  | TPolygon (ring :: _) =>
      [mkPolygon [map Shadows.toCoord ring] setbackSymbol
         (Some (meters (nullish2 (FieldSegment.surfaceHeight segment)
                                 (FieldSegment.surface_height segment))))]
  | _ => []
  end.

(** [buildRotatedRect] *)
Definition buildRotatedRect (center : Position) (halfW halfH : JS.num)
           (bearingX bearingY : JS.num) : option Feature :=
  try? minusX := destination center halfW (opposite bearingX) in
  try? plusX := destination center halfW bearingX in
  try? tl := destination minusX halfH bearingY in
  try? bl := destination minusX halfH (opposite bearingY) in
  try? tr := destination plusX halfH bearingY in
  try? br := destination plusX halfH (opposite bearingY) in
  Shadows.turf_polygon [[tl; tr; br; bl; tl]].

(** The module sizes and gaps of the segment, in meters. *)
Definition isPortrait (segment : FieldSegment.t) : bool :=
  String.eqb (JS.str_or (FieldSegment.defaultOrientation segment)
                        "Landscape") "Portrait".
Definition moduleW (segment : FieldSegment.t) (dims : Dims) : JS.num :=
  JS.max (JS.Num 0) (if isPortrait segment then height dims else width dims).
Definition moduleH (segment : FieldSegment.t) (dims : Dims) : JS.num :=
  JS.max (JS.Num 0) (if isPortrait segment then width dims else height dims).
Definition moduleSpacing (segment : FieldSegment.t) : JS.num :=
  let msFtRaw := Number_ (FieldSegment.moduleSpacing segment) in
  let msFt :=
    if JS.isFinite msFtRaw && (msFtRaw >? JS.Num 0)%js then msFtRaw
    else JS.Num 0.02 in
  JS.max (JS.Num 0) (meters msFt).
Definition frameSpacing (segment : FieldSegment.t) : JS.num :=
  JS.max (JS.Num 0)
    (meters (JS.or_else
               (JS.nullish (FieldSegment.frameSpacing segment) (JS.Num 0))
               (JS.Num 0))).
Definition rowSpacing (segment : FieldSegment.t) : JS.num :=
  JS.max (JS.Num 0)
    (meters (JS.or_else
               (JS.nullish (FieldSegment.rowSpacing segment) (JS.Num 0))
               (JS.Num 0))).
Definition sizeWide (segment : FieldSegment.t) : JS.num :=
  JS.max (JS.Num 1)
    (JS.floor (JS.nullish (FieldSegment.frameSizeWide segment) (JS.Num 1))).
Definition sizeUp (segment : FieldSegment.t) : JS.num :=
  JS.max (JS.Num 1)
    (JS.floor (JS.nullish (FieldSegment.frameSizeUp segment) (JS.Num 1))).
Definition moduleAz (segment : FieldSegment.t) : JS.num :=
  JS.max (JS.Num 0)
    (((JS.nullish (FieldSegment.moduleAzimuth segment) (JS.Num 0)
       %% JS.Num 360) + JS.Num 360) %% JS.Num 360)%js.

(** The local axes. *)
Definition bearingY (segment : FieldSegment.t) : JS.num := moduleAz segment.
Definition bearingX (segment : FieldSegment.t) : JS.num :=
  ((moduleAz segment + JS.Num 90) %% JS.Num 360)%js.

(** The frame and the steps between frames. *)
Definition frameW (segment : FieldSegment.t) (dims : Dims) : JS.num :=
  (sizeWide segment * moduleW segment dims
   + (sizeWide segment - JS.Num 1) * moduleSpacing segment)%js.
Definition frameH (segment : FieldSegment.t) (dims : Dims) : JS.num :=
  (sizeUp segment * moduleH segment dims
   + (sizeUp segment - JS.Num 1) * moduleSpacing segment)%js.
Definition stepX (segment : FieldSegment.t) (dims : Dims) : JS.num :=
  (frameW segment dims + frameSpacing segment)%js.
Definition stepY (segment : FieldSegment.t) (dims : Dims) : JS.num :=
  (frameH segment dims + rowSpacing segment)%js.

(** One turn of the loop over the boundary of the region. *)
Definition project (segment : FieldSegment.t) (origin : Position)
           (acc : option Extents) (p : Position) : option Extents :=
  try? ext := acc in
  try? d := distance origin p in
  try? br := bearing origin p in
  let toRad := (JS.PI / JS.Num 180)%js in
  let dx := (d * JS.cos ((br - bearingX segment) * toRad))%js in
  let dy := (d * JS.cos ((br - bearingY segment) * toRad))%js in
  Some (mkExtents
          (if (dx <? minProjX ext)%js then dx else minProjX ext)
          (if (dx >? maxProjX ext)%js then dx else maxProjX ext)
          (if (dy <? minProjY ext)%js then dy else minProjY ext)
          (if (dy >? maxProjY ext)%js then dy else maxProjY ext)).

Definition ringCoords (region : Feature) : list Position :=
  match region with
  | TPolygon (ring :: _) => ring
  | _ => []
  end.

Definition extents (segment : FieldSegment.t) (origin : Position)
           (region : Feature) : option Extents :=
  fold_left (project segment origin) (ringCoords region)
            (Some (mkExtents JS.PInf JS.NInf JS.PInf JS.NInf)).

(** [shift] *)
Definition shift (pt : Position) (dist brg : JS.num) : option Position :=
  destination pt (JS.abs dist)
              (if (dist >=? JS.Num 0)%js then brg else opposite brg).

(** [leftoverX] and [marginX]: where the first column starts. *)
Definition leftoverX (widthM frameW : JS.num) : JS.num :=
  JS.max (JS.Num 0) (widthM - frameW)%js.

Definition marginX (segment : FieldSegment.t) (leftover step : JS.num)
  : JS.num :=
  let align := JS.str_or (FieldSegment.alignment segment) "center" in
  if String.eqb align "center" then ((leftover %% step) / JS.Num 2)%js
  else if String.eqb align "right" then (leftover %% step)%js
  else if String.eqb align "justify" then ((leftover %% step) / JS.Num 2)%js
  else JS.Num 0.

(** A module drawn on the modules layer. *)
Definition modulePolygon (segment : FieldSegment.t) (rect : Feature)
  : Polygon :=
  mkPolygon [map Shadows.toCoord (ringCoords rect)] moduleSymbol
    (Some (meters (nullish2 (FieldSegment.surfaceHeight segment)
                            (FieldSegment.surface_height segment)))).

(** [try { if (turf.booleanWithin(rect, inset)) ... } catch {}] *)
Definition placeModule (segment : FieldSegment.t) (region rect : Feature)
  : list Polygon :=
  match booleanWithin rect region with
  | Some true => [modulePolygon segment rect]
  | _ => []
  end.

(** A step that throws adds nothing and ends the run. *)
Definition orThrow {A : Type} (o : option A) (k : A -> Run) : Run :=
  match o with
  | Some a => k a
  | None => mkRun [] false
  end.

(** The body of the two inner loops: the module in row [r], column [c] of
    the frame whose top left corner is [frameTopLeft]. *)
Definition moduleAt (segment : FieldSegment.t) (dims : Dims)
           (region : Feature) (frameTopLeft : Position) (r c : JS.num)
  : Run :=
  let mW := moduleW segment dims in
  let mH := moduleH segment dims in
  let ms := moduleSpacing segment in
  let xIn := (c * (mW + ms) + mW / JS.Num 2)%js in
  let yIn := (r * (mH + ms) + mH / JS.Num 2)%js in
  orThrow (destination frameTopLeft xIn (bearingX segment)) (fun alongX =>
  orThrow (destination alongX yIn (opposite (bearingY segment)))
          (fun center =>
  orThrow (buildRotatedRect center (mW / JS.Num 2)%js (mH / JS.Num 2)%js
                            (bearingX segment) (bearingY segment))
          (fun rect =>
  mkRun (placeModule segment region rect) true))).

(** The frame centered [xOff] along the row that starts at
    [frameRowBase]. *)
Definition frameAt (segment : FieldSegment.t) (dims : Dims)
           (region : Feature) (frameRowBase : Position) (xOff : JS.num)
  : Run :=
  orThrow (destination frameRowBase xOff (bearingX segment))
          (fun frameCenter =>
  orThrow (destination frameCenter (frameW segment dims / JS.Num 2)%js
                       (opposite (bearingX segment))) (fun left =>
  orThrow (destination left (frameH segment dims / JS.Num 2)%js
                       (bearingY segment)) (fun frameTopLeft =>
  forEachRun
    (fun r =>
       forEachRun (moduleAt segment dims region frameTopLeft r)
         (loopValues fuel (JS.Num 0)
                     (fun c => (c <? sizeWide segment)%js)
                     (fun c => (c + JS.Num 1)%js)))
    (loopValues fuel (JS.Num 0)
                (fun r => (r <? sizeUp segment)%js)
                (fun r => (r + JS.Num 1)%js))))).

(** [startEast = marginX + frameW / 2], with the margin taken from
    [leftoverX = Math.max(0, widthM - frameW)] and [stepX]. *)
Definition startEast (segment : FieldSegment.t) (dims : Dims)
           (widthM : JS.num) : JS.num :=
  (marginX segment (leftoverX widthM (frameW segment dims))
           (stepX segment dims)
   + frameW segment dims / JS.Num 2)%js.

(** The offsets the loop over [xOff] visits: the columns of frames. *)
Definition columnOffsets (segment : FieldSegment.t) (dims : Dims)
           (widthM : JS.num) : list JS.num :=
  loopValues fuel (startEast segment dims widthM)
    (fun xOff =>
       (xOff <=? widthM - frameW segment dims / JS.Num 2
                 + JS.Num (1 / 1000000))%js)
    (fun xOff => (xOff + stepX segment dims)%js).

(** The offsets the loop over [yOff] visits: the rows of frames, from
    [startNorth = frameH / 2]. *)
Definition rowOffsets (segment : FieldSegment.t) (dims : Dims)
           (heightM : JS.num) : list JS.num :=
  loopValues fuel (frameH segment dims / JS.Num 2)%js
    (fun yOff =>
       (yOff <=? heightM - frameH segment dims / JS.Num 2
                 + JS.Num (1 / 1000000))%js)
    (fun yOff => (yOff + stepY segment dims)%js).

(** The rows and columns of frames over the extents of the region. *)
Definition layout (segment : FieldSegment.t) (dims : Dims)
           (region : Feature) : Run :=
  orThrow (centroid region) (fun origin =>
  orThrow (extents segment origin region) (fun ext =>
  let widthM := JS.max (JS.Num 0) (maxProjX ext - minProjX ext)%js in
  let heightM := JS.max (JS.Num 0) (maxProjY ext - minProjY ext)%js in
  orThrow (shift origin (minProjY ext) (bearingY segment)) (fun south =>
  orThrow (shift south (minProjX ext) (bearingX segment)) (fun southWest =>
  forEachRun
    (fun yOff =>
       orThrow (destination southWest yOff (bearingY segment))
               (fun frameRowBase =>
       forEachRun (frameAt segment dims region frameRowBase)
                  (columnOffsets segment dims widthM)))
    (rowOffsets segment dims heightM))))).

(** The callback of [fieldSegments.forEach] in the layout effect: the
    modules it adds to the modules layer. *)
Definition segmentModules (segment : FieldSegment.t) : Run :=
  match FieldSegment.geometry segment with
  | None => mkRun [] true
  | Some shell =>
      orThrow (toTurfPolygon shell) (fun turfPoly =>
      let region := inset segment turfPoly in
      match FieldSegment.module segment with
      | None | Some EmptyString => mkRun [] true
      | Some moduleId =>
          match moduleDims moduleId with
          | None => mkRun [] true
          | Some dims => layout segment dims region
          end
      end)
  end.

(** The modules layer after the effect ran. *)
Definition modulesLayer (fieldSegments : list FieldSegment.t) : Run :=
  forEachRun segmentModules fieldSegments.


(** *** What the specification says *)

(** The segment with another alignment, everything else the same. *)
Definition withAlignment (a : option string) (s : FieldSegment.t)
  : FieldSegment.t :=
  FieldSegment.mk
    (FieldSegment.id s) (FieldSegment.geometry s)
    (FieldSegment.surfaceHeight s) (FieldSegment.surface_height s)
    (FieldSegment.rackingHeight s) (FieldSegment.racking_height s)
    (FieldSegment.parapetHeight s) (FieldSegment.parapet_height s)
    (FieldSegment.analysisDate s) (FieldSegment.startTime s)
    (FieldSegment.timeOfDay s) (FieldSegment.endTime s)
    (FieldSegment.module s) (FieldSegment.defaultOrientation s)
    (FieldSegment.moduleSpacing s) (FieldSegment.frameSpacing s)
    (FieldSegment.rowSpacing s) (FieldSegment.frameSizeWide s)
    (FieldSegment.frameSizeUp s) (FieldSegment.moduleAzimuth s)
    (FieldSegment.setback s) a.

(** The buildable region as the specification words it: the ring inset
    by [setback] meters. *)
Definition insetPerSpec (segment : FieldSegment.t) (turfPoly : Feature)
  : Feature :=
  let sb := match FieldSegment.setback segment with
            | Some v => JS.or_else v (JS.Num 0)
            | None => JS.Num 0
            end in
  if negb (JS.isFinite sb) || (sb <=? JS.Num 0)%js then turfPoly
  else
    match buffer turfPoly (JS.neg sb) with
    | BThrows => turfPoly
    | BUndefined => turfPoly
    | BFeature (TMultiPolygon parts) =>
        match largestPiece parts JS.NInf None with
        | Some (Some best) => best
        | Some None => turfPoly
        | None => turfPoly
        end
    | BFeature buff => buff
    end.

(** *** Properties of the packer *)

Lemma forEachRun_Forall {A : Type} (P : Polygon -> Prop) (f : A -> Run)
      (xs : list A) :
  (forall a, Forall P (added (f a))) ->
  Forall P (added (forEachRun f xs)).
Proof.
  intros H. induction xs as [|a rest IH]; cbn [forEachRun].
  - constructor.
  - destruct (returned (f a)); [|apply H].
    cbn [added]. apply Forall_app. split; [apply H|exact IH].
Qed.

Lemma orThrow_Forall {A : Type} (P : Polygon -> Prop) (o : option A)
      (k : A -> Run) :
  (forall a, Forall P (added (k a))) ->
  Forall P (added (orThrow o k)).
Proof. intros H. destruct o; cbn; [apply H|constructor]. Qed.

(** Every module on the layer is a whole rectangle that
    [turf.booleanWithin] found within the region. *)
Definition keptWhole (segment : FieldSegment.t) (region : Feature)
           (m : Polygon) : Prop :=
  exists rect,
    booleanWithin rect region = Some true
    /\ m = modulePolygon segment rect.

Lemma placeModule_within (segment : FieldSegment.t) (region rect : Feature) :
  Forall (keptWhole segment region) (placeModule segment region rect).
Proof.
  unfold placeModule. destruct (booleanWithin rect region) as [[|]|] eqn:E;
    constructor; [|constructor].
  exists rect. split; [exact E|reflexivity].
Qed.

Lemma layout_within (segment : FieldSegment.t) (dims : Dims)
      (region : Feature) :
  Forall (keptWhole segment region) (added (layout segment dims region)).
Proof.
  unfold layout.
  repeat (apply orThrow_Forall; intros ?).
  apply forEachRun_Forall. intros yOff.
  apply orThrow_Forall. intros frameRowBase.
  apply forEachRun_Forall. intros xOff. unfold frameAt.
  repeat (apply orThrow_Forall; intros ?).
  apply forEachRun_Forall. intros r.
  apply forEachRun_Forall. intros c. unfold moduleAt.
  repeat (apply orThrow_Forall; intros ?).
  cbn [added]. apply placeModule_within.
Qed.

(** A candidate whose corners can all be computed and that lies within
    the region is put on the layer, whole. *)
Lemma moduleAt_places (segment : FieldSegment.t) (dims : Dims)
      (region : Feature) (frameTopLeft alongX center : Position)
      (r c : JS.num) (rect : Feature) :
  destination frameTopLeft
    (c * (moduleW segment dims + moduleSpacing segment)
     + moduleW segment dims / JS.Num 2)%js (bearingX segment) = Some alongX ->
  destination alongX
    (r * (moduleH segment dims + moduleSpacing segment)
     + moduleH segment dims / JS.Num 2)%js (opposite (bearingY segment))
  = Some center ->
  buildRotatedRect center (moduleW segment dims / JS.Num 2)%js
                   (moduleH segment dims / JS.Num 2)%js
                   (bearingX segment) (bearingY segment) = Some rect ->
  booleanWithin rect region = Some true ->
  moduleAt segment dims region frameTopLeft r c
  = mkRun [modulePolygon segment rect] true.
Proof.
  intros H1 H2 H3 H4. unfold moduleAt. rewrite H1. cbn [orThrow].
  rewrite H2. cbn [orThrow]. rewrite H3. cbn [orThrow].
  unfold placeModule. rewrite H4. reflexivity.
Qed.

(** A setback that is not positive (or not a finite number) leaves the
    ring as the buildable region. *)
Lemma inset_no_setback (segment : FieldSegment.t) (turfPoly : Feature) :
  JS.isFinite (setbackMeters segment) = false
  \/ (setbackMeters segment <=? JS.Num 0)%js = true ->
  inset segment turfPoly = turfPoly.
Proof.
  intros H. unfold inset.
  destruct H as [-> | ->]; [reflexivity|].
  rewrite orb_true_r. reflexivity.
Qed.

Lemma setbackMeters_zero (segment : FieldSegment.t) :
  FieldSegment.setback segment = Some (JS.Num 0) ->
  setbackMeters segment = JS.Num 0.
Proof.
  intros E. unfold setbackMeters, JS.or_else, JS.truthy. rewrite E.
  replace (JS.Reqb 0 0) with true by (symmetry; apply JS.Reqb_true; lra).
  cbn. f_equal. lra.
Qed.

(** A module as the specification has it: the whole rectangle around a
    center, half a module wide to either side along the columns and half a
    module high to either side along the rows, that [turf.booleanWithin]
    found within the region; it is drawn corner by corner, at the height
    of the surface. *)
Definition wholeRectangle (segment : FieldSegment.t) (dims : Dims)
           (region : Feature) (m : Polygon) : Prop :=
  exists center minusX plusX tl bl tr br,
    destination center (moduleW segment dims / JS.Num 2)%js
                (opposite (bearingX segment)) = Some minusX
    /\ destination center (moduleW segment dims / JS.Num 2)%js
                   (bearingX segment) = Some plusX
    /\ destination minusX (moduleH segment dims / JS.Num 2)%js
                   (bearingY segment) = Some tl
    /\ destination minusX (moduleH segment dims / JS.Num 2)%js
                   (opposite (bearingY segment)) = Some bl
    /\ destination plusX (moduleH segment dims / JS.Num 2)%js
                   (bearingY segment) = Some tr
    /\ destination plusX (moduleH segment dims / JS.Num 2)%js
                   (opposite (bearingY segment)) = Some br
    /\ booleanWithin (TPolygon [[tl; tr; br; bl; tl]]) region = Some true
    /\ m = mkPolygon
             [[ Coord.mk (fst tl) (snd tl) None;
                Coord.mk (fst tr) (snd tr) None;
                Coord.mk (fst br) (snd br) None;
                Coord.mk (fst bl) (snd bl) None;
                Coord.mk (fst tl) (snd tl) None ]]
             moduleSymbol
             (Some (let feet :=
                      JS.nullish (FieldSegment.surfaceHeight segment)
                        (JS.nullish (FieldSegment.surface_height segment)
                                    (JS.Num 0)) in
                    if JS.isFinite feet then (feet * JS.Num 0.3048)%js
                    else JS.Num 0)).

Lemma rect_corners (center : Position) (halfW halfH bX bY : JS.num)
      (rect : Feature) :
  buildRotatedRect center halfW halfH bX bY = Some rect ->
  exists minusX plusX tl bl tr br,
    destination center halfW (opposite bX) = Some minusX
    /\ destination center halfW bX = Some plusX
    /\ destination minusX halfH bY = Some tl
    /\ destination minusX halfH (opposite bY) = Some bl
    /\ destination plusX halfH bY = Some tr
    /\ destination plusX halfH (opposite bY) = Some br
    /\ rect = TPolygon [[tl; tr; br; bl; tl]].
Proof.
  unfold buildRotatedRect.
  destruct (destination center halfW (opposite bX)) as [minusX|] eqn:E1;
    [|discriminate].
  destruct (destination center halfW bX) as [plusX|] eqn:E2; [|discriminate].
  destruct (destination minusX halfH bY) as [tl|] eqn:E3; [|discriminate].
  destruct (destination minusX halfH (opposite bY)) as [bl|] eqn:E4;
    [|discriminate].
  destruct (destination plusX halfH bY) as [tr|] eqn:E5; [|discriminate].
  destruct (destination plusX halfH (opposite bY)) as [br|] eqn:E6;
    [|discriminate].
  unfold Shadows.turf_polygon.
  destruct (forallb Shadows.validRing [[tl; tr; br; bl; tl]]);
    [|discriminate].
  intros [= <-]. exists minusX, plusX, tl, bl, tr, br.
  repeat (split; [first [assumption | reflexivity]|]). reflexivity.
Qed.

Lemma moduleAt_whole (segment : FieldSegment.t) (dims : Dims)
      (region : Feature) (frameTopLeft : Position) (r c : JS.num) :
  Forall (wholeRectangle segment dims region)
         (added (moduleAt segment dims region frameTopLeft r c)).
Proof.
  unfold moduleAt.
  apply orThrow_Forall. intros alongX.
  apply orThrow_Forall. intros center.
  destruct (buildRotatedRect _ _ _ _ _) as [rect|] eqn:Hrect;
    [|constructor].
  cbn [orThrow added]. unfold placeModule.
  destruct (booleanWithin rect region) as [[|]|] eqn:Hin;
    constructor; [|constructor].
  destruct (rect_corners _ _ _ _ _ _ Hrect)
    as [minusX [plusX [tl [bl [tr [br H]]]]]].
  destruct H as [H1 [H2 [H3 [H4 [H5 [H6 ->]]]]]].
  exists center, minusX, plusX, tl, bl, tr, br.
  repeat (split; [assumption|]). reflexivity.
Qed.

Lemma layout_whole (segment : FieldSegment.t) (dims : Dims)
      (region : Feature) :
  Forall (wholeRectangle segment dims region)
         (added (layout segment dims region)).
Proof.
  unfold layout.
  repeat (apply orThrow_Forall; intros ?).
  apply forEachRun_Forall. intros yOff.
  apply orThrow_Forall. intros frameRowBase.
  apply forEachRun_Forall. intros xOff. unfold frameAt.
  repeat (apply orThrow_Forall; intros ?).
  apply forEachRun_Forall. intros r.
  apply forEachRun_Forall. intros c. apply moduleAt_whole.
Qed.

(** C2.  Every module the packer puts on the layer is a whole candidate
    rectangle, drawn corner by corner, that [turf.booleanWithin] found
    within the buildable region (the inset ring, not the footprint); a
    candidate that is within it is drawn whole, and one that is not, or
    for which the test throws, is dropped.  With a setback of 0 the
    buildable region is the ring itself. *)
Theorem modules_within_buildable_region
        (segment : FieldSegment.t) (shell : list Coord.t)
        (turfPoly : Feature) :
  FieldSegment.geometry segment = Some shell ->
  toTurfPolygon shell = Some turfPoly ->
  Forall (fun m =>
            exists moduleId dims,
              FieldSegment.module segment = Some moduleId
              /\ moduleDims moduleId = Some dims
              /\ wholeRectangle segment dims (inset segment turfPoly) m)
         (added (segmentModules segment))
  /\ (forall rect,
        booleanWithin rect (inset segment turfPoly) <> Some true ->
        placeModule segment (inset segment turfPoly) rect = [])
  /\ (forall a b c d,
        booleanWithin (TPolygon [[a; b; c; d; a]]) (inset segment turfPoly)
        = Some true ->
        exists m,
          placeModule segment (inset segment turfPoly)
                      (TPolygon [[a; b; c; d; a]]) = [m]
          /\ rings m = [[ Coord.mk (fst a) (snd a) None;
                          Coord.mk (fst b) (snd b) None;
                          Coord.mk (fst c) (snd c) None;
                          Coord.mk (fst d) (snd d) None;
                          Coord.mk (fst a) (snd a) None ]])
  /\ (FieldSegment.setback segment = Some (JS.Num 0) ->
      inset segment turfPoly = turfPoly).
Proof.
  intros Hg Ht. split; [|split; [|split]].
  - unfold segmentModules. rewrite Hg, Ht. cbn [orThrow].
    destruct (FieldSegment.module segment) as [[|c r]|];
      try (cbn; constructor).
    destruct (moduleDims (String c r)) as [dims|] eqn:Hd;
      [|cbn; constructor].
    eapply Forall_impl; [|apply layout_whole].
    intros m Hm. exists (String c r), dims.
    split; [reflexivity|]. split; [exact Hd|exact Hm].
  - intros rect H. unfold placeModule.
    destruct (booleanWithin rect (inset segment turfPoly)) as [[|]|];
      [contradiction| |]; reflexivity.
  - intros a b c d H. unfold placeModule. rewrite H.
    eexists. split; reflexivity.
  - intros E. apply inset_no_setback. right.
    rewrite (setbackMeters_zero segment E). cbn.
    apply JS.Rleb_true. lra.
Qed.

(** For a leftover span that is not negative and a positive step, the
    remainder lies between 0 and the step: "right" starts the first
    column that remainder in, "center" half of it. *)
Lemma margin_range (segment : FieldSegment.t) (leftover step : R) :
  0 <= leftover -> 0 < step ->
  exists remainder,
    (JS.Num leftover %% JS.Num step)%js = JS.Num remainder
    /\ 0 <= remainder < step
    /\ marginX (withAlignment (Some "right"%string) segment)
               (JS.Num leftover) (JS.Num step) = JS.Num remainder
    /\ marginX (withAlignment (Some "center"%string) segment)
               (JS.Num leftover) (JS.Num step) = JS.Num (remainder / 2).
Proof.
  intros Hl Hs.
  destruct (Shadows.rem_nonneg leftover step Hl Hs) as [k [E B]].
  exists (leftover - step * IZR k).
  split; [exact E|]. split; [exact B|].
  unfold marginX. cbn [withAlignment FieldSegment.alignment JS.str_or].
  cbn [String.eqb Ascii.eqb Bool.eqb]. rewrite E.
  split; [reflexivity|]. cbn.
  replace (JS.Reqb 2 0) with false by (symmetry; apply JS.Reqb_false; lra).
  reflexivity.
Qed.

(** C8.  The columns of frames start at the margin plus half a frame,
    and go on in steps of [stepX] up to the width.  The margin is half the
    remainder of the leftover span (the width less one frame, or 0 when
    that is negative) by [stepX] for "center", the whole remainder for
    "right", 0 for "left", and for "justify" the same as for "center"; so
    the modules laid out for "justify" are those laid out for "center".
    For a width, a frame and a positive step that are finite, the
    remainder is a number from 0 up to, and not including, the step.
    The layout puts a frame at each of these offsets in every row, for
    the width the region spans along the columns (or 0 when that is
    negative). *)
Theorem margin_by_alignment (segment : FieldSegment.t) (dims : Dims)
        (widthM : JS.num) :
  let fW := frameW segment dims in
  let step := stepX segment dims in
  let remainder := (JS.max (JS.Num 0) (widthM - fW) %% step)%js in
  let columnsFrom (start : JS.num) :=
    loopValues fuel start
      (fun xOff =>
         (xOff <=? widthM - fW / JS.Num 2 + JS.Num (1 / 1000000))%js)
      (fun xOff => (xOff + step)%js) in
  columnOffsets (withAlignment (Some "center"%string) segment) dims widthM
  = columnsFrom (remainder / JS.Num 2 + fW / JS.Num 2)%js
  /\ columnOffsets (withAlignment (Some "right"%string) segment) dims widthM
     = columnsFrom (remainder + fW / JS.Num 2)%js
  /\ columnOffsets (withAlignment (Some "left"%string) segment) dims widthM
     = columnsFrom (JS.Num 0 + fW / JS.Num 2)%js
  /\ columnOffsets (withAlignment (Some "justify"%string) segment) dims
                   widthM
     = columnOffsets (withAlignment (Some "center"%string) segment) dims
                     widthM
  /\ layout (withAlignment (Some "justify"%string) segment)
     = layout (withAlignment (Some "center"%string) segment)
  /\ segmentModules (withAlignment (Some "justify"%string) segment)
     = segmentModules (withAlignment (Some "center"%string) segment)
  /\ (forall w f st,
        widthM = JS.Num w -> fW = JS.Num f -> step = JS.Num st -> 0 < st ->
        exists q : Z,
          remainder = JS.Num (Rmax 0 (w - f) - st * IZR q)
          /\ 0 <= Rmax 0 (w - f) - st * IZR q < st)
  /\ (forall region origin ext south southWest,
        centroid region = Some origin ->
        extents segment origin region = Some ext ->
        widthM = JS.max (JS.Num 0) (maxProjX ext - minProjX ext)%js ->
        shift origin (minProjY ext) (bearingY segment) = Some south ->
        shift south (minProjX ext) (bearingX segment) = Some southWest ->
        layout segment dims region
        = forEachRun
            (fun yOff =>
               orThrow (destination southWest yOff (bearingY segment))
                 (fun frameRowBase =>
                    forEachRun
                      (fun xOff =>
                         frameAt segment dims region frameRowBase xOff)
                      (columnOffsets segment dims widthM)))
            (rowOffsets segment dims
               (JS.max (JS.Num 0) (maxProjY ext - minProjY ext)%js))).
Proof.
  intros fW step remainder columnsFrom.
  assert (L : layout (withAlignment (Some "justify"%string) segment)
              = layout (withAlignment (Some "center"%string) segment)).
  { unfold layout. reflexivity. }
  split; [reflexivity|]. split; [reflexivity|]. split; [reflexivity|].
  split; [reflexivity|]. split; [exact L|]. split; [|split].
  3: { intros region origin ext south southWest Hc He Hw Hs Hsw.
       unfold layout. rewrite Hc. cbn [orThrow]. rewrite He. cbn [orThrow].
       rewrite Hs. cbn [orThrow]. rewrite Hsw. cbn [orThrow].
       rewrite Hw. reflexivity. }
  - unfold segmentModules.
    cbn [withAlignment FieldSegment.geometry FieldSegment.module].
    destruct (FieldSegment.geometry segment) as [shell|]; [|reflexivity].
    destruct (toTurfPolygon shell) as [turfPoly|]; [|reflexivity].
    cbn [orThrow].
    destruct (FieldSegment.module segment) as [[|c r]|]; reflexivity.
  - intros w f st Hw Hf Hst Hpos. subst remainder. rewrite Hw, Hf, Hst.
    assert (Hmax : JS.max (JS.Num 0) (JS.Num w - JS.Num f)%js
                   = JS.Num (Rmax 0 (w - f))).
    { cbn. unfold JS.Rltb, Rmax.
      destruct (Rlt_dec 0 (w + - f)), (Rle_dec 0 (w - f));
        try (f_equal; lra). }
    rewrite Hmax.
    destruct (Shadows.rem_nonneg (Rmax 0 (w - f)) st) as [q [E B]];
      [apply Rmax_l|exact Hpos|].
    exists q. split; [exact E|exact B].
Qed.

(** *** The buildable region *)

(** The loop over the pieces keeps the first piece of the largest area:
    with every piece a valid polygon of finite area, the piece it ends
    with is one of the pieces (or the one it started with) and no piece
    has a larger area. *)
Lemma largestPiece_spec (parts : list (list (list Position))) :
  forall (pieces : list Feature) (maxA : JS.num) (best : option Feature),
    Shadows.mapThrow Shadows.turf_polygon parts = Some pieces ->
    (forall p, In p pieces -> exists r, area p = JS.Num r) ->
    match best with
    | None => maxA = JS.NInf
    | Some b => exists r, area b = JS.Num r /\ maxA = JS.Num r
    end ->
    exists res,
      largestPiece parts maxA best = Some res
      /\ match res with
         | None => best = None /\ pieces = []
         | Some r =>
             (In r pieces \/ best = Some r)
             /\ exists x,
                  area r = JS.Num x
                  /\ (forall q y, In q pieces -> area q = JS.Num y -> y <= x)
                  /\ (forall m, maxA = JS.Num m -> m <= x)
         end.
Proof.
  induction parts as [|coords rest IH]; intros pieces maxA best Hp Hfin Hinv;
    cbn [Shadows.mapThrow] in Hp.
  - injection Hp as <-. exists best. split; [reflexivity|].
    destruct best as [b|]; [|split; reflexivity].
    destruct Hinv as [r [Hb Hr]]. split; [right; reflexivity|].
    exists r. split; [exact Hb|]. split; [intros q y []|].
    intros m Hm. rewrite Hr in Hm. injection Hm as <-. lra.
  - cbn [largestPiece].
    destruct (Shadows.turf_polygon coords) as [p|]; [|discriminate].
    destruct (Shadows.mapThrow Shadows.turf_polygon rest) as [ps|] eqn:Hrest;
      [|discriminate].
    injection Hp as <-.
    destruct (Hfin p (or_introl eq_refl)) as [a Ha].
    assert (Hfin' : forall q, In q ps -> exists r, area q = JS.Num r)
      by (intros q Hq; apply Hfin; right; exact Hq).
    destruct (area p >? maxA)%js eqn:Hgt.
    + destruct (IH ps (area p) (Some p) eq_refl Hfin') as [res [Hres Hspec]].
      { exists a. split; [exact Ha|exact Ha]. }
      exists res. split; [exact Hres|].
      destruct res as [r|]; [|destruct Hspec; discriminate].
      destruct Hspec as [Hin [x [Hx [Hall Hge]]]].
      split.
      * left. destruct Hin as [Hin | [= <-]];
          [right; exact Hin|left; reflexivity].
      * exists x. split; [exact Hx|]. split.
        -- intros q y [<- | Hq] Hy; [apply Hge, Hy|exact (Hall q y Hq Hy)].
        -- intros m Hm. rewrite Hm, Ha in Hgt. cbn in Hgt.
           apply JS.Rltb_true in Hgt. pose proof (Hge a Ha). lra.
    + destruct (IH ps maxA best eq_refl Hfin' Hinv) as [res [Hres Hspec]].
      exists res. split; [exact Hres|].
      assert (Hm : exists m, maxA = JS.Num m /\ a <= m).
      { destruct best as [b|].
        - destruct Hinv as [r [_ Hr]]. exists r. split; [exact Hr|].
          rewrite Hr, Ha in Hgt. cbn in Hgt.
          apply JS.Rltb_false in Hgt. exact Hgt.
        - rewrite Hinv, Ha in Hgt. cbn in Hgt. discriminate. }
      destruct Hm as [m [Hm Ham]].
      destruct res as [r|].
      * destruct Hspec as [Hin [x [Hx [Hall Hge]]]].
        split.
        { destruct Hin as [Hin|Hin];
            [left; right; exact Hin|right; exact Hin]. }
        exists x. split; [exact Hx|]. split; [|exact Hge].
        intros q y [<- | Hq] Hy; [|exact (Hall q y Hq Hy)].
        rewrite Ha in Hy. injection Hy as <-.
        pose proof (Hge m Hm). lra.
      * destruct Hspec as [Hbest _]. subst best.
        rewrite Hinv in Hm. discriminate.
Qed.

(** The setback in meters is a number: 0.3048 times the stored setback
    when that is a positive number, and otherwise at most 0. *)
Lemma setbackMeters_value (segment : FieldSegment.t) :
  exists r,
    setbackMeters segment = JS.Num r
    /\ (r <= 0
        \/ exists f, FieldSegment.setback segment = Some (JS.Num f)
                     /\ 0 < f /\ r = f * 0.3048).
Proof.
  unfold setbackMeters, JS.or_else, JS.truthy, meters.
  destruct (FieldSegment.setback segment) as [[| | |f]|]; cbn.
  - exists (0 * 0.3048). split; [reflexivity|left; lra].
  - exists 0. split; [reflexivity|left; lra].
  - exists 0. split; [reflexivity|left; lra].
  - destruct (JS.Reqb f 0) eqn:Ez; cbn.
    + exists (0 * 0.3048). split; [reflexivity|left; lra].
    + exists (f * 0.3048). split; [reflexivity|].
      destruct (Rle_lt_dec f 0) as [Hle|Hlt]; [left; lra|].
      right. exists f. repeat split. exact Hlt.
  - exists (0 * 0.3048). split; [reflexivity|left; lra].
Qed.

(** C4 (as amended).  The buildable region is the closed ring of the
    segment when the setback is not a positive finite number.  Otherwise
    the ring is buffered by minus the setback taken as feet and turned into
    meters (setback x 0.3048): when the buffer throws or returns nothing
    the ring itself is used; a polygon is used as it is; of a
    multi-polygon the piece of the largest area is kept (the ring itself
    when there is no piece, or when a piece is not a valid polygon). *)
Theorem inset_by_setback (segment : FieldSegment.t) (turfPoly : Feature) :
  (~ (exists feet, FieldSegment.setback segment = Some (JS.Num feet)
                   /\ 0 < feet) ->
   inset segment turfPoly = turfPoly)
  /\ (forall feet,
        FieldSegment.setback segment = Some (JS.Num feet) -> 0 < feet ->
        let buff := buffer turfPoly (JS.Num (- (feet * 0.3048))) in
        (buff = BThrows \/ buff = BUndefined ->
         inset segment turfPoly = turfPoly)
        /\ (forall rs, buff = BFeature (TPolygon rs) ->
                       inset segment turfPoly = TPolygon rs)
        /\ (forall parts,
              buff = BFeature (TMultiPolygon parts) ->
              (Shadows.mapThrow Shadows.turf_polygon parts = None ->
               inset segment turfPoly = turfPoly)
              /\ (forall pieces,
                    Shadows.mapThrow Shadows.turf_polygon parts
                    = Some pieces ->
                    (forall p, In p pieces -> exists r, area p = JS.Num r) ->
                    match pieces with
                    | [] => inset segment turfPoly = turfPoly
                    | _ =>
                        In (inset segment turfPoly) pieces
                        /\ forall q, In q pieces ->
                             (area (inset segment turfPoly) >=? area q)%js
                             = true
                    end))).
Proof.
  split.
  - intros Hno. apply inset_no_setback. right.
    destruct (setbackMeters_value segment) as [r [-> [Hr | Hf]]].
    + cbn. apply JS.Rleb_true. exact Hr.
    + exfalso. apply Hno. destruct Hf as [f [E [Hf _]]].
      exists f. split; [exact E|exact Hf].
  - intros feet E Hpos buff.
    assert (Hsb : setbackMeters segment = JS.Num (feet * 0.3048)).
    { unfold setbackMeters, JS.or_else, JS.truthy. rewrite E.
      replace (JS.Reqb feet 0) with false
        by (symmetry; apply JS.Reqb_false; lra).
      reflexivity. }
    assert (Hin : inset segment turfPoly =
                  match buff with
                  | BThrows => turfPoly
                  | BUndefined => turfPoly
                  | BFeature (TMultiPolygon parts) =>
                      match largestPiece parts JS.NInf None with
                      | Some (Some best) => best
                      | Some None => turfPoly
                      | None => turfPoly
                      end
                  | BFeature b => b
                  end).
    { unfold inset. rewrite Hsb. cbn [JS.isFinite negb orb JS.le JS.neg].
      replace (JS.Rleb (feet * 0.3048) 0) with false
        by (symmetry; apply JS.Rleb_false; lra).
      reflexivity. }
    rewrite Hin. clear Hin.
    split; [|split].
    + intros [-> | ->]; reflexivity.
    + intros rs ->. reflexivity.
    + intros parts ->. split.
      * intros Hthrow.
        assert (L : forall ps maxA best,
                   Shadows.mapThrow Shadows.turf_polygon ps = None ->
                   largestPiece ps maxA best = None).
        { induction ps as [|c rest IH]; intros maxA best H;
            cbn [Shadows.mapThrow] in H; [discriminate|].
          cbn [largestPiece].
          destruct (Shadows.turf_polygon c) as [p|]; [|reflexivity].
          destruct (Shadows.mapThrow Shadows.turf_polygon rest) eqn:Er;
            [discriminate|].
          destruct (area p >? maxA)%js; apply IH; reflexivity. }
        rewrite (L parts JS.NInf None Hthrow). reflexivity.
      * intros pieces Hp Hfin.
        destruct (largestPiece_spec parts pieces JS.NInf None Hp Hfin eq_refl)
          as [res [Hres Hspec]].
        rewrite Hres. destruct res as [r|].
        -- destruct Hspec as [[Hin | Habs] [x [Hx [Hall _]]]];
             [|discriminate].
           destruct pieces as [|p0 ps0]; [destruct Hin|].
           split; [exact Hin|].
           intros q Hq. destruct (Hfin q Hq) as [y Hy].
           rewrite Hx, Hy. cbn. apply JS.Rleb_true.
           exact (Hall q y Hq Hy).
        -- destruct Hspec as [_ ->]. reflexivity.
Qed.
End Layout.
End Packer.

(* ===================================================================== *)
(** ** Deleting a segment *)
(* ===================================================================== *)

(** What the [delete] call on the segment store returns. *)
Inductive DeleteResult : Type :=
| DeleteOk
| DeleteError (message : string).

Module Segments.

(** The state of the editor the handler writes to. *)
Record State : Type := mkState {
  fieldSegments : list FieldSegment.t;
  selectedSegmentId : option string
}.

(** [prev.filter(s => s.id !== segmentId)] *)
Definition without (segmentId : string) (segs : list FieldSegment.t)
  : list FieldSegment.t :=
  filter (fun s => negb (String.eqb (FieldSegment.id s) segmentId)) segs.

(** [handleDeleteSegment] up to its [await]: the copy of the list it
    keeps, and the state after the optimistic removal. *)
Definition beginDelete (st : State) (segmentId : string)
  : list FieldSegment.t * State :=
  let originalSegments := fieldSegments st in
  (originalSegments, mkState (without segmentId (fieldSegments st)) None).

(** [handleDeleteSegment] after its [await], on the state as it is by
    then. *)
Definition finishDelete (originalSegments : list FieldSegment.t)
           (res : DeleteResult) (st : State) : State :=
  match res with
  | DeleteError _ => mkState originalSegments (selectedSegmentId st)
  | DeleteOk => st
  end.

Section Handler.

(** The segment store. *)
Variable deleteSegment : string -> DeleteResult.

(** [handleDeleteSegment], with nothing else writing the state while the
    call is awaited. *)
Definition handleDeleteSegment (st : State) (segmentId : string) : State :=
  let '(originalSegments, st1) := beginDelete st segmentId in
  finishDelete originalSegments (deleteSegment segmentId) st1.

Lemma without_gone (segmentId : string) (segs : list FieldSegment.t) :
  forall s, In s (without segmentId segs) ->
            In s segs /\ FieldSegment.id s <> segmentId.
Proof.
  intros s H. apply filter_In in H. destruct H as [Hin Hne].
  split; [exact Hin|].
  apply negb_true_iff in Hne. apply String.eqb_neq. exact Hne.
Qed.

Lemma without_others (segmentId : string) (segs : list FieldSegment.t) :
  forall s, In s segs -> FieldSegment.id s <> segmentId ->
            In s (without segmentId segs).
Proof.
  intros s Hin Hne. apply filter_In. split; [exact Hin|].
  apply negb_true_iff. apply String.eqb_neq. exact Hne.
Qed.

(** C9.  Deleting a segment first takes it out of the local list (the
    other segments stay, in their order).  When the delete call returns
    an error the list is put back exactly as it was before the delete,
    whatever the state is by then; when it succeeds the state is left as
    it is, so the segment stays removed. *)
Theorem delete_rolls_back_on_error (st : State) (segmentId : string) :
  fieldSegments (snd (beginDelete st segmentId))
  = without segmentId (fieldSegments st)
  /\ (forall s, In s (fieldSegments (snd (beginDelete st segmentId)))
                <-> In s (fieldSegments st)
                    /\ FieldSegment.id s <> segmentId)
  /\ (forall message later,
        fieldSegments
          (finishDelete (fst (beginDelete st segmentId))
                        (DeleteError message) later)
        = fieldSegments st)
  /\ (forall message,
        deleteSegment segmentId = DeleteError message ->
        fieldSegments (handleDeleteSegment st segmentId) = fieldSegments st)
  /\ (deleteSegment segmentId = DeleteOk ->
      fieldSegments (handleDeleteSegment st segmentId)
      = without segmentId (fieldSegments st)
      /\ forall s, In s (fieldSegments (handleDeleteSegment st segmentId)) ->
                   FieldSegment.id s <> segmentId).
Proof.
  split; [reflexivity|]. split; [|split; [|split]].
  - intros s. cbn. split.
    + apply without_gone.
    + intros [Hin Hne]. apply without_others; assumption.
  - intros message later. reflexivity.
  - intros message E. unfold handleDeleteSegment. cbn. rewrite E. reflexivity.
  - intros E. unfold handleDeleteSegment. cbn. rewrite E. cbn.
    split; [reflexivity|]. intros s Hs. apply (without_gone _ _ s Hs).
Qed.

End Handler.
End Segments.

(* ===================================================================== *)
(** ** Worked examples *)
(* ===================================================================== *)

Module Examples.
Local Open Scope string_scope.

(** A square roof of 10 by 10 map units. *)
Definition square : list Coord.t :=
  [ Coord.xy (JS.Num 0) (JS.Num 0); Coord.xy (JS.Num 10) (JS.Num 0);
    Coord.xy (JS.Num 10) (JS.Num 10); Coord.xy (JS.Num 0) (JS.Num 10) ].

(** A segment as [mapDbToSegment] makes it from the row the editor
    inserts for a new drawing, with the given heights (feet), setback
    (feet) and module. *)
Definition segmentWith (surface racking parapet setbackFt : R)
           (moduleId : option string) : FieldSegment.t :=
  FieldSegment.mk
    "segment-1" (Some square)
    (Some (JS.Num surface)) None
    (Some (JS.Num racking)) None
    (Some (JS.Num parapet)) None
    (Some "2025-12-22") (Some "10:00") (Some "10:00") (Some "16:00")
    moduleId (Some "Landscape")
    (Some (JS.Num 0.041)) (Some (JS.Num 0)) (Some (JS.Num 2))
    (Some (JS.Num 1)) (Some (JS.Num 1)) (Some (JS.Num 180))
    (Some (JS.Num setbackFt)) (Some "center").

(** A new segment: no height yet, a setback of 4 ft, no module. *)
Definition newSegment : FieldSegment.t := segmentWith 0 0 0 4 None.

(** A roof 10 ft up, and a tower of 2000 ft. *)
Definition roof10 : FieldSegment.t := segmentWith 10 0 0 4 None.
Definition tower : FieldSegment.t := segmentWith 2000 0 0 4 None.

(** Stand-ins for the libraries. *)
Definition sunAt45 (_ : Clock.JSDate) (_ _ : JS.num) : SunLookup :=
  SunPos (JS.Num 0) (JS.Num (PI / 4)).
Definition sunBelow (_ : Clock.JSDate) (_ _ : JS.num) : SunLookup :=
  SunPos (JS.Num 0) (JS.Num (-1)).
Definition sunFails (_ : Clock.JSDate) (_ _ : JS.num) : SunLookup :=
  SunThrows.
Definition eastward (p : Position) (dist _ : JS.num) : option Position :=
  Some ((fst p + dist)%js, snd p).
Definition noUnion (_ _ : Feature) : UnionResult := UThrows.
Definition oneMeter (_ _ : Position) : option JS.num := Some (JS.Num 1).

(** A buffer that records the distance it was asked for. *)
Definition tracingBuffer (_ : Feature) (d : JS.num) : BufferResult :=
  BFeature (TPolygon [[(d, JS.Num 0)]]).
Definition unitArea (_ : Feature) : JS.num := JS.Num 1.

(** *** Times and samples *)

Example parse_ten : Clock.parseHHmmToMinutes "10:00" = 600%Z.
Proof. reflexivity. Qed.

Example parse_half_past_four : Clock.parseHHmmToMinutes "16:30" = 990%Z.
Proof. reflexivity. Qed.

Example parse_nothing : Clock.parseHHmmToMinutes "" = 0%Z.
Proof. reflexivity. Qed.

Example time_of_sample : Clock.timeString 605 = "10:05".
Proof. reflexivity. Qed.

Example date_of_sample :
  Clock.toDateAtTime (Some "2025-12-22") (Some (Clock.timeString 605))
  = Clock.mkDate (Some "2025-12-22") (Some 10%Z) (Some 5%Z).
Proof. reflexivity. Qed.

(** The window 10:00 to 16:00 of a new segment has 361 samples, from
    minute 600 to minute 960. *)
Example samples_of_new_segment :
  length (Shadows.sampleMinutes newSegment) = 361%nat
  /\ hd 0%Z (Shadows.sampleMinutes newSegment) = 600%Z
  /\ last (Shadows.sampleMinutes newSegment) 0%Z = 960%Z.
Proof. repeat split; reflexivity. Qed.

(** A segment whose window is inverted, 16:00 to 10:00. *)
Definition inverted : FieldSegment.t :=
  FieldSegment.mk
    "segment-2" (Some square) (Some (JS.Num 10)) None (Some (JS.Num 0)) None
    (Some (JS.Num 0)) None (Some "2025-12-22") (Some "16:00") None
    (Some "10:00") None None None None None None None None None None.

Example samples_of_inverted_window :
  Shadows.sampleMinutes inverted = Shadows.sampleMinutes newSegment.
Proof. reflexivity. Qed.

(** *** Walls *)

(** Decide the comparisons of reals in the goal, one after the other. *)
Ltac decide_reals :=
  repeat (cbn;
          unfold JS.gt, JS.lt, JS.sne, JS.seq, JS.Reqb, JS.Rltb, JS.Rleb;
          match goal with
          | |- context [Req_dec_T ?u ?v] =>
              destruct (Req_dec_T u v); try lra
          | |- context [Rlt_dec ?u ?v] =>
              destruct (Rlt_dec u v); try lra
          | |- context [Rle_dec ?u ?v] =>
              destruct (Rle_dec u v); try lra
          end).

(** The square roof has four walls; with a parapet of 3 ft every wall
    carries a parapet strip. *)
Example walls_of_square :
  length (Walls.segmentWalls roof10) = 4%nat
  /\ length (Walls.segmentWalls (segmentWith 10 0 3 4 None)) = 8%nat.
Proof.
  split.
  - unfold Walls.segmentWalls, Walls.wallsAt, Walls.samePoint, Walls.paraZ,
      Walls.roofZ, nullish2, FT, JS.max.
    decide_reals. reflexivity.
  - unfold Walls.segmentWalls, Walls.wallsAt, Walls.samePoint, Walls.paraZ,
      Walls.roofZ, nullish2, FT, JS.max.
    decide_reals. reflexivity.
Qed.

(** *** Shadows *)

Lemma sun_at_45 (segment : FieldSegment.t) (timeStr : string) :
  Shadows.sunAt sunAt45 "2025-12-22" (JS.Num 40) (JS.Num (-74))
                segment timeStr
  = (JS.Num 0, JS.Num (PI / 4)).
Proof.
  pose proof PI_RGT_0 as Hpi.
  unfold Shadows.sunAt, sunAt45, JS.or_else, JS.truthy.
  replace (JS.Reqb 0 0) with true by (symmetry; apply JS.Reqb_true; lra).
  replace (JS.Reqb (PI / 4) 0) with false
    by (symmetry; apply JS.Reqb_false; lra).
  reflexivity.
Qed.

Lemma roof10_height :
  Shadows.segHeightM roof10 = JS.Num ((10 + 0 + 0) * 0.3048).
Proof. reflexivity. Qed.

Lemma tower_height :
  Shadows.segHeightM tower = JS.Num ((2000 + 0 + 0) * 0.3048).
Proof. reflexivity. Qed.

(** The shadow of a roof 10 ft up is 3.048 m long when the sun stands at
    45 degrees. *)
Lemma shadow_length_and_bearing_witness :
  Shadows.clampTo (JS.Num 0) (JS.Num 500)
    (JS.Num ((10 + 0 + 0) * 0.3048) / JS.tan (JS.Num (PI / 4)))%js
  = JS.Num (Rmin ((10 + 0 + 0) * 0.3048) 500).
Proof.
  refine (proj2 (proj1 (proj2
    (Shadows.shadow_length_and_bearing
       sunAt45 eastward "2025-12-22" (JS.Num 40) (JS.Num (-74))
       roof10 square "12:00" (JS.Num 0) (PI / 4) ((10 + 0 + 0) * 0.3048)
       _ _ _ _)) eq_refl)).
  - apply sun_at_45.
  - pose proof PI_RGT_0. lra.
  - apply roof10_height.
  - lra.
Defined.

(** C1, as stated, fails for a height above 500 m: at 45 degrees the
    shadow of a tower of 2000 ft (609.6 m) is moved by 500 m, not by its
    height. *)
Lemma shadow_at_45_is_clamped :
  Shadows.segHeightM tower = JS.Num ((2000 + 0 + 0) * 0.3048)
  /\ 0 < (2000 + 0 + 0) * 0.3048
  /\ Shadows.segShadowLen (Shadows.segHeightM tower) (JS.Num (PI / 4))
     = JS.Num 500
  /\ Shadows.segShadowLen (Shadows.segHeightM tower) (JS.Num (PI / 4))
     <> Shadows.segHeightM tower.
Proof.
  assert (E : Shadows.segShadowLen (Shadows.segHeightM tower)
                                   (JS.Num (PI / 4)) = JS.Num 500).
  { rewrite tower_height. unfold Shadows.segShadowLen.
    rewrite Shadows.rawLen_45, Shadows.clamp_max_min.
    rewrite Shadows.clampTo_Rmin by lra.
    f_equal. unfold Rmin.
    destruct (Rle_dec ((2000 + 0 + 0) * 0.3048) 500); lra. }
  split; [apply tower_height|]. split; [lra|]. split; [exact E|].
  rewrite E, tower_height. intros H. injection H as H. lra.
Qed.

(** With the sun below the horizon nothing is drawn. *)
Lemma no_shadow_when_sun_is_down_witness :
  Shadows.drawAtTime sunBelow eastward "2025-12-22" (JS.Num 40)
                     (JS.Num (-74)) roof10 square "12:00"
  = mkRun [] true.
Proof.
  refine (proj1 (proj2
    (Shadows.no_shadow_when_sun_is_down
       sunBelow eastward noUnion "2025-12-22" (JS.Num 40) (JS.Num (-74))
       roof10 square "12:00" _))).
  right. exists (JS.Num 0), (JS.Num (-1)). split; [reflexivity|].
  left. cbn. apply JS.Rleb_true. lra.
Defined.

(** A new segment has no height, so it casts no shadow even at noon. *)
Lemma no_shadow_without_height_witness :
  Shadows.segmentShadows sunAt45 eastward noUnion "2025-12-22"
                         (JS.Num 40) (JS.Num (-74)) newSegment
  = mkRun [] true.
Proof.
  refine (proj2
    (Shadows.no_shadow_without_height
       sunAt45 eastward noUnion "2025-12-22" (JS.Num 40) (JS.Num (-74))
       newSegment _)).
  right. cbn. apply JS.Rleb_true. lra.
Defined.

(** *** Drawing *)

(** Three vertices are set and the cursor hovers one meter from the
    first one, at a resolution of one meter per pixel. *)
Definition hover : Draw.MouseMove :=
  Draw.mkMove Draw.tool_draw true
    (Some (Coord.xy (JS.Num 1) (JS.Num 0)))
    (Some (square ++ [Coord.xy (JS.Num 1) (JS.Num 0)])%list)
    (JS.Num 1)
    (Some (Coord.xy (JS.Num 0.5) (JS.Num 5))).

Definition drawing : Draw.Editor :=
  Draw.onDrawStart
    (Draw.mkEditor None false None false None false Draw.defaultSymbol)
    (Coord.xy (JS.Num 0) (JS.Num 0)).

Lemma hover_inside_snap : Draw.insideSnap oneMeter hover.
Proof.
  split; [reflexivity|]. split; [reflexivity|].
  exists (Coord.xy (JS.Num 1) (JS.Num 0)), (Coord.xy (JS.Num 0) (JS.Num 0)),
         (tl square ++ [Coord.xy (JS.Num 1) (JS.Num 0)])%list, (JS.Num 1).
  repeat split; try reflexivity.
  - cbn. lia.
  - cbn. apply JS.Rltb_true. lra.
Qed.




(** *** The packer *)

(** The square as the closed turf ring [toTurfPolygon] makes of it. *)
Definition squareRing : Feature :=
  TPolygon [(map Shadows.toPosition square ++ [(JS.Num 0, JS.Num 0)])%list].

Lemma square_toTurfPolygon : Packer.toTurfPolygon square = Some squareRing.
Proof.
  unfold Packer.toTurfPolygon, Shadows.turf_polygon, Shadows.validRing,
    Shadows.samePosition, squareRing.
  repeat (cbn; unfold JS.sne, JS.seq, JS.Reqb;
          match goal with
          | |- context [Req_dec_T ?u ?v] =>
              destruct (Req_dec_T u v); try lra
          end).
  reflexivity.
Qed.

Definition atOrigin (_ : Feature) : option Position :=
  Some (JS.Num 0, JS.Num 0).
Definition alwaysWithin (_ _ : Feature) : option bool := Some true.
Definition oneModule (_ : string) : option Dims :=
  Some (mkDims (JS.Num 1.1) (JS.Num 1.7)).

(** A segment with a module and no setback. *)
Definition flushSegment : FieldSegment.t :=
  segmentWith 10 0 0 0 (Some "module-1").

(** C4, as stated, fails: for the setback of 4 of a new segment the ring
    is buffered by 4 ft, that is by 1.2192 m, and not by 4 m. *)
Lemma inset_is_in_feet_not_meters :
  Packer.inset tracingBuffer unitArea newSegment squareRing
  = TPolygon [[(JS.Num (- (4 * 0.3048)), JS.Num 0)]]
  /\ Packer.insetPerSpec tracingBuffer unitArea newSegment squareRing
     = TPolygon [[(JS.Num (- 4), JS.Num 0)]]
  /\ Packer.inset tracingBuffer unitArea newSegment squareRing
     <> Packer.insetPerSpec tracingBuffer unitArea newSegment squareRing.
Proof.
  assert (E1 : Packer.inset tracingBuffer unitArea newSegment squareRing
               = TPolygon [[(JS.Num (- (4 * 0.3048)), JS.Num 0)]]).
  { unfold Packer.inset, Packer.setbackMeters, Packer.meters, JS.or_else,
      JS.truthy, newSegment, segmentWith, tracingBuffer.
    cbn [FieldSegment.setback].
    replace (JS.Reqb 4 0) with false by (symmetry; apply JS.Reqb_false; lra).
    cbn. replace (JS.Rleb (4 * 0.3048) 0) with false
      by (symmetry; apply JS.Rleb_false; lra).
    reflexivity. }
  assert (E2 : Packer.insetPerSpec tracingBuffer unitArea newSegment squareRing
               = TPolygon [[(JS.Num (- 4), JS.Num 0)]]).
  { unfold Packer.insetPerSpec, JS.or_else, JS.truthy, newSegment,
      segmentWith, tracingBuffer.
    cbn [FieldSegment.setback].
    replace (JS.Reqb 4 0) with false by (symmetry; apply JS.Reqb_false; lra).
    cbn. replace (JS.Rleb 4 0) with false
      by (symmetry; apply JS.Rleb_false; lra).
    reflexivity. }
  split; [exact E1|]. split; [exact E2|].
  rewrite E1, E2. intros H. injection H as H. lra.
Qed.

End Examples.

(* ===================================================================== *)
(** * Further properties of the editor *)
(* ===================================================================== *)

(* ===================================================================== *)
(** ** Sample times survive the trip through their string *)
(* ===================================================================== *)

Module ClockFacts.
Local Open Scope Z_scope.







End ClockFacts.

(* ===================================================================== *)
(** ** The shadows layer *)
(* ===================================================================== *)

Module ShadowFacts.

(** A remainder that needs no reduction, and one that needs one turn. *)
Lemma rem_small (a b : R) :
  0 <= a < b -> (JS.Num a %% JS.Num b)%js = JS.Num a.
Proof.
  intros [Ha Hb].
  destruct (Shadows.rem_nonneg a b Ha) as [k [E [Hlo Hhi]]]; [lra|].
  rewrite E. f_equal.
  assert (Hk : k = 0%Z).
  { assert (H1 : (k < 1)%Z) by (apply lt_IZR; nra).
    assert (H2 : (-1 < k)%Z) by (apply lt_IZR; nra).
    lia. }
  subst k. lra.
Qed.

Lemma rem_one_turn (a b : R) :
  0 < b -> b <= a < 2 * b -> (JS.Num a %% JS.Num b)%js = JS.Num (a - b).
Proof.
  intros Hb [Ha Ha2].
  destruct (Shadows.rem_nonneg a b) as [k [E [Hlo Hhi]]]; [lra|lra|].
  rewrite E. f_equal.
  assert (Hk : k = 1%Z).
  { assert (H1 : (k < 2)%Z) by (apply lt_IZR; nra).
    assert (H2 : (0 < k)%Z) by (apply lt_IZR; nra).
    lia. }
  subst k. lra.
Qed.

(** X5.  For every azimuth SunCalc can report (and any above -3 pi), the
    bearing of the sun is a number of degrees in [0, 360) and the shadow
    points exactly away from it: half a turn more when the sun bearing is
    below 180, half a turn less otherwise. *)
Theorem shadow_points_away_from_sun (t : R) :
  0 <= t * 180 / PI + 180 + 360 ->
  exists c b,
    Shadows.sunBearingFromNorth (JS.Num t) = JS.Num c
    /\ Shadows.shadowBearing (JS.Num t) = JS.Num b
    /\ 0 <= c < 360
    /\ ((c < 180 /\ b = c + 180) \/ (180 <= c /\ b = c - 180)).
Proof.
  intros Ht. pose proof PI_RGT_0 as Hpi.
  assert (E : Shadows.sunBearingFromNorth (JS.Num t)
              = (JS.Num (t * 180 / PI + 180 + 360) %% JS.Num 360)%js).
  { unfold Shadows.sunBearingFromNorth. cbn.
    replace (JS.Reqb PI 0) with false by (symmetry; apply JS.Reqb_false; lra).
    reflexivity. }
  destruct (Shadows.rem_nonneg (t * 180 / PI + 180 + 360) 360 Ht)
    as [k [E1 B1]]; [lra|].
  remember (t * 180 / PI + 180 + 360 - 360 * IZR k) as c eqn:Hc.
  assert (Ec : Shadows.sunBearingFromNorth (JS.Num t) = JS.Num c)
    by (rewrite E; exact E1).
  unfold Shadows.shadowBearing. rewrite Ec.
  change (JS.Num c + JS.Num 180)%js with (JS.Num (c + 180)).
  destruct (Rlt_le_dec c 180) as [Hlt|Hge].
  - exists c, (c + 180). rewrite rem_small by lra.
    split; [reflexivity|]. split; [reflexivity|]. split; [lra|].
    left. split; [exact Hlt|reflexivity].
  - exists c, (c - 180). rewrite rem_one_turn by lra.
    split; [reflexivity|]. split; [f_equal; lra|]. split; [lra|].
    right. split; [exact Hge|reflexivity].
Qed.

Lemma shadow_points_away_from_sun_witness :
  exists c b,
    Shadows.sunBearingFromNorth (JS.Num 0) = JS.Num c
    /\ Shadows.shadowBearing (JS.Num 0) = JS.Num b
    /\ 0 <= c < 360
    /\ ((c < 180 /\ b = c + 180) \/ (180 <= c /\ b = c - 180)).
Proof.
  refine (shadow_points_away_from_sun 0 _).
  pose proof PI_RGT_0 as Hpi.
  replace (0 * 180 / PI) with 0 by (field; lra). lra.
Defined.

Section Layer.

Variable getPosition : Clock.JSDate -> JS.num -> JS.num -> SunLookup.
Variable destination : Position -> JS.num -> JS.num -> option Position.
Variable union : Feature -> Feature -> UnionResult.
Variable dec22ThisYear : string.
Variables lat lng : JS.num.

(** A polygon at ground level. *)
Definition onGround (p : Polygon) : Prop := altitude p = Some (JS.Num 0).

Lemma drawAtTime_onGround (segment : FieldSegment.t) (shell : list Coord.t)
      (timeStr : string) :
  Forall onGround
    (added (Shadows.drawAtTime getPosition destination dec22ThisYear lat lng
                               segment shell timeStr)).
Proof.
  unfold Shadows.drawAtTime.
  destruct (Shadows.sunAt _ _ _ _ _ _) as [az alt].
  destruct (alt <=? JS.Num 0)%js; [constructor|].
  destruct (negb _ || _); [constructor|].
  destruct (Shadows.shiftedRing _ _ _ _) as [shifted|];
    [|repeat constructor].
  destruct (Shadows.mapThrow _ _) as [quadRings|]; [|repeat constructor].
  cbn [added]. constructor; [reflexivity|]. constructor; [reflexivity|].
  apply Forall_forall. intros p Hp. apply in_map_iff in Hp.
  destruct Hp as [ring [<- _]]. reflexivity.
Qed.

(** X2.  Whatever a segment puts on the shadows layer, the shadow of a
    single sample or the aggregate over the window, lies at ground level
    (altitude 0); that also holds for what was drawn before a throw. *)
Theorem shadows_lie_on_the_ground (segment : FieldSegment.t) :
  Forall onGround
    (added (Shadows.segmentShadows getPosition destination union
                                   dec22ThisYear lat lng segment)).
Proof.
  unfold Shadows.segmentShadows.
  destruct (FieldSegment.geometry segment) as [shell|]; [|constructor].
  destruct (Shadows.aggregate _ _ _ _ _ _ _ _ _ _) as [agg|]; [|constructor].
  cbn [added]. apply Forall_app. split.
  - unfold Shadows.drawAggregate. destruct agg as [[coords|parts]|].
    + repeat constructor.
    + apply Forall_forall. intros p Hp. apply in_map_iff in Hp.
      destruct Hp as [part [<- _]]. reflexivity.
    + constructor.
  - apply Packer.forEachRun_Forall. intros m. apply drawAtTime_onGround.
Qed.

(** X4.  A segment has |end - start| + 1 samples, so at least one even
    when both times agree (or are unreadable); a segment whose start and
    end time are those of another one, exchanged, has the same samples. *)
Theorem sample_count_and_symmetry (segment : FieldSegment.t) :
  let s := Clock.parseHHmmToMinutes (Shadows.getStartTime segment) in
  let e := Clock.parseHHmmToMinutes (Shadows.getEndTime segment) in
  length (Shadows.sampleMinutes segment) = Z.to_nat (Z.abs (e - s) + 1)
  /\ (1 <= length (Shadows.sampleMinutes segment))%nat
  /\ (forall other,
        Shadows.getStartTime other = Shadows.getEndTime segment ->
        Shadows.getEndTime other = Shadows.getStartTime segment ->
        Shadows.sampleMinutes other = Shadows.sampleMinutes segment).
Proof.
  intros s e.
  assert (Hs : forall seg,
             Shadows.sampleMinutes seg =
             let s' := Clock.parseHHmmToMinutes (Shadows.getStartTime seg) in
             let e' := Clock.parseHHmmToMinutes (Shadows.getEndTime seg) in
             map (fun k => (Z.min s' e' + Z.of_nat k)%Z)
                 (seq 0 (Z.to_nat (Z.max s' e' - Z.min s' e' + 1)))).
  { intros seg. unfold Shadows.sampleMinutes.
    rewrite Shadows.window_min_max.
    apply Shadows.minutesLoop_enough. lia. }
  assert (Hlen : length (Shadows.sampleMinutes segment)
                 = Z.to_nat (Z.abs (e - s) + 1)).
  { rewrite Hs. cbn zeta. rewrite length_map, length_seq.
    fold s e. f_equal. lia. }
  split; [exact Hlen|]. split; [rewrite Hlen; lia|].
  intros other H1 H2. rewrite (Hs other), (Hs segment). cbn zeta.
  rewrite H1, H2. fold s e.
  rewrite (Z.min_comm e s), (Z.max_comm e s). reflexivity.
Qed.


(** *** The aggregate is made of what is drawn *)

Lemma mapThrow_through {A B C : Type} (f : A -> option B)
      (g : B -> option C) (xs : list A) (ys : list C) :
  Shadows.mapThrow (fun a => match f a with
                             | None => None
                             | Some b => g b
                             end) xs = Some ys ->
  exists bs,
    Shadows.mapThrow f xs = Some bs /\ Shadows.mapThrow g bs = Some ys.
Proof.
  revert ys. induction xs as [|a rest IH]; intros ys H;
    cbn [Shadows.mapThrow] in *.
  - injection H as <-. exists []. split; reflexivity.
  - destruct (f a) as [b|]; [|discriminate].
    destruct (g b) as [c|] eqn:Eg; [|discriminate].
    destruct (Shadows.mapThrow _ rest) as [cs|]; [|discriminate].
    injection H as <-.
    destruct (IH cs eq_refl) as [bs [H1 H2]].
    exists (b :: bs). rewrite H1. split; [reflexivity|].
    cbn [Shadows.mapThrow]. rewrite Eg, H2. reflexivity.
Qed.

Lemma polygons_of_rings (rs : list (list Position)) (ps : list Feature) :
  Shadows.mapThrow (fun ring => Shadows.turf_polygon [ring]) rs = Some ps ->
  ps = map (fun ring => TPolygon [ring]) rs.
Proof.
  revert ps. induction rs as [|r rest IH]; intros ps H;
    cbn [Shadows.mapThrow] in H.
  - injection H as <-. reflexivity.
  - unfold Shadows.turf_polygon at 1 in H.
    destruct (forallb Shadows.validRing [r]); [|discriminate].
    destruct (Shadows.mapThrow _ rest) as [qs|]; [|discriminate].
    injection H as <-. cbn [map]. f_equal. apply IH. reflexivity.
Qed.

(** X3.  Whenever the polygons of a sample can be built for the
    aggregate, the same sample is drawn in full: the roof polygon of the
    aggregate is the shifted ring that is drawn (closed), and its wall
    polygons are, one for one, the wall shadows that are drawn. *)
Theorem aggregate_polygons_are_drawn
        (segment : FieldSegment.t) (shell : list Coord.t) (timeStr : string)
        (basePoly roofPoly : Feature) (quads : list Feature) :
  Shadows.buildTurfPolysAtTime getPosition destination dec22ThisYear lat lng
    segment shell timeStr = Some (basePoly :: roofPoly :: quads) ->
  exists shifted roofRing quadRings,
    Shadows.drawAtTime getPosition destination dec22ThisYear lat lng
      segment shell timeStr
    = mkRun
        (Shadows.groundPolygon
           (map (fun c => Coord.xy (Coord.x c) (Coord.y c)) shell)
           baseShadowSymbol
         :: Shadows.groundPolygon (map Shadows.toCoord shifted)
              roofShadowSymbol
         :: map (fun ring =>
                   Shadows.groundPolygon (map Shadows.toCoord ring)
                                         wallShadowSymbol)
                quadRings)
        true
    /\ Shadows.closeRing shifted = Some roofRing
    /\ roofPoly = TPolygon [roofRing]
    /\ quads = map (fun ring => TPolygon [ring]) quadRings
    /\ length quadRings = length shell.
Proof.
  unfold Shadows.buildTurfPolysAtTime, Shadows.drawAtTime.
  destruct (Shadows.sunAt _ _ _ _ _ _) as [az alt].
  destruct (alt <=? JS.Num 0)%js; [discriminate|].
  destruct (negb _ || _); [discriminate|].
  destruct (Shadows.closeRing (map Shadows.toPosition shell));
    [|discriminate].
  destruct (Shadows.turf_polygon _) as [b|]; [|discriminate].
  destruct (Shadows.shiftedRing _ _ _ _) as [shifted|]; [|discriminate].
  destruct (Shadows.closeRing shifted) as [roofRing|] eqn:Hroof;
    [|discriminate].
  unfold Shadows.turf_polygon at 1.
  destruct (forallb Shadows.validRing [roofRing]); [|discriminate].
  destruct (Shadows.mapThrow _ (seq 0 (length shell))) as [qs|] eqn:Hq;
    [|discriminate].
  intros [= <- <- <-].
  destruct (mapThrow_through _ _ _ _ Hq) as [quadRings [H1 H2]].
  exists shifted, roofRing, quadRings. rewrite H1.
  split; [reflexivity|]. split; [exact Hroof|]. split; [reflexivity|].
  split; [apply polygons_of_rings, H2|].
  apply Shadows.mapThrow_length in H1. rewrite H1, length_seq. reflexivity.
Qed.

(** *** Rings that cannot be polygons *)

Lemma short_ring_invalid (ring : list Position) :
  (length ring <= 3)%nat -> Shadows.turf_polygon [ring] = None.
Proof.
  intros H. unfold Shadows.turf_polygon, Shadows.validRing. cbn [forallb].
  replace (4 <=? length ring)%nat with false
    by (symmetry; apply Nat.leb_gt; lia).
  reflexivity.
Qed.

Lemma closeRing_length (ring closed : list Position) :
  Shadows.closeRing ring = Some closed ->
  (length closed <= S (length ring))%nat.
Proof.
  unfold Shadows.closeRing. destruct ring as [|p rest]; [discriminate|].
  destruct (_ || _); intros [= <-]; [|lia].
  cbn [app length]. rewrite length_app. cbn [length]. lia.
Qed.

Lemma build_short_ring (segment : FieldSegment.t) (shell : list Coord.t)
      (timeStr : string) (az : JS.num) (a r : R) :
  Shadows.sunAt getPosition dec22ThisYear lat lng segment timeStr
  = (az, JS.Num a) ->
  0 < a -> Shadows.segHeightM segment = JS.Num r -> 0 < r ->
  (length shell <= 2)%nat ->
  Shadows.buildTurfPolysAtTime getPosition destination dec22ThisYear lat lng
    segment shell timeStr = None.
Proof.
  intros Hsun Ha Hh Hr Hlen.
  destruct (Shadows.guards_pass a r Ha Hr) as [G1 G2].
  unfold Shadows.buildTurfPolysAtTime. rewrite Hsun, G1, Hh, G2.
  destruct (Shadows.closeRing (map Shadows.toPosition shell))
    as [baseRing|] eqn:Hc; [|reflexivity].
  rewrite short_ring_invalid; [reflexivity|].
  apply closeRing_length in Hc. rewrite length_map in Hc. lia.
Qed.

Lemma aggregate_throws (segment : FieldSegment.t) (shell : list Coord.t)
      (ms : list Z) (m : Z) (agg : option Feature) :
  In m ms ->
  Shadows.buildTurfPolysAtTime getPosition destination dec22ThisYear lat lng
    segment shell (Clock.timeString m) = None ->
  Shadows.aggregate getPosition destination union dec22ThisYear lat lng
    segment shell ms agg = None.
Proof.
  revert agg. induction ms as [|k rest IH]; intros agg Hin Hb; [destruct Hin|].
  cbn [Shadows.aggregate].
  destruct Hin as [-> | Hin]; [rewrite Hb; reflexivity|].
  destruct (Shadows.buildTurfPolysAtTime _ _ _ _ _ _ _ (Clock.timeString k));
    [|reflexivity].
  apply IH; assumption.
Qed.

Lemma forEachRun_stops {A : Type} (f : A -> Run) (xs ys : list A) (a : A) :
  (forall b, In b xs -> returned (f b) = true) ->
  f a = mkRun [] false ->
  forEachRun f (xs ++ a :: ys)
  = mkRun (added (forEachRun f xs)) false.
Proof.
  intros Hxs Ha. induction xs as [|b rest IH]; cbn [app forEachRun].
  - rewrite Ha. reflexivity.
  - rewrite (Hxs b (or_introl eq_refl)).
    rewrite IH by (intros; apply Hxs; right; assumption).
    reflexivity.
Qed.

(** X6.  A segment whose ring has fewer than three vertices, with a
    positive height, makes the shadows effect throw as soon as one sample
    of its window has the sun up: turf refuses the ring.  It adds nothing
    itself, and no segment after it in the list gets a shadow. *)
Theorem degenerate_ring_stops_the_shadows
        (segment : FieldSegment.t) (shell : list Coord.t) (m : Z)
        (az : JS.num) (a r : R) (before after : list FieldSegment.t) :
  FieldSegment.geometry segment = Some shell ->
  (length shell <= 2)%nat ->
  Shadows.segHeightM segment = JS.Num r -> 0 < r ->
  In m (Shadows.sampleMinutes segment) ->
  Shadows.sunAt getPosition dec22ThisYear lat lng segment
                (Clock.timeString m) = (az, JS.Num a) ->
  0 < a ->
  (forall s, In s before ->
     returned (Shadows.segmentShadows getPosition destination union
                 dec22ThisYear lat lng s) = true) ->
  Shadows.segmentShadows getPosition destination union dec22ThisYear lat lng
    segment = mkRun [] false
  /\ Shadows.shadowsLayer getPosition destination union dec22ThisYear lat lng
       true (before ++ segment :: after)
     = mkRun (added (Shadows.shadowsLayer getPosition destination union
                       dec22ThisYear lat lng true before))
             false.
Proof.
  intros Hg Hlen Hh Hr Hm Hsun Ha Hbefore.
  assert (E : Shadows.segmentShadows getPosition destination union
                dec22ThisYear lat lng segment = mkRun [] false).
  { unfold Shadows.segmentShadows. rewrite Hg.
    rewrite (aggregate_throws segment shell _ m None Hm); [reflexivity|].
    exact (build_short_ring segment shell _ az a r Hsun Ha Hh Hr Hlen). }
  split; [exact E|].
  unfold Shadows.shadowsLayer. apply forEachRun_stops; assumption.
Qed.
End Layer.
End ShadowFacts.

(* ===================================================================== *)
(** ** The packer: what it makes of the stored attributes *)
(* ===================================================================== *)

Module PackerFacts.

(** The remainder by a positive divisor, for any dividend: it differs
    from the dividend by a whole number of divisors and is smaller than
    the divisor in size. *)
Lemma rem_any (a b : R) :
  0 < b ->
  exists k : Z,
    (JS.Num a %% JS.Num b)%js = JS.Num (a - b * IZR k)
    /\ - b < a - b * IZR k < b.
Proof.
  intros Hb. destruct (Rle_lt_dec 0 a) as [Ha|Ha].
  - destruct (Shadows.rem_nonneg a b Ha Hb) as [k [E B]].
    exists k. split; [exact E|lra].
  - exists (- Int_part (- (a / b)))%Z. cbn.
    replace (JS.Reqb b 0) with false by (symmetry; apply JS.Reqb_false; lra).
    assert (Hq : a / b < 0).
    { assert (Hi : 0 < / b) by (apply Rinv_0_lt_compat, Hb).
      unfold Rdiv. nra. }
    unfold JS.Rtrunc. destruct (Rle_dec 0 (a / b)); [lra|].
    rewrite opp_IZR. split; [reflexivity|].
    destruct (base_Int_part (- (a / b))) as [Hlo Hhi].
    assert (Hab : a = a / b * b) by (field; lra).
    set (q := IZR (Int_part (- (a / b)))) in *.
    assert (H1 : b * q <= - (a / b) * b) by nra.
    assert (H2 : - (a / b) * b < b * q + b) by nra.
    lra.
Qed.

Lemma max_zero_nonneg (m : R) :
  0 <= m -> JS.max (JS.Num 0) (JS.Num m) = JS.Num m.
Proof.
  intros Hm. cbn. unfold JS.Rltb.
  destruct (Rlt_dec 0 m); [reflexivity|]. f_equal. lra.
Qed.

(** X7.  Whatever finite azimuth is stored (negative, or beyond a full
    turn), the packer rows run along a bearing in [0, 360) that differs
    from it by whole turns, and the columns along that bearing plus 90
    degrees, again brought into [0, 360). *)
Theorem azimuth_is_normalised (segment : FieldSegment.t) (a : R) :
  JS.nullish (FieldSegment.moduleAzimuth segment) (JS.Num 0) = JS.Num a ->
  exists (y x : R) (k j : Z),
    Packer.bearingY segment = JS.Num y /\ 0 <= y < 360
    /\ y = a + 360 * IZR k
    /\ Packer.bearingX segment = JS.Num x /\ 0 <= x < 360
    /\ x = a + 90 + 360 * IZR j.
Proof.
  intros Ha.
  destruct (rem_any a 360) as [k1 [E1 B1]]; [lra|].
  destruct (Shadows.rem_nonneg (a - 360 * IZR k1 + 360) 360)
    as [k2 [E2 B2]]; [lra|lra|].
  assert (Ey : Packer.moduleAz segment
               = JS.Num (a - 360 * IZR k1 + 360 - 360 * IZR k2)).
  { unfold Packer.moduleAz. rewrite Ha, E1.
    change (JS.Num (a - 360 * IZR k1) + JS.Num 360)%js
      with (JS.Num (a - 360 * IZR k1 + 360)).
    rewrite E2. apply max_zero_nonneg. lra. }
  remember (a - 360 * IZR k1 + 360 - 360 * IZR k2) as y eqn:Hy.
  destruct (Shadows.rem_nonneg (y + 90) 360) as [k3 [E3 B3]]; [lra|lra|].
  exists y, (y + 90 - 360 * IZR k3), (1 - k1 - k2)%Z, (1 - k1 - k2 - k3)%Z.
  split; [exact Ey|]. split; [lra|].
  split; [rewrite Hy, !minus_IZR; lra|].
  split.
  { unfold Packer.bearingX. rewrite Ey.
    change (JS.Num y + JS.Num 90)%js with (JS.Num (y + 90)). exact E3. }
  split; [lra|]. rewrite Hy, !minus_IZR. lra.
Qed.

Lemma meters_value (x : JS.num) :
  exists r,
    Packer.meters x = JS.Num r
    /\ (forall v, x = JS.Num v -> r = v * 0.3048)
    /\ (JS.isFinite x = false -> r = 0).
Proof.
  unfold Packer.meters, FT. destruct x as [| | |v]; cbn.
  - exists 0. repeat split; congruence.
  - exists 0. repeat split; congruence.
  - exists 0. repeat split; congruence.
  - exists (v * 0.3048). repeat split; [|discriminate].
    intros u [= <-]. reflexivity.
Qed.

Lemma max_zero_value (r : R) :
  exists f,
    JS.max (JS.Num 0) (JS.Num r) = JS.Num f
    /\ 0 <= f /\ (0 <= r -> f = r).
Proof.
  destruct (Rle_lt_dec 0 r) as [Hr|Hr].
  - exists r. rewrite max_zero_nonneg by exact Hr. repeat split; lra.
  - exists 0. cbn.
    replace (JS.Rltb 0 r) with false by (symmetry; apply JS.Rltb_false; lra).
    repeat split; lra.
Qed.

Lemma clamped_meters (x : JS.num) :
  exists f, JS.max (JS.Num 0) (Packer.meters x) = JS.Num f /\ 0 <= f.
Proof.
  destruct (meters_value x) as [r [-> _]].
  destruct (max_zero_value r) as [f [E [Hf _]]].
  exists f. split; assumption.
Qed.

Lemma moduleSpacing_value (segment : FieldSegment.t) :
  exists g,
    Packer.moduleSpacing segment = JS.Num g /\ 0 < g
    /\ ((exists v, FieldSegment.moduleSpacing segment = Some (JS.Num v)
                   /\ 0 < v /\ g = v * 0.3048)
        \/ g = 0.02 * 0.3048).
Proof.
  unfold Packer.moduleSpacing.
  set (raw := Packer.Number_ (FieldSegment.moduleSpacing segment)).
  destruct (JS.isFinite raw && (raw >? JS.Num 0)%js) eqn:Hok.
  - apply andb_true_iff in Hok. destruct Hok as [Hfin Hpos].
    destruct raw as [| | |v] eqn:Hraw; try discriminate.
    cbn in Hpos. apply JS.Rltb_true in Hpos.
    exists (v * 0.3048). unfold Packer.meters, FT. cbn [JS.isFinite JS.mul].
    rewrite max_zero_nonneg by lra.
    split; [reflexivity|]. split; [lra|]. left. exists v.
    split; [|split; [exact Hpos|reflexivity]].
    unfold raw, Packer.Number_, JS.nullish in Hraw.
    destruct (FieldSegment.moduleSpacing segment); [congruence|discriminate].
  - exists (0.02 * 0.3048). unfold Packer.meters, FT.
    cbn [JS.isFinite JS.mul]. rewrite max_zero_nonneg by lra.
    split; [reflexivity|]. split; [lra|right; reflexivity].
Qed.

(** X8.  The gap between modules is always a positive number of meters:
    the stored gap in feet when that is a positive finite number, and
    0.02 ft otherwise (missing, zero, negative, NaN or infinite).  The
    gaps between frames and between rows are never negative and never
    NaN or infinite. *)
Theorem gaps_are_sane (segment : FieldSegment.t) :
  (exists g,
     Packer.moduleSpacing segment = JS.Num g /\ 0 < g
     /\ ((exists v, FieldSegment.moduleSpacing segment = Some (JS.Num v)
                    /\ 0 < v /\ g = v * 0.3048)
         \/ g = 0.02 * 0.3048))
  /\ (exists f, Packer.frameSpacing segment = JS.Num f /\ 0 <= f)
  /\ (exists w, Packer.rowSpacing segment = JS.Num w /\ 0 <= w).
Proof.
  split; [apply moduleSpacing_value|].
  split; [unfold Packer.frameSpacing|unfold Packer.rowSpacing];
    apply clamped_meters.
Qed.

(** *** Frame sizes *)

Lemma size_value (x : R) :
  exists n : Z,
    (1 <= n)%Z
    /\ JS.max (JS.Num 1) (JS.floor (JS.Num x)) = JS.Num (IZR n)
    /\ (1 <= x -> n = Int_part x)
    /\ (x < 1 -> n = 1%Z).
Proof.
  cbn [JS.floor]. destruct (base_Int_part x) as [Hlo Hhi].
  destruct (Rlt_le_dec x 1) as [Hx|Hx].
  - exists 1%Z. split; [lia|]. split; [|split; [lra|reflexivity]].
    cbn. replace (JS.Rltb 1 (IZR (Int_part x))) with false; [reflexivity|].
    symmetry. apply JS.Rltb_false. lra.
  - assert (Hq : (1 <= Int_part x)%Z).
    { assert (H0 : (0 < Int_part x)%Z) by (apply lt_IZR; lra). lia. }
    exists (Int_part x). split; [exact Hq|].
    split; [|split; [reflexivity|lra]].
    cbn. unfold JS.Rltb. destruct (Rlt_dec 1 (IZR (Int_part x)));
      [reflexivity|].
    f_equal. apply IZR_le in Hq. lra.
Qed.

Section Sizes.

Variable destination : Position -> JS.num -> JS.num -> option Position.
Variable centroid : Feature -> option Position.
Variable distance : Position -> Position -> option JS.num.
Variable bearing : Position -> Position -> option JS.num.
Variable booleanWithin : Feature -> Feature -> option bool.
Variable fuel : nat.

Lemma no_polygon_added (r : Run) :
  Forall (fun _ : Polygon => False) (added r) -> added r = [].
Proof.
  destruct (added r) as [|p ps]; [reflexivity|].
  intros H. inversion H. contradiction.
Qed.

Lemma loop_never_entered (x : JS.num) (next : JS.num -> JS.num) :
  Packer.loopValues fuel x (fun c => (c <? JS.NaN)%js) next = [].
Proof.
  destruct fuel as [|k]; [reflexivity|]. cbn [Packer.loopValues].
  destruct x; reflexivity.
Qed.

(** X9.  A finite stored frame size gives a whole number of modules, at
    least 1: the size rounded down, and 1 for anything below 1 or missing.
    A frame size that is NaN (an emptied input) makes the packer place no
    module at all. *)
Theorem frame_sizes_are_whole (segment : FieldSegment.t) :
  (forall x,
     JS.nullish (FieldSegment.frameSizeWide segment) (JS.Num 1) = JS.Num x ->
     exists n : Z,
       (1 <= n)%Z /\ Packer.sizeWide segment = JS.Num (IZR n)
       /\ (1 <= x -> n = Int_part x) /\ (x < 1 -> n = 1%Z))
  /\ (forall x,
        JS.nullish (FieldSegment.frameSizeUp segment) (JS.Num 1) = JS.Num x ->
        exists n : Z,
          (1 <= n)%Z /\ Packer.sizeUp segment = JS.Num (IZR n)
          /\ (1 <= x -> n = Int_part x) /\ (x < 1 -> n = 1%Z))
  /\ (forall dims region,
        FieldSegment.frameSizeWide segment = Some JS.NaN
        \/ FieldSegment.frameSizeUp segment = Some JS.NaN ->
        added (Packer.layout destination centroid distance bearing
                 booleanWithin fuel segment dims region) = []).
Proof.
  split; [|split].
  - intros x Hx. unfold Packer.sizeWide. rewrite Hx. apply size_value.
  - intros x Hx. unfold Packer.sizeUp. rewrite Hx. apply size_value.
  - intros dims region H. apply no_polygon_added.
    unfold Packer.layout.
    repeat (apply Packer.orThrow_Forall; intros ?).
    apply Packer.forEachRun_Forall. intros yOff.
    apply Packer.orThrow_Forall. intros frameRowBase.
    apply Packer.forEachRun_Forall. intros xOff. unfold Packer.frameAt.
    repeat (apply Packer.orThrow_Forall; intros ?).
    destruct H as [H | H].
    + assert (E : Packer.sizeWide segment = JS.NaN)
        by (unfold Packer.sizeWide; rewrite H; reflexivity).
      rewrite E. apply Packer.forEachRun_Forall. intros r.
      rewrite loop_never_entered. constructor.
    + assert (E : Packer.sizeUp segment = JS.NaN)
        by (unfold Packer.sizeUp; rewrite H; reflexivity).
      rewrite E. rewrite loop_never_entered. constructor.
Qed.

End Sizes.

(** *** The loops over rows and columns *)

(** The loop [for (let x = start; x <= limit; x += step)] of the packer. *)
Definition spanLoop (fuel : nat) (start limit step : JS.num) : list JS.num :=
  Packer.loopValues fuel start (fun x => (x <=? limit)%js)
                    (fun x => (x + step)%js).

Lemma spanLoop_stable (M : nat) (limit step : R) :
  0 < step ->
  forall (start : R) (fuel : nat),
    limit - start < INR M * step ->
    (M <= fuel)%nat ->
    spanLoop fuel (JS.Num start) (JS.Num limit) (JS.Num step)
    = spanLoop M (JS.Num start) (JS.Num limit) (JS.Num step).
Proof.
  intros Hstep. induction M as [|M IH]; intros start fuel Hlim Hfuel.
  - cbn [INR] in Hlim.
    destruct fuel as [|k]; [reflexivity|].
    unfold spanLoop. cbn [Packer.loopValues JS.le].
    replace (JS.Rleb start limit) with false
      by (symmetry; apply JS.Rleb_false; lra).
    reflexivity.
  - destruct fuel as [|k]; [lia|].
    unfold spanLoop in *. cbn [Packer.loopValues JS.le].
    destruct (JS.Rleb start limit); [|reflexivity].
    f_equal. cbn [JS.add]. apply IH; [|lia].
    rewrite S_INR in Hlim. lra.
Qed.

Lemma spanLoop_ends (start limit step : R) :
  0 < step ->
  exists n : nat,
    forall fuel, (n <= fuel)%nat ->
      spanLoop fuel (JS.Num start) (JS.Num limit) (JS.Num step)
      = spanLoop n (JS.Num start) (JS.Num limit) (JS.Num step).
Proof.
  intros Hstep.
  destruct (INR_unbounded ((limit - start) / step)) as [M HM].
  exists M. intros fuel Hfuel.
  apply spanLoop_stable; [exact Hstep| |exact Hfuel].
  assert (H : (limit - start) / step * step < INR M * step) by nra.
  replace ((limit - start) / step * step) with (limit - start) in H
    by (field; lra).
  exact H.
Qed.

Lemma spanLoop_zero_step (start limit : R) (fuel : nat) :
  start <= limit ->
  spanLoop fuel (JS.Num start) (JS.Num limit) (JS.Num 0)
  = repeat (JS.Num start) fuel.
Proof.
  intros Hle. unfold spanLoop. induction fuel as [|k IH]; [reflexivity|].
  cbn [Packer.loopValues JS.le repeat].
  replace (JS.Rleb start limit) with true
    by (symmetry; apply JS.Rleb_true; exact Hle).
  f_equal. cbn [JS.add]. replace (start + 0) with start by lra. exact IH.
Qed.

Lemma frame_extent (n : Z) (m g : R) :
  (1 <= n)%Z -> 0 < m -> 0 <= g -> m <= IZR n * m + (IZR n - 1) * g.
Proof.
  intros Hn Hm Hg. apply IZR_le in Hn.
  assert (0 <= (IZR n - 1) * g) by (apply Rmult_le_pos; lra).
  assert (0 <= (IZR n - 1) * m) by (apply Rmult_le_pos; lra).
  lra.
Qed.

Lemma frame_values (segment : FieldSegment.t) (dims : Dims) (w h a b : R) :
  width dims = JS.Num w -> height dims = JS.Num h -> 0 < w -> 0 < h ->
  JS.nullish (FieldSegment.frameSizeWide segment) (JS.Num 1) = JS.Num a ->
  JS.nullish (FieldSegment.frameSizeUp segment) (JS.Num 1) = JS.Num b ->
  exists mw mh fw fh sx sy,
    Packer.moduleW segment dims = JS.Num mw
    /\ Packer.moduleH segment dims = JS.Num mh
    /\ Packer.frameW segment dims = JS.Num fw
    /\ Packer.frameH segment dims = JS.Num fh
    /\ Packer.stepX segment dims = JS.Num sx
    /\ Packer.stepY segment dims = JS.Num sy
    /\ 0 < mw <= fw /\ fw <= sx /\ 0 < mh <= fh /\ fh <= sy.
Proof.
  intros Hw Hh Hwp Hhp Ha Hb.
  destruct (moduleSpacing_value segment) as [g [Eg [Hg _]]].
  destruct (clamped_meters
              (JS.or_else
                 (JS.nullish (FieldSegment.frameSpacing segment) (JS.Num 0))
                 (JS.Num 0))) as [f [Ef Hf]].
  destruct (clamped_meters
              (JS.or_else
                 (JS.nullish (FieldSegment.rowSpacing segment) (JS.Num 0))
                 (JS.Num 0))) as [r [Er Hr]].
  fold (Packer.frameSpacing segment) in Ef.
  fold (Packer.rowSpacing segment) in Er.
  destruct (size_value a) as [n [Hn [En _]]].
  destruct (size_value b) as [m [Hm [Em _]]].
  assert (Emw : exists mw, Packer.moduleW segment dims = JS.Num mw /\ 0 < mw).
  { unfold Packer.moduleW. rewrite Hw, Hh.
    destruct (Packer.isPortrait segment).
    - destruct (max_zero_value h) as [v [Ev [_ Hv]]]. exists v.
      split; [exact Ev|]. rewrite Hv; lra.
    - destruct (max_zero_value w) as [v [Ev [_ Hv]]]. exists v.
      split; [exact Ev|]. rewrite Hv; lra. }
  assert (Emh : exists mh, Packer.moduleH segment dims = JS.Num mh /\ 0 < mh).
  { unfold Packer.moduleH. rewrite Hw, Hh.
    destruct (Packer.isPortrait segment).
    - destruct (max_zero_value w) as [v [Ev [_ Hv]]]. exists v.
      split; [exact Ev|]. rewrite Hv; lra.
    - destruct (max_zero_value h) as [v [Ev [_ Hv]]]. exists v.
      split; [exact Ev|]. rewrite Hv; lra. }
  destruct Emw as [mw [Emw Hmw]]. destruct Emh as [mh [Emh Hmh]].
  exists mw, mh, (IZR n * mw + (IZR n - 1) * g),
         (IZR m * mh + (IZR m - 1) * g),
         (IZR n * mw + (IZR n - 1) * g + f),
         (IZR m * mh + (IZR m - 1) * g + r).
  assert (Esw : Packer.sizeWide segment = JS.Num (IZR n))
    by (unfold Packer.sizeWide; rewrite Ha; exact En).
  assert (Esu : Packer.sizeUp segment = JS.Num (IZR m))
    by (unfold Packer.sizeUp; rewrite Hb; exact Em).
  pose proof (frame_extent n mw g Hn Hmw (Rlt_le _ _ Hg)) as Hfw.
  pose proof (frame_extent m mh g Hm Hmh (Rlt_le _ _ Hg)) as Hfh.
  unfold Packer.stepX, Packer.stepY, Packer.frameW, Packer.frameH.
  rewrite Emw, Emh, Esw, Esu, Eg, Ef, Er. cbn [JS.add JS.mul JS.sub].
  repeat (split; [first [reflexivity | lra]|]). lra.
Qed.

(** X10.  For a module of positive width and height and finite frame
    sizes, a frame is at least one module wide and high, the step from one
    frame to the next is at least the frame, and so the loops over the
    columns and over the rows end by their own test: from some number of
    turns on, following them further changes nothing. *)
Theorem frame_loops_end (segment : FieldSegment.t) (dims : Dims)
        (w h a b : R) :
  width dims = JS.Num w -> height dims = JS.Num h -> 0 < w -> 0 < h ->
  JS.nullish (FieldSegment.frameSizeWide segment) (JS.Num 1) = JS.Num a ->
  JS.nullish (FieldSegment.frameSizeUp segment) (JS.Num 1) = JS.Num b ->
  (exists mw mh fw fh sx sy,
     Packer.moduleW segment dims = JS.Num mw
     /\ Packer.moduleH segment dims = JS.Num mh
     /\ Packer.frameW segment dims = JS.Num fw
     /\ Packer.frameH segment dims = JS.Num fh
     /\ Packer.stepX segment dims = JS.Num sx
     /\ Packer.stepY segment dims = JS.Num sy
     /\ 0 < mw <= fw /\ fw <= sx /\ 0 < mh <= fh /\ fh <= sy)
  /\ (forall start limit : R,
        exists n : nat,
          forall fuel, (n <= fuel)%nat ->
            Packer.loopValues fuel (JS.Num start)
              (fun xOff => (xOff <=? JS.Num limit)%js)
              (fun xOff => (xOff + Packer.stepX segment dims)%js)
            = Packer.loopValues n (JS.Num start)
                (fun xOff => (xOff <=? JS.Num limit)%js)
                (fun xOff => (xOff + Packer.stepX segment dims)%js))
  /\ (forall start limit : R,
        exists n : nat,
          forall fuel, (n <= fuel)%nat ->
            Packer.loopValues fuel (JS.Num start)
              (fun yOff => (yOff <=? JS.Num limit)%js)
              (fun yOff => (yOff + Packer.stepY segment dims)%js)
            = Packer.loopValues n (JS.Num start)
                (fun yOff => (yOff <=? JS.Num limit)%js)
                (fun yOff => (yOff + Packer.stepY segment dims)%js)).
Proof.
  intros Hw Hh Hwp Hhp Ha Hb.
  pose proof (frame_values segment dims w h a b Hw Hh Hwp Hhp Ha Hb) as HV.
  split; [exact HV|].
  destruct HV as [mw [mh [fw [fh [sx [sy
    [_ [_ [_ [_ [Esx [Esy [Hmw [Hfw [Hmh Hfh]]]]]]]]]]]]]]].
  rewrite Esx, Esy. split; intros start limit.
  - apply (spanLoop_ends start limit sx). lra.
  - apply (spanLoop_ends start limit sy). lra.
Qed.

(** X30.  The offsets a loop of the packer visits are start,
    start + step, start + 2 step, ..., each of them at most the limit:
    the frames of a row are one step apart, and so are the rows. *)
Theorem frames_are_evenly_spaced (fuel : nat) (limit step start : R) :
  let visited :=
    Packer.loopValues fuel (JS.Num start)
      (fun xOff => (xOff <=? JS.Num limit)%js)
      (fun xOff => (xOff + JS.Num step)%js) in
  visited = map (fun k => JS.Num (start + INR k * step))
                (seq 0 (length visited))
  /\ Forall (fun v => (v <=? JS.Num limit)%js = true) visited.
Proof.
  cbn zeta. revert start.
  induction fuel as [|k IH]; intros start; [split; [reflexivity|constructor]|].
  cbn [Packer.loopValues].
  destruct (JS.Num start <=? JS.Num limit)%js eqn:Hc;
    [|split; [reflexivity|constructor]].
  cbn [JS.add]. destruct (IH (start + step)) as [Hv Hall].
  split; [|constructor; assumption].
  cbn [length seq map]. f_equal; [f_equal; cbn [INR]; lra|].
  rewrite Hv at 1. rewrite <- seq_shift, map_map.
  apply map_ext. intros i. f_equal. rewrite S_INR. lra.
Qed.

(** X11.  A module whose height is 0 (a stored length of 0), in frames one
    module high with no row spacing, makes the rows step by 0 from offset
    0: the loop over the rows never ends by its own test, however many
    turns it is followed for. *)
Theorem flat_module_rows_never_end (segment : FieldSegment.t) (dims : Dims)
        (heightM : R) (fuel : nat) :
  Packer.moduleH segment dims = JS.Num 0 ->
  Packer.sizeUp segment = JS.Num 1 ->
  Packer.rowSpacing segment = JS.Num 0 ->
  0 <= heightM ->
  Packer.loopValues fuel (Packer.frameH segment dims / JS.Num 2)%js
    (fun yOff =>
       (yOff <=? JS.Num heightM - Packer.frameH segment dims / JS.Num 2
                 + JS.Num (1 / 1000000))%js)
    (fun yOff => (yOff + Packer.stepY segment dims)%js)
  = repeat (JS.Num 0) fuel.
Proof.
  intros HmH Hup Hrow Hh.
  destruct (moduleSpacing_value segment) as [g [Eg _]].
  assert (EfH : Packer.frameH segment dims = JS.Num 0).
  { unfold Packer.frameH. rewrite HmH, Hup, Eg.
    cbn [JS.add JS.mul JS.sub JS.neg]. f_equal. lra. }
  assert (EsY : Packer.stepY segment dims = JS.Num 0).
  { unfold Packer.stepY. rewrite EfH, Hrow. cbn [JS.add]. f_equal. lra. }
  rewrite EfH, EsY.
  assert (E2 : (JS.Num 0 / JS.Num 2)%js = JS.Num 0).
  { unfold JS.div, JS.Reqb. destruct (Req_dec_T 2 0); [lra|].
    f_equal. lra. }
  rewrite E2. cbn [JS.sub JS.add JS.neg].
  apply (spanLoop_zero_step 0 (heightM + - 0 + 1 / 1000000) fuel). lra.
Qed.

(** *** The buildable region and the ring given to turf *)

Section Region.

Variable destination : Position -> JS.num -> JS.num -> option Position.
Variable buffer : Feature -> JS.num -> BufferResult.
Variable area : Feature -> JS.num.
Variable centroid : Feature -> option Position.
Variable distance : Position -> Position -> option JS.num.
Variable bearing : Position -> Position -> option JS.num.
Variable booleanWithin : Feature -> Feature -> option bool.
Variable moduleDims : string -> option Dims.
Variable fuel : nat.

Lemma largestPiece_is_a_piece (parts : list (list (list Position))) :
  forall (maxA : JS.num) (best : option Feature) (res : Feature),
    Packer.largestPiece area parts maxA best = Some (Some res) ->
    best = Some res \/ exists coords, In coords parts /\ res = TPolygon coords.
Proof.
  induction parts as [|coords rest IH]; intros maxA best res H;
    cbn [Packer.largestPiece] in H.
  - left. congruence.
  - unfold Shadows.turf_polygon in H.
    destruct (forallb Shadows.validRing coords); [|discriminate].
    destruct (area (TPolygon coords) >? maxA)%js.
    + apply IH in H. destruct H as [H | [c [Hc E]]].
      * right. exists coords. split; [left; reflexivity|congruence].
      * right. exists c. split; [right; exact Hc|exact E].
    + apply IH in H. destruct H as [H | [c [Hc E]]].
      * left. exact H.
      * right. exists c. split; [right; exact Hc|exact E].
Qed.

(** X12.  The buildable region of a ring is always one polygon: the ring
    itself, the polygon turf's buffer gave, or one piece of the
    multi-polygon it gave.  When the buffer throws, gives nothing (the
    setback ate the whole roof) or gives a multi-polygon without pieces,
    the region is the whole ring again, as if there were no setback. *)
Theorem region_is_one_polygon (segment : FieldSegment.t)
        (rs : list (list Position)) :
  let sb := Packer.setbackMeters segment in
  (exists rs',
     Packer.inset buffer area segment (TPolygon rs) = TPolygon rs'
     /\ (rs' = rs
         \/ buffer (TPolygon rs) (JS.neg sb) = BFeature (TPolygon rs')
         \/ exists parts,
              buffer (TPolygon rs) (JS.neg sb) = BFeature (TMultiPolygon parts)
              /\ In rs' parts))
  /\ (buffer (TPolygon rs) (JS.neg sb) = BThrows
      \/ buffer (TPolygon rs) (JS.neg sb) = BUndefined
      \/ buffer (TPolygon rs) (JS.neg sb) = BFeature (TMultiPolygon []) ->
      Packer.inset buffer area segment (TPolygon rs) = TPolygon rs).
Proof.
  intros sb. subst sb. unfold Packer.inset. split.
  - destruct (negb _ || _); [exists rs; split; [reflexivity|left; reflexivity]|].
    destruct (buffer (TPolygon rs) (JS.neg (Packer.setbackMeters segment)))
      as [| |[rs'|parts]] eqn:Hb.
    + exists rs. split; [reflexivity|left; reflexivity].
    + exists rs. split; [reflexivity|left; reflexivity].
    + exists rs'. split; [reflexivity|right; left; reflexivity].
    + destruct (Packer.largestPiece area parts JS.NInf None)
        as [[best|]|] eqn:Hl;
        try (exists rs; split; [reflexivity|left; reflexivity]).
      apply largestPiece_is_a_piece in Hl.
      destruct Hl as [Hl | [coords [Hin ->]]]; [discriminate|].
      exists coords. split; [reflexivity|].
      right; right. exists parts. split; [reflexivity|exact Hin].
  - intros H. destruct (negb _ || _); [reflexivity|].
    destruct H as [-> | [-> | ->]]; reflexivity.
Qed.

(** X13.  [toTurfPolygon] gives turf the ring of the shell, with the first
    vertex appended when the shell does not end where it starts; what it
    returns is one closed ring of at least four positions.  A shell of
    fewer than three vertices makes it throw. *)
Theorem ring_is_closed_for_turf (shell : list Coord.t) :
  (forall f, Packer.toTurfPolygon shell = Some f ->
     exists p ring,
       f = TPolygon [ring]
       /\ hd_error (map Shadows.toPosition shell) = Some p
       /\ (ring = map Shadows.toPosition shell
           \/ ring = (map Shadows.toPosition shell ++ [p])%list)
       /\ Shadows.samePosition (last ring p) p = true
       /\ (4 <= length ring)%nat /\ (3 <= length shell)%nat)
  /\ ((length shell <= 2)%nat -> Packer.toTurfPolygon shell = None).
Proof.
  unfold Packer.toTurfPolygon, Shadows.turf_polygon. cbn [forallb].
  rewrite andb_true_r. split.
  - intros f H.
    destruct (map Shadows.toPosition shell) as [|p rest] eqn:Hring.
    + discriminate H.
    + assert (Hlen : length shell = S (length rest)).
      { rewrite <- (length_map Shadows.toPosition shell), Hring.
        reflexivity. }
      exists p.
      destruct (JS.sne (fst p) (fst (last (p :: rest) p))
                || JS.sne (snd p) (snd (last (p :: rest) p))) eqn:Hopen.
      * destruct (Shadows.validRing ((p :: rest) ++ [p])) eqn:Hv;
          [|discriminate H].
        injection H as <-. exists ((p :: rest) ++ [p])%list.
        unfold Shadows.validRing in Hv. apply andb_prop in Hv.
        destruct Hv as [H4 Hsame]. apply Nat.leb_le in H4.
        cbn [app] in Hsame.
        repeat (split; [first [reflexivity | right; reflexivity
                              | exact Hsame | exact H4]|]).
        cbn [app length] in H4. rewrite length_app in H4.
        cbn [length] in H4. lia.
      * destruct (Shadows.validRing (p :: rest)) eqn:Hv; [|discriminate H].
        injection H as <-. exists (p :: rest).
        unfold Shadows.validRing in Hv. apply andb_prop in Hv.
        destruct Hv as [H4 Hsame]. apply Nat.leb_le in H4.
        repeat (split; [first [reflexivity | left; reflexivity
                              | exact Hsame | exact H4]|]).
        cbn [length] in H4. lia.
  - intros Hlen.
    assert (Hm : (length (map Shadows.toPosition shell) <= 2)%nat)
      by (rewrite length_map; exact Hlen).
    destruct (map Shadows.toPosition shell) as [|p rest]; [reflexivity|].
    assert (Hshort : forall ring : list Position,
              (length ring <= 3)%nat -> Shadows.validRing ring = false).
    { intros ring Hr. unfold Shadows.validRing.
      replace (4 <=? length ring)%nat with false
        by (symmetry; apply Nat.leb_gt; lia).
      reflexivity. }
    destruct (_ || _); rewrite Hshort; try reflexivity.
    + cbn [app length]. rewrite length_app. cbn [length] in *. lia.
    + exact (Nat.le_trans _ _ _ Hm (Nat.le_succ_diag_r 2)).
Qed.

(** X14.  A segment whose ring has fewer than three vertices makes the
    layout effect throw where it hands the ring to turf: it gets no
    module, and no segment after it in the list gets one either. *)
Theorem degenerate_ring_stops_the_layout
        (segment : FieldSegment.t) (shell : list Coord.t)
        (before after : list FieldSegment.t) :
  FieldSegment.geometry segment = Some shell ->
  (length shell <= 2)%nat ->
  (forall s, In s before ->
     returned (Packer.segmentModules destination buffer area centroid
                 distance bearing booleanWithin moduleDims fuel s) = true) ->
  Packer.modulesLayer destination buffer area centroid distance bearing
    booleanWithin moduleDims fuel (before ++ segment :: after)
  = mkRun (added (Packer.modulesLayer destination buffer area centroid
                    distance bearing booleanWithin moduleDims fuel before))
          false.
Proof.
  intros Hg Hlen Hbefore. unfold Packer.modulesLayer.
  apply ShadowFacts.forEachRun_stops; [exact Hbefore|].
  unfold Packer.segmentModules. rewrite Hg.
  assert (E : Packer.toTurfPolygon shell = None).
  { unfold Packer.toTurfPolygon.
    assert (Hm : (length (map Shadows.toPosition shell) <= 2)%nat)
      by (rewrite length_map; exact Hlen).
    destruct (map Shadows.toPosition shell) as [|p rest]; [reflexivity|].
    destruct (_ || _); apply ShadowFacts.short_ring_invalid.
    - cbn [app length]. rewrite length_app. cbn [length] in *. lia.
    - lia. }
  rewrite E. reflexivity.
Qed.

End Region.

End PackerFacts.

(* ===================================================================== *)
(** ** Drawing: what the handler asks of the draw tool *)
(* ===================================================================== *)

Module DrawFacts.

Section Calls.

Variable distance : Position -> Position -> option JS.num.

(** The start the cursor snaps to: the start marker, or else the first
    vertex, without its altitude. *)
Definition snapTarget (st : Draw.Editor) (first : Coord.t) : Coord.t :=
  let startCoord :=
    match Draw.startMarker st with
    | Some c => c
    | None => Coord.xy (Coord.x first) (Coord.y first)
    end in
  Coord.xy (Coord.x startCoord) (Coord.y startCoord).

(** The calls of one move: none, or the snap of the last coordinate,
    followed by [endDraw] when the latch was clear. *)
Lemma calls_of_a_move (st : Draw.Editor) (e : Draw.MouseMove) :
  snd (Draw.handleMouseMove distance st e) = []
  \/ exists mouseCoord first rest,
       Draw.activeTool e = Draw.tool_draw
       /\ Draw.coordinate e = Some mouseCoord
       /\ Draw.currentGeom e = Some (first :: rest)
       /\ (3 <= length (first :: rest))%nat
       /\ Draw.closingSnap distance mouseCoord (first :: rest)
                           (Draw.resolution e) = Some true
       /\ snd (Draw.handleMouseMove distance st e)
          = Draw.SetCoordinates
              (Draw.setLast (first :: rest) (snapTarget st first))
            :: (if Draw.autoClosing st then [] else [Draw.EndDraw])
       /\ Draw.autoClosing (fst (Draw.handleMouseMove distance st e)) = true.
Proof.
  unfold Draw.handleMouseMove.
  destruct (Draw.activeTool e) eqn:Ht; cbn [Draw.isDraw negb orb];
    try (left; reflexivity).
  destruct (negb (Draw.mapReady e)); [left; reflexivity|].
  destruct (Draw.coordinate e) as [mouseCoord|]; [|left; reflexivity].
  destruct (JS.isNaN _ || JS.isNaN _); [left; reflexivity|].
  destruct (Draw.currentGeom e) as [[|first rest]|];
    try (left; reflexivity).
  destruct (Draw.closingSnap distance mouseCoord (first :: rest)
                             (Draw.resolution e))
    as [[|]|] eqn:Hsnap; try (left; reflexivity).
  destruct (2 <? length (first :: rest))%nat eqn:Hlen; cbn [andb];
    [|left; reflexivity].
  right. exists mouseCoord, first, rest.
  apply Nat.ltb_lt in Hlen.
  repeat (split; [first [exact Hsnap | reflexivity | cbn [length] in *; lia]|]).
  unfold snapTarget. destruct (Draw.autoClosing st); cbn; split; reflexivity.
Qed.

(** X15.  The handler of the mouse calls [endDraw] only when the draw tool
    is active, the ring being drawn has at least three coordinates, the
    cursor is within the snap distance of its first vertex, and the latch
    is clear; and it never calls [endDraw] without having first set the
    last coordinate of the ring onto the start.  The latch is set
    afterwards. *)
Theorem auto_close_needs_a_clear_latch (st : Draw.Editor)
        (e : Draw.MouseMove) :
  In Draw.EndDraw (snd (Draw.handleMouseMove distance st e)) ->
  Draw.autoClosing st = false
  /\ Draw.autoClosing (fst (Draw.handleMouseMove distance st e)) = true
  /\ Draw.activeTool e = Draw.tool_draw
  /\ exists mouseCoord first rest,
       Draw.coordinate e = Some mouseCoord
       /\ Draw.currentGeom e = Some (first :: rest)
       /\ (3 <= length (first :: rest))%nat
       /\ Draw.closingSnap distance mouseCoord (first :: rest)
                           (Draw.resolution e) = Some true
       /\ snd (Draw.handleMouseMove distance st e)
          = [Draw.SetCoordinates
               (Draw.setLast (first :: rest) (snapTarget st first));
             Draw.EndDraw].
Proof.
  intros Hin.
  destruct (calls_of_a_move st e)
    as [E | [mouseCoord [first [rest [Ht [Hc [Hg [Hlen [Hs [E Hl]]]]]]]]]].
  - rewrite E in Hin. destruct Hin.
  - rewrite E in Hin. destruct (Draw.autoClosing st) eqn:Ha.
    + destruct Hin as [Hin | []]. discriminate Hin.
    + split; [reflexivity|]. split; [exact Hl|]. split; [exact Ht|].
      exists mouseCoord, first, rest. repeat (split; [assumption|]).
      exact E.
Qed.

(** X16.  When the handler of the mouse rewrites the ring being drawn, it
    changes the last coordinate (the one under the cursor) and nothing
    else: the ring keeps its length and every vertex already set, and the
    last coordinate becomes the start, in two dimensions. *)
Theorem snap_moves_only_the_cursor_vertex (st : Draw.Editor)
        (e : Draw.MouseMove) (updated : list Coord.t) :
  In (Draw.SetCoordinates updated)
     (snd (Draw.handleMouseMove distance st e)) ->
  exists first rest,
    Draw.currentGeom e = Some (first :: rest)
    /\ length updated = length (first :: rest)
    /\ removelast updated = removelast (first :: rest)
    /\ hd_error updated = Some first
    /\ last updated first = snapTarget st first
    /\ Coord.z (last updated first) = None.
Proof.
  intros Hin.
  destruct (calls_of_a_move st e)
    as [E | [mouseCoord [first [rest [Ht [Hc [Hg [Hlen [Hs [E Hl]]]]]]]]]].
  - rewrite E in Hin. destruct Hin.
  - rewrite E in Hin.
    assert (Hu : updated
                 = Draw.setLast (first :: rest) (snapTarget st first)).
    { destruct Hin as [Hin | Hin]; [congruence|].
      destruct (Draw.autoClosing st); [destruct Hin|].
      destruct Hin as [Hin | []]. discriminate Hin. }
    subst updated. exists first, rest.
    destruct (Draw.setLast_spec (first :: rest) (snapTarget st first) first)
      as [H1 [H2 H3]]; [discriminate|].
    split; [exact Hg|]. split; [exact H1|]. split; [exact H2|].
    split; [|split; [exact H3|rewrite H3; reflexivity]].
    unfold Draw.setLast.
    destruct rest as [|r rest']; [cbn in Hlen; lia|]. reflexivity.
Qed.

(** X17.  The listener of [drawend], which runs within [endDraw], takes
    the "Click to close" hint away; the handler of the mouse then goes on
    and, finding the cursor on the start marker and no hint, puts a new
    one there.  So after an auto-close with a start marker the hint is on
    the map again, and the symbol of the draw tool is the default one. *)
Theorem hint_is_back_after_auto_close (st : Draw.Editor)
        (e : Draw.MouseMove) (start : Coord.t) :
  In Draw.EndDraw (snd (Draw.handleMouseMove distance st e)) ->
  Draw.startMarker st = Some start ->
  Draw.closeHintLabel (fst (Draw.handleMouseMove distance st e)) = Some start
  /\ Draw.toolSymbol (fst (Draw.handleMouseMove distance st e))
     = Draw.defaultSymbol
  /\ option_map Draw.ghostShown
       (Draw.ghostMarker (fst (Draw.handleMouseMove distance st e)))
     = Some false.
Proof.
  intros Hin Hstart. revert Hin. unfold Draw.handleMouseMove.
  destruct (negb (Draw.isDraw (Draw.activeTool e))
            || negb (Draw.mapReady e)); [intros []|].
  destruct (Draw.coordinate e) as [mouseCoord|]; [|intros []].
  destruct (JS.isNaN _ || JS.isNaN _); [intros []|].
  destruct (Draw.currentGeom e) as [[|first rest]|]; try (intros []).
  destruct (Draw.closingSnap distance mouseCoord (first :: rest)
                             (Draw.resolution e))
    as [[|]|]; try (intros []).
  destruct (2 <? length (first :: rest))%nat; cbn [andb]; [|intros []].
  destruct (Draw.autoClosing st); cbn [negb].
  - cbn. intros [H | []]. discriminate H.
  - intros _. rewrite Hstart. cbn. repeat split; reflexivity.
Qed.

End Calls.
End DrawFacts.

(* ===================================================================== *)
(** ** The segment store: rows, segments and what is saved *)
(* ===================================================================== *)

Module Store.
Local Open Scope string_scope.

(** An object with the column names of [field_segments] as keys; [None]
    is a key that is missing or holds [null]. *)
Record Columns : Type := mkColumns {
  design_id : option string;
  geometry : option (list Coord.t);
  area : option JS.num;
  description : option string;
  module : option string;
  racking : option string;
  surface_height : option JS.num;
  racking_height : option JS.num;
  parapet_height : option JS.num;
  module_azimuth : option JS.num;
  module_tilt : option JS.num;
  span_rise : option JS.num;
  gcr : option JS.num;
  time_of_day : option string;
  analysis_date : option string;
  start_time : option string;
  end_time : option string;
  frame_size_up : option JS.num;
  frame_size_wide : option JS.num;
  default_orientation : option string;
  row_spacing : option JS.num;
  module_spacing : option JS.num;
  frame_spacing : option JS.num;
  setback : option JS.num;
  alignment : option string
}.

(** A row as the store returns it. *)
Record Row : Type := mkRow {
  id : string;
  created_at : option string;
  updated_at : option string;
  columns : Columns
}.

(** A field segment of the editor: the attributes the geometry is built
    from, and the others. *)
Record Segment : Type := mkSegment {
  core : FieldSegment.t;
  designId : option string;
  segmentArea : option JS.num;
  segmentDescription : option string;
  segmentRacking : option string;
  moduleTilt : option JS.num;
  spanRise : option JS.num;
  segmentGcr : option JS.num;
  createdAt : option string;
  updatedAt : option string
}.

(** [v ?? d], kept as a value that is there. *)
Definition orDefault {A : Type} (v : option A) (d : A) : option A :=
  Some (JS.nullish v d).

Section Mapping.

(** [dec22ThisYear()] *)
Variable dec22ThisYear : string.

(** [mapDbToSegment] *)
Definition mapDbToSegment (row : Row) : Segment :=
  let c := columns row in
  mkSegment
    (FieldSegment.mk
       (id row) (geometry c)
       (orDefault (surface_height c) (JS.Num 0)) None
       (orDefault (racking_height c) (JS.Num 0)) None
       (orDefault (parapet_height c) (JS.Num 0)) None
       (orDefault (analysis_date c) dec22ThisYear)
       (orDefault (start_time c) "10:00")
       (orDefault (time_of_day c) "10:00")
       (orDefault (end_time c) "16:00")
       (module c)
       (orDefault (default_orientation c) "Landscape")
       (orDefault (module_spacing c) (JS.Num 0.041))
       (orDefault (frame_spacing c) (JS.Num 0))
       (orDefault (row_spacing c) (JS.Num 2))
       (orDefault (frame_size_wide c) (JS.Num 1))
       (orDefault (frame_size_up c) (JS.Num 1))
       (orDefault (module_azimuth c) (JS.Num 180))
       (orDefault (setback c) (JS.Num 4))
       (orDefault (alignment c) "center"))
    (design_id c) (area c) (description c) (racking c)
    (orDefault (module_tilt c) (JS.Num 10))
    (orDefault (span_rise c) (JS.Num 1.4))
    (orDefault (gcr c) (JS.Num 0.81))
    (created_at row) (updated_at row).

(** [newSegmentData] of the [drawend] listener, for the geometry drawn,
    its area and the number of segments there are. *)
Definition newSegmentData (design : string) (drawn : list Coord.t)
           (drawnArea : JS.num) (count : nat) : Columns :=
  mkColumns
    (Some design) (Some drawn) (Some drawnArea)
    (Some ("Field Segment " ++ Clock.String_ (Z.of_nat (count + 1))))
    None (Some "Fixed Tilt Racking")
    (Some (JS.Num 0)) (Some (JS.Num 0)) (Some (JS.Num 0))
    (Some (JS.Num 180)) (Some (JS.Num 10))
    (Some (JS.Num 1.4)) (Some (JS.Num 0.81))
    (Some "10:00") (Some dec22ThisYear) (Some "10:00") (Some "16:00")
    (Some (JS.Num 1)) (Some (JS.Num 1)) (Some "Landscape")
    (Some (JS.Num 2)) (Some (JS.Num 0.041)) (Some (JS.Num 0))
    (Some (JS.Num 4)) (Some "center").

End Mapping.

(** [stripSun]: the object without the keys [span_rise], [gcr],
    [time_of_day], [analysis_date], [start_time], [end_time] and
    [parapet_height]. *)
Definition stripSun (c : Columns) : Columns :=
  mkColumns
    (design_id c) (geometry c) (area c) (description c) (module c)
    (racking c) (surface_height c) (racking_height c) None
    (module_azimuth c) (module_tilt c) None None None None None None
    (frame_size_up c) (frame_size_wide c) (default_orientation c)
    (row_spacing c) (module_spacing c) (frame_spacing c) (setback c)
    (alignment c).

(** The [payload] of the auto-save: the attributes of the selected
    segment under their column names; [design_id], [geometry] and [area]
    are left out. *)
Definition payload (s : Segment) : Columns :=
  let f := core s in
  mkColumns
    None None None
    (segmentDescription s) (FieldSegment.module f) (segmentRacking s)
    (FieldSegment.surfaceHeight f) (FieldSegment.rackingHeight f)
    (FieldSegment.parapetHeight f) (FieldSegment.moduleAzimuth f)
    (moduleTilt s) (spanRise s) (segmentGcr s)
    (FieldSegment.timeOfDay f) (FieldSegment.analysisDate f)
    (FieldSegment.startTime f) (FieldSegment.endTime f)
    (FieldSegment.frameSizeUp f) (FieldSegment.frameSizeWide f)
    (FieldSegment.defaultOrientation f) (FieldSegment.rowSpacing f)
    (FieldSegment.moduleSpacing f) (FieldSegment.frameSpacing f)
    (FieldSegment.setback f) (FieldSegment.alignment f).

End Store.

Module StoreFacts.
Local Open Scope string_scope.

Section Creation.

Variable dec22ThisYear : string.

Lemma default_kept {A : Type} (v : option A) (d : A) :
  Store.orDefault v d = Some d <-> JS.nullish v d = d.
Proof.
  unfold Store.orDefault. split; [intros [= H]; exact H|intros ->; reflexivity].
Qed.

(** X18.  Mapping a row without the seven keys that [stripSun] drops gives
    the same segment as mapping the row itself exactly when each of the
    seven columns is null or holds the default [mapDbToSegment] falls
    back to.  The row of a new drawing is such a row: when its insert is
    retried without the seven keys, the segment that comes back is the one
    the first insert would have given. *)
Theorem retry_without_sun_columns (id : string)
        (created updated : option string) :
  (forall c : Store.Columns,
     Store.mapDbToSegment dec22ThisYear
       (Store.mkRow id created updated (Store.stripSun c))
     = Store.mapDbToSegment dec22ThisYear (Store.mkRow id created updated c)
     <-> (JS.nullish (Store.parapet_height c) (JS.Num 0) = JS.Num 0
          /\ JS.nullish (Store.span_rise c) (JS.Num 1.4) = JS.Num 1.4
          /\ JS.nullish (Store.gcr c) (JS.Num 0.81) = JS.Num 0.81
          /\ JS.nullish (Store.time_of_day c) "10:00" = "10:00"
          /\ JS.nullish (Store.analysis_date c) dec22ThisYear = dec22ThisYear
          /\ JS.nullish (Store.start_time c) "10:00" = "10:00"
          /\ JS.nullish (Store.end_time c) "16:00" = "16:00"))
  /\ (forall design drawn drawnArea count,
        Store.mapDbToSegment dec22ThisYear
          (Store.mkRow id created updated
             (Store.stripSun
                (Store.newSegmentData dec22ThisYear design drawn drawnArea
                                      count)))
        = Store.mapDbToSegment dec22ThisYear
            (Store.mkRow id created updated
               (Store.newSegmentData dec22ThisYear design drawn drawnArea
                                     count))).
Proof.
  split; [|reflexivity].
  intros c. unfold Store.mapDbToSegment, Store.stripSun.
  cbn [Store.columns Store.id Store.created_at Store.updated_at
       Store.design_id Store.geometry Store.area Store.description
       Store.module Store.racking Store.surface_height Store.racking_height
       Store.parapet_height Store.module_azimuth Store.module_tilt
       Store.span_rise Store.gcr Store.time_of_day Store.analysis_date
       Store.start_time Store.end_time Store.frame_size_up
       Store.frame_size_wide Store.default_orientation Store.row_spacing
       Store.module_spacing Store.frame_spacing Store.setback
       Store.alignment].
  split.
  - intros H. injection H as Hg Hs Hpar Hdate Hstart Htod Hend.
    unfold Store.orDefault in *. cbn [JS.nullish] in *.
    repeat split; congruence.
  - intros [Hpar [Hs [Hg [Htod [Hdate [Hstart Hend]]]]]].
    unfold Store.orDefault. cbn [JS.nullish].
    rewrite Hpar, Hs, Hg, Htod, Hdate, Hstart, Hend. reflexivity.
Qed.

End Creation.

Section FreshSegment.

Variable getPosition : Clock.JSDate -> JS.num -> JS.num -> SunLookup.
Variable destination : Position -> JS.num -> JS.num -> option Position.
Variable union : Feature -> Feature -> UnionResult.
Variable dec22ThisYear : string.
Variables lat lng : JS.num.
Variable buffer : Feature -> JS.num -> BufferResult.
Variable area : Feature -> JS.num.
Variable centroid : Feature -> option Position.
Variable distance : Position -> Position -> option JS.num.
Variable bearing : Position -> Position -> option JS.num.
Variable booleanWithin : Feature -> Feature -> option bool.
Variable moduleDims : string -> option Dims.
Variable fuel : nat.

(** The segment the editor holds for a new drawing, when the store
    returns the row as it was inserted. *)
Definition fresh (id design : string) (drawn : list Coord.t)
           (drawnArea : JS.num) (count : nat) : FieldSegment.t :=
  Store.core
    (Store.mapDbToSegment dec22ThisYear
       (Store.mkRow id None None
          (Store.newSegmentData dec22ThisYear design drawn drawnArea count))).

(** X19.  A segment as it comes out of a new drawing has no height, so it
    casts no shadow at any time of its window, wherever the sun is; it
    has no module, so the packer places nothing on it; its setback is
    4 ft, that is 1.2192 m; and its window is sampled every minute from
    10:00 to 16:00. *)
Theorem new_segment_is_bare (id design : string) (drawn : list Coord.t)
        (drawnArea : JS.num) (count : nat) :
  let segment := fresh id design drawn drawnArea count in
  Shadows.segHeightM segment = JS.Num ((0 + 0 + 0) * 0.3048)
  /\ Shadows.segmentShadows getPosition destination union dec22ThisYear
       lat lng segment = mkRun [] true
  /\ added (Packer.segmentModules destination buffer area centroid distance
              bearing booleanWithin moduleDims fuel segment) = []
  /\ Packer.setbackMeters segment = JS.Num (4 * 0.3048)
  /\ Shadows.sampleMinutes segment
     = map (fun k => (600 + Z.of_nat k)%Z) (seq 0 361).
Proof.
  intros segment.
  assert (Hh : Shadows.segHeightM segment = JS.Num ((0 + 0 + 0) * 0.3048))
    by reflexivity.
  assert (G : forall shell timeStr,
             Shadows.drawAtTime getPosition destination dec22ThisYear lat lng
               segment shell timeStr = mkRun [] true
             /\ Shadows.buildTurfPolysAtTime getPosition destination
                  dec22ThisYear lat lng segment shell timeStr = Some []).
  { intros shell timeStr.
    unfold Shadows.drawAtTime, Shadows.buildTurfPolysAtTime.
    destruct (Shadows.sunAt _ _ _ _ _ _) as [az alt].
    destruct (alt <=? JS.Num 0)%js; [split; reflexivity|].
    rewrite Hh. cbn [JS.isFinite negb orb JS.le].
    replace (JS.Rleb ((0 + 0 + 0) * 0.3048) 0) with true
      by (symmetry; apply JS.Rleb_true; lra).
    split; reflexivity. }
  split; [exact Hh|]. split; [|split; [|split]].
  - unfold Shadows.segmentShadows.
    destruct (FieldSegment.geometry segment) as [shell|]; [|reflexivity].
    rewrite Shadows.aggregate_nothing by (intros; apply G).
    rewrite Shadows.forEachRun_nothing by (intros; apply G).
    reflexivity.
  - unfold Packer.segmentModules, segment, fresh.
    cbn [Store.core Store.mapDbToSegment FieldSegment.geometry
         FieldSegment.module Store.columns Store.newSegmentData
         Store.geometry Store.module].
    destruct (Packer.toTurfPolygon drawn); reflexivity.
  - unfold Packer.setbackMeters, Packer.meters, JS.or_else, JS.truthy.
    cbn. replace (JS.Reqb 4 0) with false
      by (symmetry; apply JS.Reqb_false; lra).
    reflexivity.
  - vm_compute. reflexivity.
Qed.

End FreshSegment.
End StoreFacts.

(* ===================================================================== *)
(** ** Distance labels *)
(* ===================================================================== *)

Module Labels.

(** What lies on the label layer: the vertex markers and the distance
    labels of a segment, and the geometries that carry no segment id (the
    ghost, the start marker, the hint, the temporary label). *)
Inductive LabelGeom : Type :=
| VertexMarker (at_ : Coord.t) (segmentId : string) (altitude : JS.num)
| DistanceLabel (text : string) (anchor : Coord.t) (markerRotation : JS.num)
                (textDy : option JS.num) (segmentId : string)
                (altitude : JS.num)
| Untagged.

(** The geometry the labels are made for, with the altitude among its
    properties. *)
Inductive Geometry : Type :=
| GPolygon (shell : list Coord.t) (altitude : option JS.num)
| GLineString (coordinates : list Coord.t) (altitude : option JS.num)
| GOther (altitude : option JS.num).

(** [g.getProperties()?.segmentId === segmentId] *)
Definition ofSegment (segmentId : string) (g : LabelGeom) : bool :=
  match g with
  | VertexMarker _ s _ => String.eqb s segmentId
  | DistanceLabel _ _ _ _ s _ => String.eqb s segmentId
  | Untagged => false
  end.

(** [if (angle > 90) angle -= 180; else if (angle < -90) angle += 180] *)
Definition upright (angle : JS.num) : JS.num :=
  if (angle >? JS.Num 90)%js then (angle - JS.Num 180)%js
  else if (angle <? JS.Num (-90))%js then (angle + JS.Num 180)%js
  else angle.

(** [!c || isNaN(c.x) || isNaN(c.y)] for a coordinate that is there. *)
Definition unusable (c : Coord.t) : bool :=
  JS.isNaN (Coord.x c) || JS.isNaN (Coord.y c).

Definition altitudeOf (g : Geometry) : JS.num :=
  match g with
  | GPolygon _ a | GLineString _ a | GOther a => JS.nullish a (JS.Num 0)
  end.

Section Labelling.

(** The map and the libraries: [None] is [null] for the two centers and
    a throw for turf. *)
Variable lineLength : Coord.t -> Coord.t -> JS.num.
Variable lineCenter : Coord.t -> Coord.t -> option Coord.t.
Variable polygonCenter : list Coord.t -> option Coord.t.
Variable atan2 : JS.num -> JS.num -> JS.num.
Variable mapBearing : JS.num.
Variable resolution : JS.num.
Variable bearing : Position -> Position -> option JS.num.
Variable destination : Position -> JS.num -> JS.num -> option Position.
Variable formatDistance : JS.num -> string.

(** The vertex markers: one for every coordinate that has a position. *)
Definition vertexMarkers (coords : list Coord.t) (segmentId : string)
           (altitudeMeters : JS.num) : list LabelGeom :=
  map (fun c => VertexMarker c segmentId altitudeMeters)
      (filter (fun c => negb (unusable c)) coords).

(** The rotation of the label of the edge from [p1] to [p2]. *)
Definition labelAngle (p1 p2 : Coord.t) : JS.num :=
  let dx := (Coord.x p2 - Coord.x p1)%js in
  let dy := (Coord.y p2 - Coord.y p1)%js in
  upright ((atan2 dy dx * JS.Num 180 / JS.PI) - mapBearing)%js.

(** One turn of the loop over the edges: the label added at index [i];
    [None] when turf throws. *)
Definition labelAt (isPoly : bool) (polyCenter : option Coord.t)
           (coords : list Coord.t) (segmentId : string)
           (altitudeMeters : JS.num) (i : nat) : option (list LabelGeom) :=
  let count := length coords in
  match nth_error coords i,
        nth_error coords (if isPoly then (i + 1) mod count else i + 1) with
  | Some p1, Some p2 =>
      if unusable p1 || unusable p2 || Walls.samePoint p1 p2 then Some []
      else
        let distanceInMeters := lineLength p1 p2 in
        match lineCenter p1 p2 with
        | None => Some []
        | Some center =>
            if unusable center then Some []
            else
              let angle := labelAngle p1 p2 in
              match polyCenter with
              | Some pc =>
                  match bearing (Coord.x pc, Coord.y pc)
                                (Coord.x center, Coord.y center) with
                  | None => None
                  | Some bearingToLineCenter =>
                      match destination (Coord.x center, Coord.y center)
                                        (JS.Num 30 * resolution)%js
                                        bearingToLineCenter with
                      | None => None
                      | Some newAnchor =>
                          Some [DistanceLabel
                                  (formatDistance distanceInMeters)
                                  (Coord.xy (fst newAnchor) (snd newAnchor))
                                  angle None segmentId altitudeMeters]
                      end
                  end
              | None =>
                  Some [DistanceLabel (formatDistance distanceInMeters)
                                      center angle (Some (JS.Num (-30)))
                                      segmentId altitudeMeters]
              end
        end
  | _, _ => Some []
  end.

(** The loop over the edges: the labels added, and whether the loop ran
    to its end. *)
Fixpoint labelLoop (body : nat -> option (list LabelGeom))
         (indices : list nat) : list LabelGeom * bool :=
  match indices with
  | [] => ([], true)
  | i :: rest =>
      match body i with
      | None => ([], false)
      | Some ls =>
          let '(more, ok) := labelLoop body rest in (ls ++ more, ok)
      end
  end.

(** What [updateDistanceLabels] adds for the geometry, and whether it
    returned. *)
Definition newLabels (geometry : Geometry) (segmentId : string)
  : list LabelGeom * bool :=
  let altitudeMeters := altitudeOf geometry in
  let build (isPoly : bool) (coords : list Coord.t) :=
    match coords with
    | [] => ([], true)
    | _ =>
        let markers := vertexMarkers coords segmentId altitudeMeters in
        if (length coords <? 2)%nat then (markers, true)
        else
          let polyCenter := if isPoly then polygonCenter coords else None in
          let count := length coords in
          let loopMax := if isPoly then count else (count - 1)%nat in
          let '(labels, ok) :=
            labelLoop (labelAt isPoly polyCenter coords segmentId
                               altitudeMeters)
                      (seq 0 loopMax) in
          (markers ++ labels, ok)
    end in
  match geometry with
  | GPolygon shell _ => build true shell
  | GLineString coords _ => build false coords
  | GOther _ => ([], true)
  end.

(** [updateDistanceLabels] on the label layer (with the map and the layer
    there): the geometries of the segment go, the new ones come. *)
Definition updateDistanceLabels (layer : list LabelGeom)
           (geometry : Geometry) (segmentId : string)
  : list LabelGeom * bool :=
  let kept := filter (fun g => negb (ofSegment segmentId g)) layer in
  let '(new, ok) := newLabels geometry segmentId in
  (kept ++ new, ok).

End Labelling.
End Labels.

Module LabelFacts.

(** X20.  The rotation of a distance label is the angle of its edge on
    the screen, turned by half a turn at most once.  That brings it to
    between -90 and 90 degrees, where the text reads upright, exactly
    when the angle was between -270 and 270 degrees; beyond that the
    label stays upside down. *)
Theorem label_reads_upright (a : R) :
  exists r : R,
    Labels.upright (JS.Num a) = JS.Num r
    /\ (r = a \/ r = a - 180 \/ r = a + 180)
    /\ (-90 <= r <= 90 <-> -270 <= a <= 270)
    /\ (-90 <= a <= 90 -> r = a).
Proof.
  unfold Labels.upright, JS.gt, JS.lt, JS.Rltb.
  destruct (Rlt_dec 90 a) as [H1|H1].
  - exists (a + - 180). cbn. split; [reflexivity|].
    split; [right; left; lra|]. split; [split; intros; lra|lra].
  - destruct (Rlt_dec a (-90)) as [H2|H2].
    + exists (a + 180). cbn. split; [reflexivity|].
      split; [right; right; reflexivity|]. split; [split; intros; lra|lra].
    + exists a. split; [reflexivity|]. split; [left; reflexivity|].
      split; [split; intros; lra|reflexivity].
Qed.

Section Layer.

Variable lineLength : Coord.t -> Coord.t -> JS.num.
Variable lineCenter : Coord.t -> Coord.t -> option Coord.t.
Variable polygonCenter : list Coord.t -> option Coord.t.
Variable atan2 : JS.num -> JS.num -> JS.num.
Variable mapBearing : JS.num.
Variable resolution : JS.num.
Variable bearing : Position -> Position -> option JS.num.
Variable destination : Position -> JS.num -> JS.num -> option Position.
Variable formatDistance : JS.num -> string.

(** A geometry of the label layer made for the segment, at the
    altitude. *)
Definition madeFor (segmentId : string) (altitudeMeters : JS.num)
           (g : Labels.LabelGeom) : Prop :=
  match g with
  | Labels.VertexMarker _ s a => s = segmentId /\ a = altitudeMeters
  | Labels.DistanceLabel _ _ _ _ s a => s = segmentId /\ a = altitudeMeters
  | Labels.Untagged => False
  end.

Definition isMarker (g : Labels.LabelGeom) : bool :=
  match g with Labels.VertexMarker _ _ _ => true | _ => false end.

Definition isLabel (g : Labels.LabelGeom) : bool :=
  match g with Labels.DistanceLabel _ _ _ _ _ _ => true | _ => false end.

Lemma madeFor_ofSegment (segmentId : string) (alt : JS.num)
      (g : Labels.LabelGeom) :
  madeFor segmentId alt g -> Labels.ofSegment segmentId g = true.
Proof.
  destruct g; cbn; try contradiction; intros [-> _]; apply String.eqb_refl.
Qed.

Lemma labelAt_made (isPoly : bool) (pc : option Coord.t)
      (coords : list Coord.t) (segmentId : string) (alt : JS.num) (i : nat)
      (ls : list Labels.LabelGeom) :
  Labels.labelAt lineLength lineCenter atan2 mapBearing resolution bearing
    destination formatDistance isPoly pc coords segmentId alt i = Some ls ->
  Forall (madeFor segmentId alt) ls
  /\ (length ls <= 1)%nat /\ Forall (fun g => isLabel g = true) ls.
Proof.
  unfold Labels.labelAt.
  destruct (nth_error coords i) as [p1|];
    [|intros [= <-]; repeat split; [constructor|cbn; lia|constructor]].
  destruct (nth_error coords _) as [p2|];
    [|intros [= <-]; repeat split; [constructor|cbn; lia|constructor]].
  destruct (_ || _);
    [intros [= <-]; repeat split; [constructor|cbn; lia|constructor]|].
  destruct (lineCenter p1 p2) as [center|];
    [|intros [= <-]; repeat split; [constructor|cbn; lia|constructor]].
  destruct (Labels.unusable center);
    [intros [= <-]; repeat split; [constructor|cbn; lia|constructor]|].
  destruct pc as [pc|].
  - destruct (bearing _ _) as [b|]; [|discriminate].
    destruct (destination _ _ _) as [a|]; [|discriminate].
    intros [= <-]. repeat split.
    + constructor; [split; reflexivity|constructor].
    + cbn; lia.
    + constructor; [reflexivity|constructor].
  - intros [= <-]. repeat split.
    + constructor; [split; reflexivity|constructor].
    + cbn; lia.
    + constructor; [reflexivity|constructor].
Qed.

Lemma labelLoop_made (body : nat -> option (list Labels.LabelGeom))
      (segmentId : string) (alt : JS.num) (indices : list nat) :
  (forall i ls, body i = Some ls ->
     Forall (madeFor segmentId alt) ls
     /\ (length ls <= 1)%nat /\ Forall (fun g => isLabel g = true) ls) ->
  Forall (madeFor segmentId alt) (fst (Labels.labelLoop body indices))
  /\ (length (fst (Labels.labelLoop body indices)) <= length indices)%nat
  /\ Forall (fun g => isLabel g = true) (fst (Labels.labelLoop body indices)).
Proof.
  intros Hbody. induction indices as [|i rest IH]; cbn [Labels.labelLoop].
  - repeat split; [constructor|cbn; lia|constructor].
  - destruct (body i) as [ls|] eqn:Hb;
      [|repeat split; [constructor|cbn; lia|constructor]].
    destruct (Labels.labelLoop body rest) as [more ok].
    destruct (Hbody i ls Hb) as [H1 [H2 H3]].
    destruct IH as [I1 [I2 I3]]. cbn [fst] in *.
    repeat split.
    + apply Forall_app. split; assumption.
    + rewrite length_app. cbn [length]. lia.
    + apply Forall_app. split; assumption.
Qed.

Lemma markers_made (coords : list Coord.t) (segmentId : string)
      (alt : JS.num) :
  Forall (madeFor segmentId alt) (Labels.vertexMarkers coords segmentId alt)
  /\ Forall (fun g => isMarker g = true)
            (Labels.vertexMarkers coords segmentId alt)
  /\ length (Labels.vertexMarkers coords segmentId alt)
     = length (filter (fun c => negb (Labels.unusable c)) coords).
Proof.
  unfold Labels.vertexMarkers. split; [|split].
  - apply Forall_map. apply Forall_forall. intros c _. split; reflexivity.
  - apply Forall_map. apply Forall_forall. intros c _. reflexivity.
  - apply length_map.
Qed.

Lemma filter_none {A : Type} (f : A -> bool) (l : list A) :
  Forall (fun x => f x = false) l -> filter f l = [].
Proof.
  induction 1 as [|x l Hx _ IH]; [reflexivity|].
  cbn [filter]. rewrite Hx. exact IH.
Qed.

Lemma filter_all {A : Type} (f : A -> bool) (l : list A) :
  Forall (fun x => f x = true) l -> filter f l = l.
Proof.
  induction 1 as [|x l Hx _ IH]; [reflexivity|].
  cbn [filter]. rewrite Hx, IH. reflexivity.
Qed.

Lemma filter_filter {A : Type} (f : A -> bool) (l : list A) :
  filter f (filter f l) = filter f l.
Proof.
  apply filter_all. apply Forall_forall. intros x Hx.
  apply filter_In in Hx. exact (proj2 Hx).
Qed.

(** What one pass over the coordinates adds: vertex markers first, one
    for each coordinate with a position, then at most one label for each
    turn of the loop; all of it made for the segment, at the altitude. *)
Lemma labels_of_coords (segmentId : string) (alt : JS.num) (isPoly : bool)
      (coords : list Coord.t) :
  let r := match coords with
    | [] => ([], true)
    | _ :: _ =>
        if (length coords <? 2)%nat
        then (Labels.vertexMarkers coords segmentId alt, true)
        else
          let '(labels, ok) :=
            Labels.labelLoop
              (Labels.labelAt lineLength lineCenter atan2 mapBearing
                 resolution bearing destination formatDistance isPoly
                 (if isPoly then polygonCenter coords else None) coords
                 segmentId alt)
              (seq 0 (if isPoly then length coords
                      else (length coords - 1)%nat)) in
          ((Labels.vertexMarkers coords segmentId alt ++ labels)%list, ok)
    end in
  Forall (madeFor segmentId alt) (fst r)
  /\ exists markers labels,
       fst r = (markers ++ labels)%list
       /\ (length labels
           <= if isPoly then length coords else length coords - 1)%nat
       /\ Forall (fun g => isMarker g = true) markers
       /\ Forall (fun g => isLabel g = true) labels
       /\ length markers
          = length (filter (fun c => negb (Labels.unusable c)) coords)
       /\ ((length coords < 2)%nat -> labels = []).
Proof.
  intros r. subst r.
  destruct (markers_made coords segmentId alt) as [M1 [M2 M3]].
  destruct coords as [|c0 cs] eqn:Hc.
  - split; [constructor|]. exists [], [].
    repeat split; try constructor; destruct isPoly; cbn; lia.
  - rewrite <- Hc in *.
    destruct (length coords <? 2)%nat eqn:Hlen.
    + split; [exact M1|].
      exists (Labels.vertexMarkers coords segmentId alt), [].
      rewrite app_nil_r.
      repeat split; try assumption; try constructor.
      destruct isPoly; cbn; lia.
    + pose proof (labelLoop_made
        (Labels.labelAt lineLength lineCenter atan2 mapBearing resolution
           bearing destination formatDistance isPoly
           (if isPoly then polygonCenter coords else None) coords
           segmentId alt)
        segmentId alt
        (seq 0 (if isPoly then length coords else (length coords - 1)%nat))
        (fun i ls => labelAt_made isPoly _ coords segmentId alt i ls))
        as [L1 [L2 L3]].
      destruct (Labels.labelLoop _ _) as [labels ok]. cbn [fst] in *.
      split; [apply Forall_app; split; assumption|].
      exists (Labels.vertexMarkers coords segmentId alt), labels.
      rewrite length_seq in L2.
      repeat split; try assumption.
      apply Nat.ltb_ge in Hlen. intros Hlt. lia.
Qed.

Lemma newLabels_made (geometry : Labels.Geometry) (segmentId : string) :
  Forall (madeFor segmentId (Labels.altitudeOf geometry))
         (fst (Labels.newLabels lineLength lineCenter polygonCenter atan2
                 mapBearing resolution bearing destination formatDistance
                 geometry segmentId)).
Proof.
  unfold Labels.newLabels. destruct geometry as [shell a|cs a|a].
  - exact (proj1 (labels_of_coords segmentId _ true shell)).
  - exact (proj1 (labels_of_coords segmentId _ false cs)).
  - constructor.
Qed.

(** X21.  Relabelling a segment leaves every other geometry of the label
    layer where it was, in the same order: the labels of the other
    segments and the geometries without a segment id.  What it adds all
    carries the id of the segment and the altitude of the geometry.  This
    holds also when turf throws in the middle of the labels. *)
Theorem relabelling_leaves_the_others (layer : list Labels.LabelGeom)
        (geometry : Labels.Geometry) (segmentId : string) :
  let after := fst (Labels.updateDistanceLabels lineLength lineCenter
                      polygonCenter atan2 mapBearing resolution bearing
                      destination formatDistance layer geometry segmentId) in
  filter (fun g => negb (Labels.ofSegment segmentId g)) after
  = filter (fun g => negb (Labels.ofSegment segmentId g)) layer
  /\ (forall other, other <> segmentId ->
        filter (Labels.ofSegment other) after
        = filter (Labels.ofSegment other) layer)
  /\ Forall (madeFor segmentId (Labels.altitudeOf geometry))
            (filter (Labels.ofSegment segmentId) after).
Proof.
  intros after. subst after. unfold Labels.updateDistanceLabels.
  pose proof (newLabels_made geometry segmentId) as Hmade.
  destruct (Labels.newLabels _ _ _ _ _ _ _ _ _ geometry segmentId)
    as [new ok]. cbn [fst] in *.
  assert (Hnew : Forall (fun g => Labels.ofSegment segmentId g = true) new).
  { eapply Forall_impl; [|exact Hmade].
    intros g. apply madeFor_ofSegment. }
  split; [|split].
  - rewrite filter_app, filter_filter.
    rewrite (filter_none _ new); [apply app_nil_r|].
    eapply Forall_impl; [|exact Hnew]. intros g ->. reflexivity.
  - intros other Hne. rewrite filter_app.
    rewrite (filter_none _ new).
    + rewrite app_nil_r. induction layer as [|g rest IH]; [reflexivity|].
      cbn [filter].
      destruct (Labels.ofSegment segmentId g) eqn:Hg; cbn [negb filter].
      * assert (Labels.ofSegment other g = false) as ->; [|exact IH].
        destruct g; cbn in *; try reflexivity;
          apply String.eqb_eq in Hg; subst;
          apply String.eqb_neq; congruence.
      * rewrite IH. reflexivity.
    + eapply Forall_impl; [|exact Hnew]. intros g Hg.
      destruct g; cbn in *; try reflexivity;
        apply String.eqb_eq in Hg; subst;
        apply String.eqb_neq; congruence.
  - rewrite filter_app. apply Forall_app. split.
    + apply Forall_forall. intros g Hg. apply filter_In in Hg.
      destruct Hg as [Hg Hs]. apply filter_In in Hg.
      destruct Hg as [_ Hn]. rewrite Hs in Hn. discriminate Hn.
    + rewrite filter_all by exact Hnew. exact Hmade.
Qed.

(** X22.  Relabelling a segment twice with the same geometry leaves the
    label layer as relabelling it once does: the first set of labels is
    taken away before the second is put. *)
Theorem relabelling_twice_is_once (layer : list Labels.LabelGeom)
        (geometry : Labels.Geometry) (segmentId : string) :
  Labels.updateDistanceLabels lineLength lineCenter polygonCenter atan2
    mapBearing resolution bearing destination formatDistance
    (fst (Labels.updateDistanceLabels lineLength lineCenter polygonCenter
            atan2 mapBearing resolution bearing destination formatDistance
            layer geometry segmentId))
    geometry segmentId
  = Labels.updateDistanceLabels lineLength lineCenter polygonCenter atan2
      mapBearing resolution bearing destination formatDistance
      layer geometry segmentId.
Proof.
  unfold Labels.updateDistanceLabels.
  pose proof (newLabels_made geometry segmentId) as Hmade.
  destruct (Labels.newLabels _ _ _ _ _ _ _ _ _ geometry segmentId)
    as [new ok]. cbn [fst] in *.
  rewrite filter_app, filter_filter.
  rewrite (filter_none _ new); [rewrite app_nil_r; reflexivity|].
  eapply Forall_impl; [|exact Hmade].
  intros g Hg. rewrite (madeFor_ofSegment _ _ _ Hg). reflexivity.
Qed.

(** X23.  The labels of a geometry: one vertex marker for each coordinate
    that has a position, then the distance labels, at most one for each
    edge; a polygon has as many edges as vertices (the closing edge is
    one), a line one fewer; a single coordinate gets its marker and no
    label, and a geometry that is neither gets nothing. *)
Theorem one_marker_per_vertex (geometry : Labels.Geometry)
        (segmentId : string) :
  exists coords markers labels,
    fst (Labels.newLabels lineLength lineCenter polygonCenter atan2
           mapBearing resolution bearing destination formatDistance
           geometry segmentId)
    = (markers ++ labels)%list
    /\ match geometry with
       | Labels.GPolygon shell _ =>
           coords = shell /\ (length labels <= length shell)%nat
       | Labels.GLineString cs _ =>
           coords = cs /\ (length labels <= length cs - 1)%nat
       | Labels.GOther _ => coords = []
       end
    /\ Forall (fun g => isMarker g = true) markers
    /\ Forall (fun g => isLabel g = true) labels
    /\ length markers
       = length (filter (fun c => negb (Labels.unusable c)) coords)
    /\ ((length coords < 2)%nat -> labels = []).
Proof.
  unfold Labels.newLabels. destruct geometry as [shell a|cs a|a].
  - destruct (labels_of_coords segmentId
                (Labels.altitudeOf (Labels.GPolygon shell a)) true shell)
      as [_ [markers [labels [E [Hl [Hm [Hlb [Hn Hs]]]]]]]].
    exists shell, markers, labels. repeat split; assumption.
  - destruct (labels_of_coords segmentId
                (Labels.altitudeOf (Labels.GLineString cs a)) false cs)
      as [_ [markers [labels [E [Hl [Hm [Hlb [Hn Hs]]]]]]]].
    exists cs, markers, labels. repeat split; assumption.
  - exists [], [], []. repeat split; constructor.
Qed.

End Layer.
End LabelFacts.

(* ===================================================================== *)
(** ** The dimensions of a module *)
(* ===================================================================== *)

Module ModuleDims.
Local Open Scope string_scope.

(** A row of [modules], as far as the editor reads it. *)
Record ModuleRow : Type := mkModule {
  moduleId : string;
  manufacturer : option string;
  model : option string;
  moduleArea : option JS.num
}.

(** What the query on [module_details] gives: it fails (an error or a
    throw), or it returns [parsed.length_m] and [parsed.width_m], each
    [None] when it is not of type number. *)
Inductive Fetched : Type :=
| FetchFailed
| FetchParsed (length_m width_m : option JS.num).

(** [Math.sqrt] *)
Definition sqrt_ (x : JS.num) : JS.num :=
  match x with
  | JS.Num a => if JS.Rltb a 0 then JS.NaN else JS.Num (sqrt a)
  | JS.PInf => JS.PInf
  | _ => JS.NaN
  end.

(** [s.toLowerCase()], [s.trim()] and [s.includes(t)], on strings of
    ASCII characters. *)
Definition lower (c : ascii) : ascii :=
  let n := nat_of_ascii c in
  if ((65 <=? n) && (n <=? 90))%nat then ascii_of_nat (n + 32) else c.

Fixpoint toLowerCase (s : string) : string :=
  match s with
  | EmptyString => EmptyString
  | String c r => String (lower c) (toLowerCase r)
  end.

Definition trimEnd (s : string) : string :=
  string_of_list_ascii
    (rev (list_ascii_of_string
            (Clock.trimStart (string_of_list_ascii
                                (rev (list_ascii_of_string s)))))).

Definition trim (s : string) : string := trimEnd (Clock.trimStart s).

Fixpoint includes (s t : string) : bool :=
  String.prefix t s
  || match s with
     | EmptyString => false
     | String _ r => includes r t
     end.

(** [typeof v === 'number' && isFinite(v)] *)
Definition finiteNumber (v : option JS.num) : bool :=
  match v with
  | Some x => JS.isFinite x
  | None => false
  end.

(** The name the known models are looked up by. *)
Definition nameOf (m : option ModuleRow) : string :=
  let part (f : ModuleRow -> option string) :=
    match m with
    | Some r => JS.str_or (f r) ""
    | None => ""
    end in
  toLowerCase (trim (part manufacturer ++ " " ++ part model)).

(** The table of known models: the width and the height of the first
    entry whose test the name passes. *)
Definition known (n : string) : option (JS.num * JS.num) :=
  if includes n "jinko"
     && (includes n "jkm 260p-60" || includes n "jkm260p-60")
  then Some (JS.Num 0.992, JS.Num 1.65)
  else None.

(** The fallbacks when [parsed] lacks a finite length or width. *)
Definition fallback (modules : list ModuleRow) (id : string)
           (len wid : option JS.num) : option JS.num * option JS.num :=
  if negb (finiteNumber len) || negb (finiteNumber wid) then
    let m := find (fun r => String.eqb (moduleId r) id) modules in
    match known (nameOf m) with
    | Some (w, h) => (Some h, Some w)
    | None =>
        match m with
        | Some r =>
            match moduleArea r with
            | Some a =>
                if JS.truthy a && JS.isFinite a then
                  let ratio := JS.Num 1.66 in
                  let height := sqrt_ (a * ratio)%js in
                  let width := (a / height)%js in
                  (Some height, Some width)
                else (len, wid)
            | None => (len, wid)
            end
        | None => (len, wid)
        end
    end
  else (len, wid).

(** The dimensions that go into the cache for the module. *)
Definition resolve (modules : list ModuleRow) (id : string) (f : Fetched)
  : Dims :=
  match f with
  | FetchFailed => mkDims (JS.Num 1.1) (JS.Num 1.7)
  | FetchParsed len0 wid0 =>
      let '(len, wid) := fallback modules id len0 wid0 in
      mkDims (if finiteNumber wid then JS.nullish wid (JS.Num 1.1)
              else JS.Num 1.1)
             (if finiteNumber len then JS.nullish len (JS.Num 1.7)
              else JS.Num 1.7)
  end.

(** [ensureModuleDims].  The callback tests the cache as the render that
    made it saw it ([seen], the closure), and after the query it writes
    through [setModuleDims((prev) => ...)] into the cache as it is by then
    ([prev]): the result is the cache after that update. *)
Definition ensureModuleDims (seen : string -> option Dims)
           (modules : list ModuleRow) (fetch : string -> Fetched)
           (id : option string) (prev : string -> option Dims)
  : string -> option Dims :=
  match id with
  | None | Some EmptyString => prev
  | Some moduleId =>
      match seen moduleId with
      | Some _ => prev
      | None =>
          let d := resolve modules moduleId (fetch moduleId) in
          fun k => if String.eqb k moduleId then Some d else prev k
      end
  end.

End ModuleDims.

Module ModuleDimsFacts.
Local Open Scope string_scope.

Lemma finite_value (v : option JS.num) (d : R) :
  exists r, (if ModuleDims.finiteNumber v then JS.nullish v (JS.Num d)
             else JS.Num d) = JS.Num r
            /\ (forall x, v = Some (JS.Num x) -> r = x)
            /\ (ModuleDims.finiteNumber v = false -> r = d).
Proof.
  destruct v as [[| | |x]|]; cbn;
    try (exists d; split; [reflexivity|]; split;
         [intros ? [=]|reflexivity]).
  exists x. split; [reflexivity|]. split; [intros ? [= ->]; reflexivity|].
  intros [=].
Qed.

Lemma resolve_finite (modules : list ModuleDims.ModuleRow) (id : string)
      (f : ModuleDims.Fetched) :
  exists w h, ModuleDims.resolve modules id f = mkDims (JS.Num w) (JS.Num h).
Proof.
  destruct f as [|len0 wid0]; cbn [ModuleDims.resolve].
  - exists 1.1, 1.7. reflexivity.
  - destruct (ModuleDims.fallback modules id len0 wid0) as [len wid].
    destruct (finite_value wid 1.1) as [w [Ew _]].
    destruct (finite_value len 1.7) as [h [Eh _]].
    exists w, h. rewrite Ew, Eh. reflexivity.
Qed.

(** X24.  Whatever the store returns for a module, the dimensions that
    go into the cache are two finite numbers.  When the query fails they
    are 1.1 m by 1.7 m; when the parsed length and width are both finite
    numbers they are taken as they are, be they zero or negative. *)
Theorem cached_dims_are_finite (modules : list ModuleDims.ModuleRow)
        (id : string) (f : ModuleDims.Fetched) :
  (exists w h,
     ModuleDims.resolve modules id f = mkDims (JS.Num w) (JS.Num h))
  /\ (f = ModuleDims.FetchFailed ->
      ModuleDims.resolve modules id f = mkDims (JS.Num 1.1) (JS.Num 1.7))
  /\ (forall l w,
        f = ModuleDims.FetchParsed (Some (JS.Num l)) (Some (JS.Num w)) ->
        ModuleDims.resolve modules id f = mkDims (JS.Num w) (JS.Num l)).
Proof.
  split; [apply resolve_finite|split].
  - intros ->. reflexivity.
  - intros l w ->. reflexivity.
Qed.

Lemma sqrt_area (a : R) :
  0 < a ->
  exists h, ModuleDims.sqrt_ (JS.Num a * JS.Num 1.66)%js = JS.Num h
            /\ 0 < h /\ h * h = a * 1.66
            /\ (JS.Num a / JS.Num h)%js = JS.Num (a / h).
Proof.
  intros Ha. exists (sqrt (a * 1.66)).
  assert (Hp : 0 < a * 1.66) by nra.
  assert (Hs : 0 < sqrt (a * 1.66)) by (apply sqrt_lt_R0; exact Hp).
  split; [|split; [exact Hs|split]].
  - cbn. replace (JS.Rltb (a * 1.66) 0) with false; [reflexivity|].
    symmetry. apply JS.Rltb_false. lra.
  - apply sqrt_sqrt. lra.
  - cbn. replace (JS.Reqb (sqrt (a * 1.66)) 0) with false; [reflexivity|].
    symmetry. apply JS.Reqb_false. lra.
Qed.

(** X25.  For a module without parsed dimensions and not among the known
    models, the dimensions are inferred from its area when that is
    positive: the height is 1.66 times the width and the two multiply to
    the area.  A negative area gives no dimensions, and the module gets
    1.1 m by 1.7 m. *)
Theorem dims_from_area (modules : list ModuleDims.ModuleRow) (id : string)
        (len0 wid0 : option JS.num) (row : ModuleDims.ModuleRow) (a : R) :
  ModuleDims.finiteNumber len0 && ModuleDims.finiteNumber wid0 = false ->
  find (fun r => String.eqb (ModuleDims.moduleId r) id) modules = Some row ->
  ModuleDims.known (ModuleDims.nameOf (Some row)) = None ->
  ModuleDims.moduleArea row = Some (JS.Num a) ->
  (0 < a ->
   exists w h,
     ModuleDims.resolve modules id (ModuleDims.FetchParsed len0 wid0)
     = mkDims (JS.Num w) (JS.Num h)
     /\ 0 < w /\ 0 < h /\ w * h = a /\ h = 1.66 * w)
  /\ (a < 0 ->
      ModuleDims.resolve modules id (ModuleDims.FetchParsed len0 wid0)
      = mkDims (JS.Num 1.1) (JS.Num 1.7)).
Proof.
  intros Hinv Hfind Hknown Harea.
  assert (Hguard : negb (ModuleDims.finiteNumber len0)
                   || negb (ModuleDims.finiteNumber wid0) = true).
  { rewrite <- negb_andb, Hinv. reflexivity. }
  unfold ModuleDims.resolve, ModuleDims.fallback.
  rewrite Hguard, Hfind, Hknown, Harea. split.
  - intros Ha. destruct (sqrt_area a Ha) as [h [Eh [Hh [Hsq Ediv]]]].
    cbn [JS.truthy JS.isFinite].
    replace (JS.Reqb a 0) with false by (symmetry; apply JS.Reqb_false; lra).
    cbn [negb andb]. rewrite Eh, Ediv. cbn.
    exists (a / h), h. split; [reflexivity|].
    assert (Hw : 0 < a / h) by (apply Rdiv_lt_0_compat; assumption).
    split; [exact Hw|]. split; [exact Hh|].
    split; [field; lra|].
    apply (Rmult_eq_reg_r h); [|lra].
    rewrite Hsq. field. lra.
  - intros Ha. cbn [JS.truthy JS.isFinite].
    replace (JS.Reqb a 0) with false by (symmetry; apply JS.Reqb_false; lra).
    cbn [negb andb]. cbn [JS.mul ModuleDims.sqrt_].
    replace (JS.Rltb (a * 1.66) 0) with true
      by (symmetry; apply JS.Rltb_true; nra).
    reflexivity.
Qed.

(** X26.  [ensureModuleDims] writes at most the entry of its own module:
    the entries of the other modules are as the cache holds them when the
    update is applied.  For a missing or empty id, or when the cache the
    callback saw already has the module, nothing is written.  Otherwise
    the entry becomes the resolved dimensions, two finite numbers,
    whatever the cache holds for the module by then: an entry that
    another call has written in the meantime is replaced. *)
Theorem ensure_writes_its_own_entry (seen prev : string -> option Dims)
        (modules : list ModuleDims.ModuleRow)
        (fetch : string -> ModuleDims.Fetched) (id : option string) :
  let after := ModuleDims.ensureModuleDims seen modules fetch id prev in
  (forall k, Some k <> id -> after k = prev k)
  /\ (id = None \/ id = Some "" -> after = prev)
  /\ (forall k d, id = Some k -> seen k = Some d -> after = prev)
  /\ (forall k, id = Some k -> k <> "" -> seen k = None ->
        after k = Some (ModuleDims.resolve modules k (fetch k))
        /\ exists w h, after k = Some (mkDims (JS.Num w) (JS.Num h)))
  /\ (forall k other,
        id = Some k -> k <> "" -> seen k = None ->
        ModuleDims.ensureModuleDims seen modules fetch id
          (fun j => if String.eqb j k then Some other else prev j) k
        = after k).
Proof.
  intros after. subst after. unfold ModuleDims.ensureModuleDims.
  split; [|split; [|split; [|split]]].
  - intros k Hne. destruct id as [[|c s]|]; try reflexivity.
    destruct (seen (String c s)); [reflexivity|].
    destruct (String.eqb k (String c s)) eqn:E; [|reflexivity].
    apply String.eqb_eq in E. congruence.
  - intros [-> | ->]; reflexivity.
  - intros k d -> Hk. destruct k as [|c s]; [reflexivity|].
    rewrite Hk. reflexivity.
  - intros k -> Hne Hk. destruct k as [|c s]; [contradiction|].
    rewrite Hk, String.eqb_refl. split; [reflexivity|].
    destruct (resolve_finite modules (String c s) (fetch (String c s)))
      as [w [h E]].
    exists w, h. rewrite E. reflexivity.
  - intros k other -> Hne Hk. destruct k as [|c s]; [contradiction|].
    rewrite Hk, String.eqb_refl. reflexivity.
Qed.

End ModuleDimsFacts.

(* ===================================================================== *)
(** ** Walls of a ring that repeats its first vertex *)
(* ===================================================================== *)

Module ClosedRings.

Lemma combine_snoc {A B : Type} (l : list A) (l' : list B) (a : A) (b : B) :
  length l = length l' ->
  combine (l ++ [a]) (l' ++ [b]) = (combine l l' ++ [(a, b)])%list.
Proof.
  revert l'. induction l as [|x l IH]; intros [|y l'] H;
    try discriminate H; [reflexivity|].
  cbn [app combine]. f_equal. apply IH. cbn in H. lia.
Qed.

Lemma samePoint_refl (v : Coord.t) :
  JS.isNaN (Coord.x v) = false -> JS.isNaN (Coord.y v) = false ->
  Walls.samePoint v v = true.
Proof.
  unfold Walls.samePoint. intros Hx Hy.
  assert (E : forall n, JS.isNaN n = false -> JS.seq n n = true).
  { intros [| | |a]; cbn; try reflexivity; [discriminate|].
    intros _. apply JS.Reqb_true. reflexivity. }
  rewrite (E _ Hx), (E _ Hy). reflexivity.
Qed.

Lemma ringEdges_closed {A : Type} (v : A) (rest : list A) :
  Walls.ringEdges ((v :: rest) ++ [v])
  = (Walls.ringEdges (v :: rest) ++ [(v, v)])%list.
Proof.
  unfold Walls.ringEdges. cbn [app].
  change (v :: rest ++ [v])%list with ((v :: rest) ++ [v])%list.
  apply combine_snoc. rewrite length_app. cbn [length]. lia.
Qed.

(** X27.  A ring stored with its first vertex repeated at the end gets the
    same walls as the ring without the repeat: the edge from the vertex
    to itself is skipped.  (The vertex must have a position: a NaN
    differs from itself.) *)
Theorem closing_vertex_adds_no_wall (open closed : FieldSegment.t)
        (v : Coord.t) (rest : list Coord.t) :
  FieldSegment.geometry open = Some (v :: rest) ->
  FieldSegment.geometry closed = Some ((v :: rest) ++ [v])%list ->
  JS.isNaN (Coord.x v) = false -> JS.isNaN (Coord.y v) = false ->
  Walls.roofZ closed = Walls.roofZ open ->
  Walls.paraZ closed = Walls.paraZ open ->
  Walls.segmentWalls closed = Walls.segmentWalls open.
Proof.
  intros Ho Hc Hx Hy Hz Hp. unfold Walls.segmentWalls.
  rewrite Ho, Hc, Hz, Hp.
  assert (Hclosed :
    flat_map (Walls.wallsAt ((v :: rest) ++ [v]) (Walls.roofZ open)
                            (Walls.paraZ open))
             (seq 0 (length ((v :: rest) ++ [v])))
    = flat_map (Walls.wallsAt (v :: rest) (Walls.roofZ open)
                              (Walls.paraZ open))
               (seq 0 (length (v :: rest)))).
  { rewrite !walls_loop_edges, ringEdges_closed, flat_map_app.
    cbn [flat_map Walls.edgeQuads]. rewrite (samePoint_refl v Hx Hy).
    rewrite !app_nil_r. reflexivity. }
  destruct rest as [|w rest'].
  - cbn [app length Nat.ltb Nat.leb].
    cbn [seq flat_map Walls.wallsAt nth_error Nat.add Nat.modulo length].
    cbn. rewrite (samePoint_refl v Hx Hy). reflexivity.
  - replace (length ((v :: w :: rest') ++ [v]) <? 2)%nat with false
      by (symmetry; apply Nat.ltb_ge; rewrite length_app; cbn; lia).
    replace (length (v :: w :: rest') <? 2)%nat with false
      by (symmetry; apply Nat.ltb_ge; cbn; lia).
    exact Hclosed.
Qed.

End ClosedRings.


(* ===================================================================== *)
(** ** One altitude for the roof *)
(* ===================================================================== *)

Module RoofFacts.

Section Altitudes.

Variable destination : Position -> JS.num -> JS.num -> option Position.
Variable buffer : Feature -> JS.num -> BufferResult.
Variable area : Feature -> JS.num.
Variable centroid : Feature -> option Position.
Variable distance : Position -> Position -> option JS.num.
Variable bearing : Position -> Position -> option JS.num.
Variable booleanWithin : Feature -> Feature -> option bool.
Variable moduleDims : string -> option Dims.
Variable fuel : nat.

(** The surface height as the effects read it:
    [surfaceHeight ?? surface_height ?? 0]. *)
Definition feet (segment : FieldSegment.t) : JS.num :=
  nullish2 (FieldSegment.surfaceHeight segment)
           (FieldSegment.surface_height segment).

Lemma modules_at (segment : FieldSegment.t) :
  Forall (fun p => altitude p = Some (Packer.meters (feet segment)))
         (added (Packer.segmentModules destination buffer area centroid
                   distance bearing booleanWithin moduleDims fuel segment)).
Proof.
  unfold Packer.segmentModules.
  destruct (FieldSegment.geometry segment) as [shell|]; [|constructor].
  apply Packer.orThrow_Forall. intros turfPoly.
  destruct (FieldSegment.module segment) as [[|c s]|]; try constructor.
  destruct (moduleDims (String c s)) as [dims|]; [|constructor].
  eapply Forall_impl; [|apply Packer.layout_within].
  intros p [rect [_ ->]]. reflexivity.
Qed.

Lemma overlay_at (segment : FieldSegment.t) (region : Feature) :
  Forall (fun p => altitude p = Some (Packer.meters (feet segment)))
         (Packer.setbackOverlay segment region).
Proof.
  unfold Packer.setbackOverlay.
  destruct region as [[|ring rest]|parts]; repeat constructor.
Qed.

(** X28.  With a finite surface height the tops of the walls, the setback
    overlay and every module of the segment are at one altitude: the
    height in feet times 0.3048.  With a height that is not a finite
    number they part: the overlay and the modules go to altitude 0,
    while the walls are drawn up to the height as it is. *)
Theorem everything_sits_on_the_roof (segment : FieldSegment.t) :
  let placed :=
    added (Packer.segmentModules destination buffer area centroid distance
             bearing booleanWithin moduleDims fuel segment) in
  (forall f : R,
     feet segment = JS.Num f ->
     Walls.roofZ segment = JS.Num (f * 0.3048)
     /\ Forall (fun p => altitude p = Some (JS.Num (f * 0.3048))) placed
     /\ forall region,
          Forall (fun p => altitude p = Some (JS.Num (f * 0.3048)))
                 (Packer.setbackOverlay segment region))
  /\ (JS.isFinite (feet segment) = false ->
      Forall (fun p => altitude p = Some (JS.Num 0)) placed
      /\ (forall region,
            Forall (fun p => altitude p = Some (JS.Num 0))
                   (Packer.setbackOverlay segment region))
      /\ JS.isFinite (Walls.roofZ segment) = false).
Proof.
  intros placed. subst placed. split.
  - intros f Hf.
    assert (E : Packer.meters (feet segment) = JS.Num (f * 0.3048))
      by (rewrite Hf; reflexivity).
    split; [unfold Walls.roofZ; fold (feet segment); rewrite Hf; reflexivity|].
    split; [|intros region].
    + eapply Forall_impl; [|apply modules_at].
      intros p ->. rewrite E. reflexivity.
    + eapply Forall_impl; [|apply overlay_at].
      intros p ->. rewrite E. reflexivity.
  - intros Hn.
    assert (E : Packer.meters (feet segment) = JS.Num 0)
      by (unfold Packer.meters; rewrite Hn; reflexivity).
    split; [|split; [intros region|]].
    + eapply Forall_impl; [|apply modules_at].
      intros p ->. rewrite E. reflexivity.
    + eapply Forall_impl; [|apply overlay_at].
      intros p ->. rewrite E. reflexivity.
    + unfold Walls.roofZ. fold (feet segment).
      destruct (feet segment) as [| | |f]; try discriminate Hn.
      * reflexivity.
      * cbn. unfold JS.inf_signed, FT.
        replace (JS.Reqb 0.3048 0) with false
          by (symmetry; apply JS.Reqb_false; lra).
        replace (JS.Rltb 0 0.3048) with true
          by (symmetry; apply JS.Rltb_true; lra).
        reflexivity.
      * cbn. unfold JS.inf_signed, FT.
        replace (JS.Reqb 0.3048 0) with false
          by (symmetry; apply JS.Reqb_false; lra).
        replace (JS.Rltb 0 0.3048) with true
          by (symmetry; apply JS.Rltb_true; lra).
        reflexivity.
Qed.

End Altitudes.
End RoofFacts.

(* ===================================================================== *)
(** ** Editing the attributes of a segment *)
(* ===================================================================== *)

Module Edits.

(** A [Partial<FieldSegment>]: for every key, [None] when the object does
    not have it, else the value it holds. *)
Record Patch : Type := mkPatch {
  id : option string;
  geometry : option (option (list Coord.t));
  surfaceHeight : option (option JS.num);
  surface_height : option (option JS.num);
  rackingHeight : option (option JS.num);
  racking_height : option (option JS.num);
  parapetHeight : option (option JS.num);
  parapet_height : option (option JS.num);
  analysisDate : option (option string);
  startTime : option (option string);
  timeOfDay : option (option string);
  endTime : option (option string);
  module : option (option string);
  defaultOrientation : option (option string);
  moduleSpacing : option (option JS.num);
  frameSpacing : option (option JS.num);
  rowSpacing : option (option JS.num);
  frameSizeWide : option (option JS.num);
  frameSizeUp : option (option JS.num);
  moduleAzimuth : option (option JS.num);
  setback : option (option JS.num);
  alignment : option (option string)
}.

(** One key of [{ ...seg, ...data }]. *)
Definition over {A : Type} (new : option A) (old : A) : A :=
  match new with Some v => v | None => old end.

(** [{ ...seg, ...data }] *)
Definition spread (seg : FieldSegment.t) (data : Patch) : FieldSegment.t :=
  FieldSegment.mk
    (over (id data) (FieldSegment.id seg))
    (over (geometry data) (FieldSegment.geometry seg))
    (over (surfaceHeight data) (FieldSegment.surfaceHeight seg))
    (over (surface_height data) (FieldSegment.surface_height seg))
    (over (rackingHeight data) (FieldSegment.rackingHeight seg))
    (over (racking_height data) (FieldSegment.racking_height seg))
    (over (parapetHeight data) (FieldSegment.parapetHeight seg))
    (over (parapet_height data) (FieldSegment.parapet_height seg))
    (over (analysisDate data) (FieldSegment.analysisDate seg))
    (over (startTime data) (FieldSegment.startTime seg))
    (over (timeOfDay data) (FieldSegment.timeOfDay seg))
    (over (endTime data) (FieldSegment.endTime seg))
    (over (module data) (FieldSegment.module seg))
    (over (defaultOrientation data) (FieldSegment.defaultOrientation seg))
    (over (moduleSpacing data) (FieldSegment.moduleSpacing seg))
    (over (frameSpacing data) (FieldSegment.frameSpacing seg))
    (over (rowSpacing data) (FieldSegment.rowSpacing seg))
    (over (frameSizeWide data) (FieldSegment.frameSizeWide seg))
    (over (frameSizeUp data) (FieldSegment.frameSizeUp seg))
    (over (moduleAzimuth data) (FieldSegment.moduleAzimuth seg))
    (over (setback data) (FieldSegment.setback seg))
    (over (alignment data) (FieldSegment.alignment seg)).

(** [handleUpdateSegment]:
    [prev.map(seg => seg.id === id ? { ...seg, ...data } : seg)] *)
Definition handleUpdateSegment (segmentId : string) (data : Patch)
           (prev : list FieldSegment.t) : list FieldSegment.t :=
  map (fun seg =>
         if String.eqb (FieldSegment.id seg) segmentId then spread seg data
         else seg)
      prev.

Lemma over_over {A : Type} (new : option A) (old : A) :
  over new (over new old) = over new old.
Proof. destruct new; reflexivity. Qed.

Lemma spread_twice (seg : FieldSegment.t) (data : Patch) :
  spread (spread seg data) data = spread seg data.
Proof.
  unfold spread. cbn. rewrite !over_over. reflexivity.
Qed.

(** X29.  An update through the panel keeps the list of segments as long
    as it was and leaves every segment with another id as it is; a
    patch without an id keeps every id in its place, and applying it a
    second time changes nothing more.  Deleting the segment afterwards
    gives the list that deleting it at once would have given. *)
Theorem update_touches_one_segment (segmentId : string) (data : Patch)
        (prev : list FieldSegment.t) :
  length (handleUpdateSegment segmentId data prev) = length prev
  /\ (forall i seg,
        nth_error prev i = Some seg ->
        FieldSegment.id seg <> segmentId ->
        nth_error (handleUpdateSegment segmentId data prev) i = Some seg)
  /\ (id data = None ->
      map FieldSegment.id (handleUpdateSegment segmentId data prev)
      = map FieldSegment.id prev
      /\ handleUpdateSegment segmentId data
           (handleUpdateSegment segmentId data prev)
         = handleUpdateSegment segmentId data prev
      /\ Segments.without segmentId (handleUpdateSegment segmentId data prev)
         = Segments.without segmentId prev).
Proof.
  unfold handleUpdateSegment. split; [apply length_map|]. split.
  - intros i seg Hi Hne. rewrite nth_error_map, Hi. cbn.
    apply String.eqb_neq in Hne. rewrite Hne. reflexivity.
  - intros Hid.
    assert (Hsame : forall seg,
              FieldSegment.id
                (if String.eqb (FieldSegment.id seg) segmentId
                 then spread seg data else seg)
              = FieldSegment.id seg).
    { intros seg. destruct (String.eqb _ _); [|reflexivity].
      cbn. rewrite Hid. reflexivity. }
    split; [|split].
    + rewrite map_map. apply map_ext. exact Hsame.
    + rewrite map_map. apply map_ext. intros seg.
      rewrite Hsame.
      destruct (String.eqb (FieldSegment.id seg) segmentId); [|reflexivity].
      apply spread_twice.
    + unfold Segments.without.
      induction prev as [|seg rest IH]; [reflexivity|].
      cbn [map filter]. rewrite Hsame.
      destruct (String.eqb (FieldSegment.id seg) segmentId) eqn:E;
        cbn [negb]; [exact IH|]. rewrite IH. reflexivity.
Qed.

End Edits.
(* ===================================================================== *)
(** ** More worked examples *)
(* ===================================================================== *)

Module MoreExamples.
Local Open Scope string_scope.

(** A segment drawn with two vertices only, 10 ft up. *)
Definition sliver : FieldSegment.t :=
  FieldSegment.mk
    "segment-2"
    (Some [Coord.xy (JS.Num 0) (JS.Num 0); Coord.xy (JS.Num 10) (JS.Num 0)])
    (Some (JS.Num 10)) None (Some (JS.Num 0)) None (Some (JS.Num 0)) None
    (Some "2025-12-22") (Some "10:00") (Some "10:00") (Some "16:00")
    (Some "module-1") (Some "Landscape")
    (Some (JS.Num 0.041)) (Some (JS.Num 0)) (Some (JS.Num 2))
    (Some (JS.Num 1)) (Some (JS.Num 1)) (Some (JS.Num 180))
    (Some (JS.Num 4)) (Some "center").

(** The roof 10 ft up with its ring stored closed. *)
Definition closedRoof : FieldSegment.t :=
  FieldSegment.mk
    "segment-1"
    (Some (Examples.square ++ [Coord.xy (JS.Num 0) (JS.Num 0)])%list)
    (Some (JS.Num 10)) None (Some (JS.Num 0)) None (Some (JS.Num 0)) None
    (Some "2025-12-22") (Some "10:00") (Some "10:00") (Some "16:00")
    None (Some "Landscape")
    (Some (JS.Num 0.041)) (Some (JS.Num 0)) (Some (JS.Num 2))
    (Some (JS.Num 1)) (Some (JS.Num 1)) (Some (JS.Num 180))
    (Some (JS.Num 4)) (Some "center").

(** Frames one module high, no row spacing, for a module without
    height. *)
Definition flatRows : FieldSegment.t :=
  FieldSegment.mk
    "segment-3" (Some Examples.square)
    (Some (JS.Num 10)) None (Some (JS.Num 0)) None (Some (JS.Num 0)) None
    (Some "2025-12-22") (Some "10:00") (Some "10:00") (Some "16:00")
    (Some "module-1") (Some "Landscape")
    (Some (JS.Num 0.041)) (Some (JS.Num 0)) (Some (JS.Num 0))
    (Some (JS.Num 1)) (Some (JS.Num 0.5)) (Some (JS.Num 180))
    (Some (JS.Num 4)) (Some "center").

(** A destination that stays where it is. *)
Definition stay (p : Position) (_ _ : JS.num) : option Position := Some p.

(** A stored azimuth of 180 degrees gives rows along 180 and columns
    along 270. *)
Lemma azimuth_is_normalised_witness :
  exists (y x : R) (k j : Z),
    Packer.bearingY Examples.roof10 = JS.Num y /\ 0 <= y < 360
    /\ y = 180 + 360 * IZR k
    /\ Packer.bearingX Examples.roof10 = JS.Num x /\ 0 <= x < 360
    /\ x = 180 + 90 + 360 * IZR j.
Proof.
  refine (PackerFacts.azimuth_is_normalised Examples.roof10 180 _).
  reflexivity.
Defined.

(** A module of 1.1 m by 1.7 m in frames of one by one. *)
Lemma frame_loops_end_witness :
  exists mw mh fw fh sx sy,
    Packer.moduleW Examples.flushSegment (mkDims (JS.Num 1.1) (JS.Num 1.7))
    = JS.Num mw
    /\ Packer.moduleH Examples.flushSegment
                      (mkDims (JS.Num 1.1) (JS.Num 1.7)) = JS.Num mh
    /\ Packer.frameW Examples.flushSegment
                     (mkDims (JS.Num 1.1) (JS.Num 1.7)) = JS.Num fw
    /\ Packer.frameH Examples.flushSegment
                     (mkDims (JS.Num 1.1) (JS.Num 1.7)) = JS.Num fh
    /\ Packer.stepX Examples.flushSegment
                    (mkDims (JS.Num 1.1) (JS.Num 1.7)) = JS.Num sx
    /\ Packer.stepY Examples.flushSegment
                    (mkDims (JS.Num 1.1) (JS.Num 1.7)) = JS.Num sy
    /\ 0 < mw <= fw /\ fw <= sx /\ 0 < mh <= fh /\ fh <= sy.
Proof.
  refine (proj1 (PackerFacts.frame_loops_end Examples.flushSegment
                   (mkDims (JS.Num 1.1) (JS.Num 1.7)) 1.1 1.7 1 1
                   _ _ _ _ _ _)).
  - reflexivity.
  - reflexivity.
  - lra.
  - lra.
  - reflexivity.
  - reflexivity.
Defined.

Lemma flatRows_sizeUp : Packer.sizeUp flatRows = JS.Num 1.
Proof.
  unfold Packer.sizeUp. cbn [flatRows FieldSegment.frameSizeUp JS.nullish].
  destruct (PackerFacts.size_value 0.5) as [n [_ [E [_ Hn]]]].
  rewrite E, Hn by lra. reflexivity.
Qed.

(** A module 1 m wide and 0 m high: the rows of the 10 m roof are never
    done. *)
Lemma flat_module_rows_never_end_witness :
  Packer.loopValues 1000
    (Packer.frameH flatRows (mkDims (JS.Num 1) (JS.Num 0)) / JS.Num 2)%js
    (fun yOff =>
       (yOff <=? JS.Num 10
                 - Packer.frameH flatRows (mkDims (JS.Num 1) (JS.Num 0))
                   / JS.Num 2
                 + JS.Num (1 / 1000000))%js)
    (fun yOff =>
       (yOff + Packer.stepY flatRows (mkDims (JS.Num 1) (JS.Num 0)))%js)
  = repeat (JS.Num 0) 1000.
Proof.
  refine (PackerFacts.flat_module_rows_never_end flatRows
            (mkDims (JS.Num 1) (JS.Num 0)) 10 1000 _ _ _ _).
  - unfold Packer.moduleH. Examples.decide_reals. reflexivity.
  - exact flatRows_sizeUp.
  - unfold Packer.rowSpacing, Packer.meters, JS.or_else, JS.truthy.
    Examples.decide_reals. reflexivity.
  - lra.
Defined.

(** The sliver comes first: the roof after it gets no module. *)
Lemma degenerate_ring_stops_the_layout_witness :
  Packer.modulesLayer Examples.eastward Examples.tracingBuffer
    Examples.unitArea Examples.atOrigin Examples.oneMeter Examples.oneMeter
    Examples.alwaysWithin Examples.oneModule 3
    ([] ++ sliver :: [Examples.flushSegment])
  = mkRun (added (Packer.modulesLayer Examples.eastward
                    Examples.tracingBuffer Examples.unitArea
                    Examples.atOrigin Examples.oneMeter Examples.oneMeter
                    Examples.alwaysWithin Examples.oneModule 3 []))
          false.
Proof.
  refine (PackerFacts.degenerate_ring_stops_the_layout
            Examples.eastward Examples.tracingBuffer Examples.unitArea
            Examples.atOrigin Examples.oneMeter Examples.oneMeter
            Examples.alwaysWithin Examples.oneModule 3
            sliver
            [Coord.xy (JS.Num 0) (JS.Num 0); Coord.xy (JS.Num 10) (JS.Num 0)]
            [] [Examples.flushSegment] _ _ _).
  - reflexivity.
  - cbn. lia.
  - intros s [].
Defined.

(** The same sliver under a sun at 45 degrees: the roof after it gets no
    shadow. *)
Lemma degenerate_ring_stops_the_shadows_witness :
  Shadows.segmentShadows Examples.sunAt45 Examples.eastward Examples.noUnion
    "2025-12-22" (JS.Num 40) (JS.Num (-74)) sliver = mkRun [] false
  /\ Shadows.shadowsLayer Examples.sunAt45 Examples.eastward
       Examples.noUnion "2025-12-22" (JS.Num 40) (JS.Num (-74)) true
       ([] ++ sliver :: [Examples.roof10])
     = mkRun (added (Shadows.shadowsLayer Examples.sunAt45 Examples.eastward
                       Examples.noUnion "2025-12-22" (JS.Num 40)
                       (JS.Num (-74)) true []))
             false.
Proof.
  refine (ShadowFacts.degenerate_ring_stops_the_shadows
            Examples.sunAt45 Examples.eastward Examples.noUnion
            "2025-12-22" (JS.Num 40) (JS.Num (-74))
            sliver
            [Coord.xy (JS.Num 0) (JS.Num 0); Coord.xy (JS.Num 10) (JS.Num 0)]
            600%Z (JS.Num 0) (PI / 4) ((10 + 0 + 0) * 0.3048)
            [] [Examples.roof10] _ _ _ _ _ _ _ _).
  - reflexivity.
  - cbn. lia.
  - reflexivity.
  - lra.
  - vm_compute. left. reflexivity.
  - apply Examples.sun_at_45.
  - pose proof PI_RGT_0. lra.
  - intros s [].
Defined.

(** The square of the roof as positions, and closed. *)
Definition squarePositions : list Position :=
  [(JS.Num 0, JS.Num 0); (JS.Num 10, JS.Num 0);
   (JS.Num 10, JS.Num 10); (JS.Num 0, JS.Num 10)].
Definition closedSquare : list Position :=
  (squarePositions ++ [(JS.Num 0, JS.Num 0)])%list.

(** The wall shadow of an edge whose shifted copy lies on the edge. *)
Definition flatQuad (a b : Position) : Feature := TPolygon [[a; b; b; a; a]].

Lemma build_on_the_spot :
  Shadows.buildTurfPolysAtTime Examples.sunAt45 stay "2025-12-22"
    (JS.Num 40) (JS.Num (-74)) Examples.roof10 Examples.square "12:00"
  = Some (TPolygon [closedSquare] :: TPolygon [closedSquare]
          :: [flatQuad (JS.Num 0, JS.Num 0) (JS.Num 10, JS.Num 0);
              flatQuad (JS.Num 10, JS.Num 0) (JS.Num 10, JS.Num 10);
              flatQuad (JS.Num 10, JS.Num 10) (JS.Num 0, JS.Num 10);
              flatQuad (JS.Num 0, JS.Num 10) (JS.Num 0, JS.Num 0)]).
Proof.
  unfold Shadows.buildTurfPolysAtTime.
  rewrite Examples.sun_at_45, Examples.roof10_height.
  destruct (Shadows.guards_pass (PI / 4) ((10 + 0 + 0) * 0.3048))
    as [G1 G2]; [pose proof PI_RGT_0; lra|lra|].
  rewrite G1, G2.
  unfold Shadows.shiftedRing, stay, Shadows.closeRing, Shadows.turf_polygon,
    Shadows.validRing, Shadows.samePosition, Shadows.shadowQuadRing,
    flatQuad, closedSquare, squarePositions.
  cbn [Examples.square map Shadows.toPosition Coord.x Coord.y Coord.xy
       Shadows.mapThrow last fst snd app length seq nth_error Nat.add
       Nat.modulo Nat.divmod forallb Nat.leb andb].
  Examples.decide_reals. reflexivity.
Qed.

(** The shadow of the roof at noon, with a destination that stays on the
    spot: what is drawn is what the aggregate is built from. *)
Lemma aggregate_polygons_are_drawn_witness :
  exists shifted roofRing quadRings,
    Shadows.drawAtTime Examples.sunAt45 stay "2025-12-22" (JS.Num 40)
      (JS.Num (-74)) Examples.roof10 Examples.square "12:00"
    = mkRun
        (Shadows.groundPolygon
           (map (fun c => Coord.xy (Coord.x c) (Coord.y c)) Examples.square)
           baseShadowSymbol
         :: Shadows.groundPolygon (map Shadows.toCoord shifted)
              roofShadowSymbol
         :: map (fun ring =>
                   Shadows.groundPolygon (map Shadows.toCoord ring)
                                         wallShadowSymbol)
                quadRings)
        true
    /\ Shadows.closeRing shifted = Some roofRing
    /\ TPolygon [closedSquare] = TPolygon [roofRing]
    /\ [flatQuad (JS.Num 0, JS.Num 0) (JS.Num 10, JS.Num 0);
        flatQuad (JS.Num 10, JS.Num 0) (JS.Num 10, JS.Num 10);
        flatQuad (JS.Num 10, JS.Num 10) (JS.Num 0, JS.Num 10);
        flatQuad (JS.Num 0, JS.Num 10) (JS.Num 0, JS.Num 0)]
       = map (fun ring => TPolygon [ring]) quadRings
    /\ length quadRings = length Examples.square.
Proof.
  refine (ShadowFacts.aggregate_polygons_are_drawn
            Examples.sunAt45 stay "2025-12-22" (JS.Num 40) (JS.Num (-74))
            Examples.roof10 Examples.square "12:00"
            (TPolygon [closedSquare]) (TPolygon [closedSquare]) _ _).
  exact build_on_the_spot.
Defined.

(** *** The polygons of a sample *)




Lemma same_number (a : R) : JS.Reqb a a = true.
Proof. apply JS.Reqb_true. reflexivity. Qed.




(** *** Drawing *)

Lemma hover_calls :
  snd (Draw.handleMouseMove Examples.oneMeter Examples.drawing Examples.hover)
  = [Draw.SetCoordinates
       (Draw.setLast
          (Examples.square ++ [Coord.xy (JS.Num 1) (JS.Num 0)])%list
          (Coord.xy (JS.Num 0) (JS.Num 0)));
     Draw.EndDraw].
Proof.
  destruct (Draw.move_inside Examples.oneMeter Examples.drawing
              Examples.hover Examples.hover_inside_snap)
    as [first [rest [Hg [Hs _]]]].
  injection Hg as <- <-. exact Hs.
Qed.

Lemma hover_ends_the_draw :
  In Draw.EndDraw
     (snd (Draw.handleMouseMove Examples.oneMeter Examples.drawing
                                Examples.hover)).
Proof. rewrite hover_calls. right. left. reflexivity. Qed.

(** The first move inside the snap radius, with the latch clear. *)
Lemma auto_close_needs_a_clear_latch_witness :
  Draw.autoClosing Examples.drawing = false
  /\ Draw.autoClosing
       (fst (Draw.handleMouseMove Examples.oneMeter Examples.drawing
                                  Examples.hover)) = true.
Proof.
  pose proof (DrawFacts.auto_close_needs_a_clear_latch
                Examples.oneMeter Examples.drawing Examples.hover
                hover_ends_the_draw) as H.
  exact (conj (proj1 H) (proj1 (proj2 H))).
Defined.

(** The snap of that move keeps the four vertices of the square. *)
Lemma snap_moves_only_the_cursor_vertex_witness :
  exists first rest,
    Draw.currentGeom Examples.hover = Some (first :: rest)
    /\ length (Draw.setLast
                 (Examples.square ++ [Coord.xy (JS.Num 1) (JS.Num 0)])%list
                 (Coord.xy (JS.Num 0) (JS.Num 0)))
       = length (first :: rest)
    /\ removelast
         (Draw.setLast
            (Examples.square ++ [Coord.xy (JS.Num 1) (JS.Num 0)])%list
            (Coord.xy (JS.Num 0) (JS.Num 0)))
       = removelast (first :: rest)
    /\ hd_error
         (Draw.setLast
            (Examples.square ++ [Coord.xy (JS.Num 1) (JS.Num 0)])%list
            (Coord.xy (JS.Num 0) (JS.Num 0)))
       = Some first
    /\ last
         (Draw.setLast
            (Examples.square ++ [Coord.xy (JS.Num 1) (JS.Num 0)])%list
            (Coord.xy (JS.Num 0) (JS.Num 0)))
         first
       = DrawFacts.snapTarget Examples.drawing first
    /\ Coord.z
         (last
            (Draw.setLast
               (Examples.square ++ [Coord.xy (JS.Num 1) (JS.Num 0)])%list
               (Coord.xy (JS.Num 0) (JS.Num 0)))
            first)
       = None.
Proof.
  refine (DrawFacts.snap_moves_only_the_cursor_vertex
            Examples.oneMeter Examples.drawing Examples.hover _ _).
  rewrite hover_calls. left. reflexivity.
Defined.

(** After that move the hint is on the start marker again. *)
Lemma hint_is_back_after_auto_close_witness :
  Draw.closeHintLabel
    (fst (Draw.handleMouseMove Examples.oneMeter Examples.drawing
                               Examples.hover))
  = Some (Coord.xy (JS.Num 0) (JS.Num 0)).
Proof.
  refine (proj1 (DrawFacts.hint_is_back_after_auto_close
                   Examples.oneMeter Examples.drawing Examples.hover
                   (Coord.xy (JS.Num 0) (JS.Num 0)) _ _)).
  - exact hover_ends_the_draw.
  - reflexivity.
Defined.

(** *** Module dimensions *)

Definition acme : ModuleDims.ModuleRow :=
  ModuleDims.mkModule "module-1" (Some "Acme") (Some "Sun 300")
                      (Some (JS.Num 1.66)).

(** A module of 1.66 square meters without parsed dimensions is taken as
    1 m by 1.66 m. *)
Lemma dims_from_area_witness :
  exists w h,
    ModuleDims.resolve [acme] "module-1" (ModuleDims.FetchParsed None None)
    = mkDims (JS.Num w) (JS.Num h)
    /\ 0 < w /\ 0 < h /\ w * h = 1.66 /\ h = 1.66 * w.
Proof.
  refine (proj1 (ModuleDimsFacts.dims_from_area [acme] "module-1" None None
                   acme 1.66 _ _ _ _) _).
  - reflexivity.
  - reflexivity.
  - reflexivity.
  - reflexivity.
  - lra.
Defined.

(** *** Walls *)

(** The square stored closed has the four walls of the square. *)
Lemma closing_vertex_adds_no_wall_witness :
  Walls.segmentWalls closedRoof = Walls.segmentWalls Examples.roof10.
Proof.
  refine (ClosedRings.closing_vertex_adds_no_wall
            Examples.roof10 closedRoof (Coord.xy (JS.Num 0) (JS.Num 0))
            (tl Examples.square) _ _ _ _ _ _); reflexivity.
Defined.

(** *** A triangular roof packed with modules *)

(** A roof with three corners: the right triangle with legs of 10 along
    the two axes. *)
Definition triangle : list Coord.t :=
  [Coord.xy (JS.Num 0) (JS.Num 0); Coord.xy (JS.Num 10) (JS.Num 0);
   Coord.xy (JS.Num 0) (JS.Num 10)].

(** Its ring as given to turf, closed. *)
Definition triangleRing : Feature :=
  TPolygon [[(JS.Num 0, JS.Num 0); (JS.Num 10, JS.Num 0);
             (JS.Num 0, JS.Num 10); (JS.Num 0, JS.Num 0)]].

(** The segment on that roof: no setback, modules of one by one frames
    facing south, aligned left. *)
Definition lot : FieldSegment.t :=
  FieldSegment.mk
    "segment-4" (Some triangle)
    (Some (JS.Num 10)) None (Some (JS.Num 0)) None (Some (JS.Num 0)) None
    (Some "2025-12-22") (Some "10:00") (Some "10:00") (Some "16:00")
    (Some "module-1") (Some "Landscape")
    (Some (JS.Num 0.041)) (Some (JS.Num 0)) (Some (JS.Num 2))
    (Some (JS.Num 1)) (Some (JS.Num 1)) (Some (JS.Num 0))
    (Some (JS.Num 0)) (Some "left").

(** Stand-ins for turf on a plane with north up: a destination along one
    of the four axis bearings. *)
Definition planar (p : Position) (d b : JS.num) : option Position :=
  if JS.seq b (JS.Num 0) then Some (fst p, (snd p + d)%js)
  else if JS.seq b (JS.Num 90) then Some ((fst p + d)%js, snd p)
  else if JS.seq b (JS.Num 180) then Some (fst p, (snd p - d)%js)
  else if JS.seq b (JS.Num 270) then Some ((fst p - d)%js, snd p)
  else None.

(** The corner of the two legs stands for the centroid; distance and
    bearing from it are those of a point on one of the legs. *)
Definition corner (_ : Feature) : option Position :=
  Some (JS.Num 0, JS.Num 0).
Definition alongAxes (_ p : Position) : option JS.num :=
  Some (fst p + snd p)%js.
Definition axisBearing (_ p : Position) : option JS.num :=
  if JS.seq (fst p) (JS.Num 0) then Some (JS.Num 0) else Some (JS.Num 90).
(** A rectangle is within the roof when all its corners are. *)
Definition inTriangle (rect _ : Feature) : option bool :=
  Some (forallb (fun p => (JS.Num 0 <=? fst p)%js && (JS.Num 0 <=? snd p)%js
                          && (fst p + snd p <=? JS.Num 10)%js)
                (Packer.ringCoords rect)).

(** A module of 1.1 m by 1.7 m. *)
Definition panel : Dims := mkDims (JS.Num 1.1) (JS.Num 1.7).

(** The values the layout works with on this roof. *)
Lemma lot_ring : Packer.toTurfPolygon triangle = Some triangleRing.
Proof.
  unfold Packer.toTurfPolygon, Shadows.turf_polygon, Shadows.validRing,
    Shadows.samePosition, triangleRing.
  Examples.decide_reals. reflexivity.
Qed.

Lemma lot_axes :
  Packer.bearingY lot = JS.Num 0 /\ Packer.bearingX lot = JS.Num 90.
Proof.
  assert (Ey : Packer.bearingY lot = JS.Num 0).
  { unfold Packer.bearingY, Packer.moduleAz.
    cbn [lot FieldSegment.moduleAzimuth JS.nullish].
    rewrite ShadowFacts.rem_small by lra. cbn [JS.add].
    rewrite ShadowFacts.rem_one_turn by lra.
    cbn. unfold JS.Rltb. destruct (Rlt_dec 0 (0 + 360 - 360)); f_equal; lra. }
  split; [exact Ey|].
  unfold Packer.bearingX. unfold Packer.bearingY in Ey. rewrite Ey.
  cbn [JS.add]. rewrite ShadowFacts.rem_small by lra. f_equal. lra.
Qed.

Lemma lot_module :
  Packer.moduleW lot panel = JS.Num 1.1
  /\ Packer.moduleH lot panel = JS.Num 1.7
  /\ Packer.moduleSpacing lot = JS.Num (0.041 * 0.3048)
  /\ Packer.frameSpacing lot = JS.Num 0
  /\ Packer.rowSpacing lot = JS.Num (2 * 0.3048)
  /\ Packer.sizeWide lot = JS.Num 1
  /\ Packer.sizeUp lot = JS.Num 1.
Proof.
  assert (I1 : Int_part 1 = 1%Z).
  { change 1 with (INR 1). apply Int_part_INR. }
  unfold Packer.moduleW, Packer.moduleH, Packer.moduleSpacing,
    Packer.frameSpacing, Packer.rowSpacing, Packer.sizeWide, Packer.sizeUp,
    Packer.meters, Packer.Number_, JS.or_else, JS.truthy, FT.
  cbn [lot panel FieldSegment.moduleSpacing FieldSegment.frameSpacing
       FieldSegment.rowSpacing FieldSegment.frameSizeWide
       FieldSegment.frameSizeUp FieldSegment.defaultOrientation
       JS.nullish JS.floor width height].
  rewrite I1.
  repeat split; Examples.decide_reals; reflexivity.
Qed.

Lemma lot_frame :
  Packer.frameW lot panel = JS.Num 1.1
  /\ Packer.frameH lot panel = JS.Num 1.7
  /\ Packer.stepX lot panel = JS.Num 1.1
  /\ Packer.stepY lot panel = JS.Num (1.7 + 2 * 0.3048).
Proof.
  destruct lot_module as [Ew [Eh [Es [Ef [Er [Esw Esu]]]]]].
  unfold Packer.stepX, Packer.stepY, Packer.frameW, Packer.frameH.
  rewrite Ew, Eh, Es, Ef, Er, Esw, Esu.
  cbn [JS.add JS.mul JS.sub JS.neg].
  repeat split; f_equal; lra.
Qed.

Lemma lot_opposites :
  Packer.opposite (JS.Num 0) = JS.Num 180
  /\ Packer.opposite (JS.Num 90) = JS.Num 270.
Proof.
  unfold Packer.opposite. cbn [JS.add].
  rewrite !ShadowFacts.rem_small by lra. split; f_equal; lra.
Qed.

(** Cosines of the angles between the legs and the axes. *)
Lemma quarter_turns :
  cos ((0 + - (90)) * (PI / 180)) = 0
  /\ cos ((90 + - (90)) * (PI / 180)) = 1
  /\ cos ((0 + - 0) * (PI / 180)) = 1
  /\ cos ((90 + - 0) * (PI / 180)) = 0.
Proof.
  pose proof PI_RGT_0 as Hpi.
  repeat split.
  - replace ((0 + - (90)) * (PI / 180)) with (- (PI / 2)) by lra.
    rewrite cos_neg. apply cos_PI2.
  - replace ((90 + - (90)) * (PI / 180)) with 0 by lra. apply cos_0.
  - replace ((0 + - 0) * (PI / 180)) with 0 by lra. apply cos_0.
  - replace ((90 + - 0) * (PI / 180)) with (PI / 2) by lra. apply cos_PI2.
Qed.

(** The roof spans 10 m along the columns and 10 m along the rows. *)
Lemma lot_extents :
  Packer.extents alongAxes axisBearing lot (JS.Num 0, JS.Num 0) triangleRing
  = Some (Packer.mkExtents (JS.Num 0) (JS.Num 10) (JS.Num 0) (JS.Num 10)).
Proof.
  destruct lot_axes as [Ey Ex].
  destruct quarter_turns as [C1 [C2 [C3 C4]]].
  unfold Packer.extents, Packer.project, triangleRing, alongAxes, axisBearing.
  rewrite Ey, Ex.
  cbn [Packer.ringCoords fold_left fst snd].
  repeat (cbn; rewrite ?C1, ?C2, ?C3, ?C4;
          unfold JS.gt, JS.lt, JS.sne, JS.seq, JS.Reqb, JS.Rltb, JS.Rleb;
          match goal with
          | |- context [Req_dec_T ?u ?v] =>
              destruct (Req_dec_T u v); try lra
          | |- context [Rlt_dec ?u ?v] =>
              destruct (Rlt_dec u v); try lra
          end).
  repeat (f_equal; try lra).
Qed.

(** With no setback the buildable region is the ring. *)
Lemma lot_region :
  Packer.inset Examples.tracingBuffer Examples.unitArea lot triangleRing
  = triangleRing.
Proof.
  apply Packer.inset_no_setback. right.
  rewrite (Packer.setbackMeters_zero lot eq_refl). cbn.
  apply JS.Rleb_true. lra.
Qed.

(** What the first round of a loop adds comes first. *)
Lemma forEachRun_head {A : Type} (f : A -> Run) (x : A) (xs : list A) :
  exists rest, added (forEachRun f (x :: xs)) = (added (f x) ++ rest)%list.
Proof.
  cbn [forEachRun]. destruct (returned (f x)).
  - eexists. reflexivity.
  - exists []. rewrite app_nil_r. reflexivity.
Qed.

Lemma lot_span : JS.max (JS.Num 0) (JS.Num 10 - JS.Num 0)%js = JS.Num 10.
Proof. Examples.decide_reals. f_equal. lra. Qed.

Lemma lot_south_west :
  Packer.shift planar (JS.Num 0, JS.Num 0) (JS.Num 0) (JS.Num 0)
  = Some (JS.Num 0, JS.Num 0)
  /\ Packer.shift planar (JS.Num 0, JS.Num 0) (JS.Num 0) (JS.Num 90)
     = Some (JS.Num 0, JS.Num 0).
Proof.
  unfold Packer.shift, planar. cbn [JS.abs]. rewrite Rabs_R0.
  split; Examples.decide_reals; repeat (f_equal; try lra).
Qed.

(** Halving a finite number. *)
Lemma halved (a : R) : (JS.Num a / JS.Num 2)%js = JS.Num (a / 2).
Proof.
  unfold JS.div, JS.Reqb. destruct (Req_dec_T 2 0); [lra | reflexivity].
Qed.

(** The four moves of the stand-in. *)
Lemma planar_axes (p : Position) (d : JS.num) :
  planar p d (JS.Num 0) = Some (fst p, (snd p + d)%js)
  /\ planar p d (JS.Num 90) = Some ((fst p + d)%js, snd p)
  /\ planar p d (JS.Num 180) = Some (fst p, (snd p - d)%js)
  /\ planar p d (JS.Num 270) = Some ((fst p - d)%js, snd p).
Proof.
  unfold planar, JS.seq, JS.Reqb.
  repeat split;
    repeat match goal with
           | |- context [Req_dec_T ?u ?v] => destruct (Req_dec_T u v); try lra
           end; reflexivity.
Qed.

Lemma forEachRun_first {A : Type} (f : A -> Run) (x : A) (xs : list A)
      (m : Polygon) :
  (exists r, added (f x) = m :: r) ->
  exists rest, added (forEachRun f (x :: xs)) = m :: rest.
Proof.
  intros [r H]. destruct (forEachRun_head f x xs) as [rest E].
  exists (r ++ rest)%list. rewrite E, H. reflexivity.
Qed.

(** A loop whose condition holds at the start visits the start. *)
Lemma loopValues_head (k : nat) (x : JS.num) (cond : JS.num -> bool)
      (next : JS.num -> JS.num) :
  cond x = true ->
  Packer.loopValues (S k) x cond next
  = x :: Packer.loopValues k (next x) cond next.
Proof. intros H. cbn [Packer.loopValues]. rewrite H. reflexivity. Qed.

(** The module in the corner of the two legs, at the height of the
    roof. *)
Definition firstModule : Polygon :=
  mkPolygon [[Coord.xy (JS.Num 0) (JS.Num 1.7);
              Coord.xy (JS.Num 1.1) (JS.Num 1.7);
              Coord.xy (JS.Num 1.1) (JS.Num 0);
              Coord.xy (JS.Num 0) (JS.Num 0);
              Coord.xy (JS.Num 0) (JS.Num 1.7)]]
            moduleSymbol (Some (JS.Num (10 * 0.3048))).

(** The first module the packer places on the roof is that one. *)
Lemma lot_first_module (k : nat) :
  exists rest,
    added (Packer.segmentModules planar Examples.tracingBuffer
             Examples.unitArea corner alongAxes axisBearing inTriangle
             Examples.oneModule (S k) lot) = firstModule :: rest.
Proof.
  destruct lot_axes as [Ey Ex].
  destruct lot_frame as [EfW [EfH [EsX EsY]]].
  destruct lot_module as [Ew [Eh [Es [Ef [Er [Esw Esu]]]]]].
  destruct lot_opposites as [O0 O90].
  destruct lot_south_west as [S1 S2].
  unfold Packer.segmentModules.
  change (FieldSegment.geometry lot) with (Some triangle).
  cbv beta iota. rewrite lot_ring.
  cbn [Packer.orThrow]. rewrite lot_region.
  change (FieldSegment.module lot) with (Some "module-1").
  cbv beta iota zeta.
  change (Examples.oneModule "module-1") with (Some panel).
  cbv beta iota.
  unfold Packer.layout, corner. cbn [Packer.orThrow].
  rewrite lot_extents. cbn [Packer.orThrow Packer.minProjX Packer.maxProjX
                             Packer.minProjY Packer.maxProjY].
  rewrite lot_span, Ey, Ex, S1. cbn [Packer.orThrow]. rewrite S2.
  cbn [Packer.orThrow].
  unfold Packer.rowOffsets, Packer.columnOffsets, Packer.startEast.
  rewrite EfW, EfH, EsX, EsY.
  replace (Packer.marginX lot (Packer.leftoverX (JS.Num 10) (JS.Num 1.1))
             (JS.Num 1.1)) with (JS.Num 0) by reflexivity.
  rewrite !halved. cbn [JS.add JS.sub JS.neg].
  rewrite (loopValues_head k (JS.Num (1.7 / 2)))
    by (apply JS.Rleb_true; lra).
  rewrite (loopValues_head k (JS.Num (0 + 1.1 / 2)))
    by (apply JS.Rleb_true; lra).
  apply forEachRun_first.
  rewrite (proj1 (planar_axes _ _)).
  cbn [Packer.orThrow fst snd JS.add].
  apply forEachRun_first.
  unfold Packer.frameAt.
  rewrite Ex, Ey, O90, EfW, EfH, Esw, Esu, !halved.
  rewrite (proj1 (proj2 (planar_axes _ _))).
  cbn [Packer.orThrow fst snd JS.add].
  rewrite (proj2 (proj2 (proj2 (planar_axes _ _)))).
  cbn [Packer.orThrow fst snd JS.add JS.sub JS.neg].
  rewrite (proj1 (planar_axes _ _)).
  cbn [Packer.orThrow fst snd JS.add JS.sub JS.neg].
  rewrite (loopValues_head k (JS.Num 0)) by (apply JS.Rltb_true; lra).
  apply forEachRun_first.
  apply forEachRun_first.
  unfold Packer.moduleAt.
  rewrite Ex, Ey, O0, Ew, Eh, Es, !halved.
  cbn [JS.add JS.mul JS.sub JS.neg].
  rewrite (proj1 (proj2 (planar_axes _ _))).
  cbn [Packer.orThrow fst snd JS.add JS.sub JS.neg].
  rewrite (proj1 (proj2 (proj2 (planar_axes _ _)))).
  cbn [Packer.orThrow fst snd JS.add JS.sub JS.neg].
  unfold Packer.buildRotatedRect.
  rewrite O0, O90.
  rewrite !(proj1 (proj2 (planar_axes _ _))),
          !(proj2 (proj2 (proj2 (planar_axes _ _)))).
  cbn [fst snd JS.add JS.sub JS.neg].
  rewrite !(proj1 (planar_axes _ _)),
          !(proj1 (proj2 (proj2 (planar_axes _ _)))).
  cbn [fst snd JS.add JS.sub JS.neg].
  match goal with
  | |- context [Shadows.turf_polygon ?rs] =>
      replace rs
        with [[(JS.Num 0, JS.Num 1.7); (JS.Num 1.1, JS.Num 1.7);
               (JS.Num 1.1, JS.Num 0); (JS.Num 0, JS.Num 0);
               (JS.Num 0, JS.Num 1.7)]]
  end.
  2: { repeat first [ reflexivity | apply f_equal2
                     | apply (f_equal JS.Num); lra ]. }
  exists [].
  unfold Packer.placeModule, inTriangle, Shadows.turf_polygon,
    Shadows.validRing, Shadows.samePosition.
  cbn [forallb last fst snd length Nat.leb JS.seq andb].
  rewrite !same_number.
  cbn [andb Packer.orThrow added Packer.ringCoords forallb fst snd JS.le
       JS.add].
  repeat match goal with
         | |- context [JS.Rleb ?u ?v] =>
             replace (JS.Rleb u v) with true
               by (symmetry; apply JS.Rleb_true; lra)
         end.
  cbn [andb].
  unfold Packer.modulePolygon, firstModule, Packer.meters.
  cbn [Packer.ringCoords map Shadows.toCoord fst snd lot
       FieldSegment.surfaceHeight FieldSegment.surface_height
       nullish2 JS.nullish JS.isFinite JS.mul FT].
  reflexivity.
Qed.

(** On the triangular roof the packer places the module in the corner,
    and every module it places is a whole rectangle within the roof. *)
Lemma modules_within_buildable_region_witness :
  exists rest,
    added (Packer.segmentModules planar Examples.tracingBuffer
             Examples.unitArea corner alongAxes axisBearing inTriangle
             Examples.oneModule 50 lot) = firstModule :: rest
    /\ Forall (fun m =>
                 exists moduleId dims,
                   FieldSegment.module lot = Some moduleId
                   /\ Examples.oneModule moduleId = Some dims
                   /\ Packer.wholeRectangle planar inTriangle lot dims
                        (Packer.inset Examples.tracingBuffer
                           Examples.unitArea lot triangleRing) m)
              (firstModule :: rest).
Proof.
  destruct (lot_first_module 49) as [rest E]. exists rest.
  split; [exact E|]. rewrite <- E.
  refine (proj1 (Packer.modules_within_buildable_region
                   planar Examples.tracingBuffer Examples.unitArea corner
                   alongAxes axisBearing inTriangle Examples.oneModule 50
                   lot triangle triangleRing _ _)).
  - reflexivity.
  - exact lot_ring.
Defined.

(** The leftover of 8.9 m holds eight steps of 1.1 m and 0.1 m more. *)
Lemma lot_remainder (q : Z) :
  0 <= Rmax 0 (10 - 1.1) - 1.1 * IZR q < 1.1 ->
  Rmax 0 (10 - 1.1) - 1.1 * IZR q = 0.1.
Proof.
  intros B.
  assert (E : Rmax 0 (10 - 1.1) = 8.9)
    by (unfold Rmax; destruct (Rle_dec 0 (10 - 1.1)); lra).
  rewrite E in *.
  assert (q = 8)%Z.
  { assert (IZR 7 < IZR q) by lra. assert (IZR q < IZR 9) by lra.
    apply lt_IZR in H, H0. lia. }
  subst q. lra.
Qed.

(** On a width of 10 m, with frames and steps of 1.1 m, the first column
    is centered 0.6 m in for "center" and "justify", 0.65 m in for
    "right" and 0.55 m in for "left". *)
Lemma margin_by_alignment_witness :
  let columns a :=
    Packer.columnOffsets 50 (Packer.withAlignment (Some a) lot) panel
                         (JS.Num 10) in
  (exists rest, columns "center"%string = JS.Num (0.1 / 2 + 1.1 / 2) :: rest)
  /\ (exists rest, columns "right"%string = JS.Num (0.1 + 1.1 / 2) :: rest)
  /\ (exists rest, columns "left"%string = JS.Num (0 + 1.1 / 2) :: rest)
  /\ columns "justify"%string = columns "center"%string.
Proof.
  intros columns. subst columns. cbv beta.
  destruct (Packer.margin_by_alignment planar Examples.tracingBuffer
              Examples.unitArea corner alongAxes axisBearing inTriangle
              Examples.oneModule 50 lot panel (JS.Num 10))
    as [Hc [Hr [Hl [Hj [_ [_ [Hrem _]]]]]]].
  destruct lot_frame as [EfW [_ [EsX _]]].
  destruct (Hrem 10 1.1 1.1 eq_refl EfW EsX ltac:(lra)) as [q [Eq Bq]].
  rewrite (lot_remainder q Bq) in Eq.
  rewrite Hj, Hc, Hr, Hl, Eq, EfW, EsX, !halved.
  cbn [JS.add JS.sub JS.neg].
  repeat split;
    try (eexists; apply loopValues_head; apply JS.Rleb_true; lra).
Defined.

End MoreExamples.
